(** * Cost notebooks: methane cost model and greenhouse degree-hour model

    A shallow embedding of the two notebooks of the repository.

    Python floats are IEEE 754 binary64 values; they are embedded as Rocq's
    primitive [float], whose operations are the same binary64 operations
    (round to nearest, ties to even).  Decimal literals of the source are
    written as the same decimal literals here; both readers round a literal to
    the nearest binary64 value.

    Code that raises is embedded in an exception monad over an explicit world:
    everything that has happened so far, in program order (the lines printed,
    the calls the plotting library has returned from, the assignments to
    global names, and the array and cost-function steps of the grid).  A read
    of a global name looks the name up in the world. *)

From Stdlib Require Import ZArith QArith Qabs Qpower Floats Lia Lqa.
From Stdlib Require Import DecimalString.
From stdpp Require Import base list strings.

Set Warnings "-inexact-float".

(** ** Python numbers *)

Module Py.

(** A Python [int] used in float arithmetic is converted to the float of the
    same value (exact below 2^53; every int of the notebooks is). *)
Definition of_int (n : Z) : float := PrimFloat.of_uint63 (Uint63.of_Z n).

(** The exact rational value of a finite float. *)
Definition SF2Q (x : spec_float) : option Q :=
  match x with
  | S754_zero _ => Some 0%Q
  | S754_finite s m e =>
      let q := (inject_Z (Z.pos m) * Qpower 2 e)%Q in
      Some (if s then Qopp q else q)
  | S754_infinity _ | S754_nan => None
  end.

Definition exact (f : float) : option Q := SF2Q (Prim2SF f).

(** [approx digits target f]: [f] is finite and lies within half a unit of
    the [digits]-th decimal place of [target], that is, [target] is [f]
    up to rounding at that place. *)
Definition approx (digits : nat) (target : Q) (f : float) : bool :=
  match exact f with
  | Some q => Qle_bool (Qabs (q - target)) (1 # (2 * Z.to_pos (10 ^ Z.of_nat digits)))
  | None => false
  end.

(** [nearest q f]: [f] is a binary64 value nearest to the rational [q],
    checked against both neighbours of [f]. *)
Definition nearest (q : Q) (f : float) : bool :=
  match exact f, exact (next_down f), exact (next_up f) with
  | Some v, Some lo, Some hi =>
      Qle_bool (Qabs (v - q)) (Qabs (lo - q)) && Qle_bool (Qabs (v - q)) (Qabs (hi - q))
  | _, _, _ => false
  end.

(** Rounding of a non-negative rational to an integer, ties to even. *)
Definition round_half_even (q : Q) : Z :=
  let n := Qnum q in
  let d := Z.pos (Qden q) in
  let k := (n / d)%Z in
  match (2 * (n mod d) ?= d)%Z with
  | Lt => k
  | Gt => (k + 1)%Z
  | Eq => if Z.even k then k else (k + 1)%Z
  end.

Definition decimal (n : Z) : string := NilZero.string_of_uint (N.to_uint (Z.to_N n)).

Fixpoint pad_left (width : nat) (s : string) : string :=
  if decide (width <= String.length s)%nat then s
  else match width with
       | O => s
       | S w => ("0" ++ pad_left w s)%string
       end.

(** The format specification [:.<digits>f] of an f-string: the exact value
    of the float rounded at the [digits]-th decimal place, ties to even. *)
Definition format_f (digits : nat) (f : float) : string :=
  match Prim2SF f with
  | S754_nan => "nan"
  | S754_infinity s => if s then "-inf" else "inf"
  | sf =>
      let sign := match sf with S754_zero s | S754_finite s _ _ => s | _ => false end in
      let q := match SF2Q sf with Some q => Qabs q | None => 0%Q end in
      let scale := (10 ^ Z.of_nat digits)%Z in
      let n := round_half_even (q * inject_Z scale) in
      let int_part := decimal (n / scale) in
      let frac_part := pad_left digits (decimal (n mod scale)) in
      ((if sign then "-" else EmptyString) ++ int_part ++
         match digits with O => EmptyString | _ => "." ++ frac_part end)%string
  end.

End Py.

(** ** Exceptions, worlds and the monad of notebook code *)

Inductive pyexn : Type :=
| ValueError (msg : string)
| IndexError
| ZeroDivisionError
| NameError (name : string).

Inductive outcome (A : Type) : Type :=
| Ret (a : A)
| Raise (e : pyexn).
Arguments Ret {A} a.
Arguments Raise {A} e.

(** A two-dimensional numpy array of floats: its shape and its rows. *)
Record ndarray : Type := mk_ndarray {
  shape : nat * nat;
  data : list (list float)
}.

(** One piece of a printed line. *)
Inductive piece : Type :=
| Lit (s : string)                    (* literal text *)
| Fixed (digits : nat) (v : float)    (* {v:.<digits>f} *)
| Repr (v : float).                   (* print(v) of a float *)

Inductive axis : Type := XAxis | YAxis.

(** The calls made to the plotting library. *)
Inductive plot_call : Type :=
| subplots
| pcolormesh (X Y Z : ndarray) (cmap : string)
| xlabel (s : string)
| ylabel (s : string)
| title (s : string) (fontweight : string)
| xticks (ticks : list float)
| yticks (ticks : list float)
| set_major_formatter (a : axis) (prefix : string) (digits : nat)
| text (x y : float) (s : string)
| tight_layout
| savefig (fname : string) (dpi : Z)
| show.

(** The steps of the numeric work of [graph]: the numpy calls, the indexing
    of an array by name, and the calls of [terraform_cost]. *)
Inductive work : Type :=
| np_meshgrid (x y : list float)
| np_zeros_like (array : string)
| np_getitem (array : string) (i j : nat)
| np_setitem (array : string) (i j : nat) (v : float)
| call_terraform_cost (usd_per_kg_co2 usd_per_kg_h2 : float).

(** What a run leaves behind.  A global name is bound to a number; an [int]
    is bound as the float of the same value, which is how the arithmetic of
    the notebooks uses it. *)
Inductive event : Type :=
| Print (line : list piece)
| Plot (c : plot_call)
| Assign (name : string) (v : float)
| Work (s : work).

Definition world : Type := list event.

Definition M (A : Type) : Type := world -> outcome A * world.

Definition ret {A} (a : A) : M A := fun w => (Ret a, w).

Definition raise {A} (e : pyexn) : M A := fun w => (Raise e, w).

Definition bind {A B} (m : M A) (k : A -> M B) : M B :=
  fun w => match m w with
           | (Ret a, w') => k a w'
           | (Raise e, w') => (Raise e, w')
           end.

Definition emit (e : event) : M unit := fun w => (Ret tt, w ++ [e]).

Notation "'let*' x ':=' m 'in' k" := (bind m (fun x => k))
  (at level 10, x name, m at level 100, k at level 200).

(** [for i in range(n): s = body i s]. *)
Fixpoint for_each {S : Type} (body : nat -> S -> M S) (idx : list nat) (s : S) : M S :=
  match idx with
  | [] => ret s
  | i :: idx' => let* s' := body i s in for_each body idx' s'
  end.

Definition for_range {S : Type} (n : nat) (body : nat -> S -> M S) (s : S) : M S :=
  for_each body (seq 0 n) s.

(** [name = v] at the top level of a notebook. *)
Definition assign (name : string) (v : float) : M unit := emit (Assign name v).

(** The value a global name is bound to: that of its last assignment. *)
Fixpoint lookup_global (name : string) (w : world) : option float :=
  match w with
  | [] => None
  | e :: w' =>
      match lookup_global name w' with
      | Some v => Some v
      | None =>
          match e with
          | Assign n v => if String.eqb n name then Some v else None
          | _ => None
          end
      end
  end.

(** A read of a global name; an unbound name raises. *)
Definition global (name : string) : M float :=
  fun w => match lookup_global name w with
           | Some v => (Ret v, w)
           | None => (Raise (NameError name), w)
           end.

(** The plotting library is not part of the repository.  Whether one of its
    calls returns or raises, after everything that has happened before, is a
    parameter of the embedding. *)
Definition library : Type := world -> plot_call -> option pyexn.

(** A call of the plotting library: it raises what the library raises, or
    returns and is recorded. *)
Definition plot (lib : library) (c : plot_call) : M unit :=
  fun w => match lib w c with
           | Some e => (Raise e, w)
           | None => (Ret tt, w ++ [Plot c])
           end.

(** The image files written by a run: the names passed to [savefig]. *)
Definition saved_files (w : world) : list string :=
  omap (fun e => match e with Plot (savefig f _) => Some f | _ => None end) w.

(** The lines printed by a run. *)
Definition printed (w : world) : list (list piece) :=
  omap (fun e => match e with Print l => Some l | _ => None end) w.

(** Python's float true division raises on a zero divisor. *)
Definition truediv (a b : float) : M float :=
  if (b =? 0)%float then raise ZeroDivisionError else ret (a / b)%float.

(** ** numpy arrays *)

Module np.

(** [np.meshgrid(x, y)] of two one-dimensional arrays: both results have
    shape [(len y, len x)]; [X[i, j] = x[j]] and [Y[i, j] = y[i]]. *)
Definition meshgrid (x y : list float) : ndarray * ndarray :=
  (mk_ndarray (length y, length x) (map (fun _ => x) y),
   mk_ndarray (length y, length x) (map (fun yi => map (fun _ => yi) x) y)).

Definition zeros_like (a : ndarray) : ndarray :=
  mk_ndarray (shape a) (map (map (fun _ => 0%float)) (data a)).

(** [a[i, j]]; out of range raises. *)
Definition getitem (a : ndarray) (i j : nat) : M float :=
  match data a !! i ≫= (fun row => row !! j) with
  | Some v => ret v
  | None => raise IndexError
  end.

(** [a[i, j] = v]; out of range raises. *)
Definition setitem (a : ndarray) (i j : nat) (v : float) : M ndarray :=
  match data a !! i with
  | Some row =>
      if decide (j < length row)%nat
      then ret (mk_ndarray (shape a) (<[i := <[j := v]> row]> (data a)))
      else raise IndexError
  | None => raise IndexError
  end.

(** The same calls, each recorded as a step of the run. *)
Definition meshgrid_traced (x y : list float) : M (ndarray * ndarray) :=
  let* _ := emit (Work (np_meshgrid x y)) in
  ret (meshgrid x y).

Definition zeros_like_traced (name : string) (a : ndarray) : M ndarray :=
  let* _ := emit (Work (np_zeros_like name)) in
  ret (zeros_like a).

Definition getitem_traced (name : string) (a : ndarray) (i j : nat) : M float :=
  let* _ := emit (Work (np_getitem name i j)) in
  getitem a i j.

Definition setitem_traced (name : string) (a : ndarray) (i j : nat) (v : float)
  : M ndarray :=
  let* _ := emit (Work (np_setitem name i j v)) in
  setitem a i j v.

End np.

(** ** The methane cost notebook *)

Module Methane.

Definition CH4_KG_PER_KCF : float := 19.17%float.

(** Returns the cost of Terraform methane in $/kg. *)
Definition terraform_cost (usd_per_kg_co2 usd_per_kg_h2 : float) : float :=
  let kg_co2_per_kg_ch4 := 2.74%float in
  let kg_h2_per_kg_ch4 := 0.251%float in
  let cost_scale_factor := 1.195%float in
  let co2_cost := (usd_per_kg_co2 * kg_co2_per_kg_ch4)%float in
  let h2_cost := (usd_per_kg_h2 * kg_h2_per_kg_ch4)%float in
  let total_cost := ((co2_cost + h2_cost) * cost_scale_factor)%float in
  total_cost.

(** [res1 = terraform_cost(78/1000, 0.89)]; [print(res1)]. *)
Definition res1 : M float :=
  let* co2 := truediv (Py.of_int 78) (Py.of_int 1000) in
  let r := terraform_cost co2 0.89%float in
  let* _ := emit (Print [Repr r]) in
  ret r.

(** Lines 66-74 of [graph]: the body of the inner loop. *)
Definition graph_Z_cell (X Y : ndarray) (units : string) (i j : nat) (Z : ndarray)
  : M ndarray :=
  let* x := np.getitem X i j in
  let co2_price_per_kg := (x / Py.of_int 1000)%float in
  let* h2_price_per_kg := np.getitem Y i j in
  let cost_per_kg := terraform_cost co2_price_per_kg h2_price_per_kg in
  if String.eqb units "kcf"
  then
    let cost_per_kcf := (cost_per_kg * CH4_KG_PER_KCF)%float in
    np.setitem Z i j cost_per_kcf
  else
    np.setitem Z i j cost_per_kg.

(** Lines 61-74 of [graph]: the grids and the filled cost matrix [Z]. *)
Definition graph_Z (x_axis_values y_axis_values : list float) (units : string)
  : M ndarray :=
  let '(X, Y) := np.meshgrid x_axis_values y_axis_values in
  let Z := np.zeros_like X in
  for_range (fst (shape X)) (fun i Z =>
    for_range (snd (shape X)) (fun j Z => graph_Z_cell X Y units i j Z) Z) Z.

(** Line 13: the first cell binds the conversion constant. *)
Definition cell_1 : M unit := assign "CH4_KG_PER_KCF" CH4_KG_PER_KCF.

(** A call of [terraform_cost], recorded as a step of the run. *)
Definition terraform_cost_call (usd_per_kg_co2 usd_per_kg_h2 : float) : M float :=
  let* _ := emit (Work (call_terraform_cost usd_per_kg_co2 usd_per_kg_h2)) in
  ret (terraform_cost usd_per_kg_co2 usd_per_kg_h2).

(** Lines 66-74 of [graph] as a run executes them: every indexing of an
    array and every call of [terraform_cost] is a step of the run, and
    [CH4_KG_PER_KCF] is read from the global names when the line is
    reached. *)
Definition graph_Z_cell_traced (X Y : ndarray) (units : string) (i j : nat) (Z : ndarray)
  : M ndarray :=
  let* x := np.getitem_traced "X" X i j in
  let co2_price_per_kg := (x / Py.of_int 1000)%float in
  let* h2_price_per_kg := np.getitem_traced "Y" Y i j in
  let* cost_per_kg := terraform_cost_call co2_price_per_kg h2_price_per_kg in
  if String.eqb units "kcf"
  then
    let* kg_per_kcf := global "CH4_KG_PER_KCF" in
    let cost_per_kcf := (cost_per_kg * kg_per_kcf)%float in
    np.setitem_traced "Z" Z i j cost_per_kcf
  else
    np.setitem_traced "Z" Z i j cost_per_kg.

(** Lines 61-74 of [graph] as a run executes them: the two grids and the
    filled cost matrix. *)
Definition graph_Z_traced (x_axis_values y_axis_values : list float) (units : string)
  : M (ndarray * ndarray * ndarray) :=
  let* XY := np.meshgrid_traced x_axis_values y_axis_values in
  let X := fst XY in
  let Y := snd XY in
  let* Z := np.zeros_like_traced "X" X in
  let* Z :=
    for_range (fst (shape X)) (fun i Z =>
      for_range (snd (shape X)) (fun j Z => graph_Z_cell_traced X Y units i j Z) Z) Z in
  ret (X, Y, Z).

Section Plotting.

Variable lib : library.

(** Lines 93-96 of [graph]: one label per square. *)
Definition graph_labels (X Y Z : ndarray) : M unit :=
  for_range (fst (shape X)) (fun i _ =>
    for_range (snd (shape X)) (fun j _ =>
      let* x := np.getitem_traced "X" X i j in
      let* y := np.getitem_traced "Y" Y i j in
      let* z := np.getitem_traced "Z" Z i j in
      plot lib (text x y ("$" ++ Py.format_f 2 z))) tt) tt.

(** Lines 56-103: the guard, the grid, and the calls of the plotting
    library, any of which may raise. *)
Definition graph (x_axis_values y_axis_values : list float) (units : string)
  : M unit :=
  if negb (bool_decide (units ∈ ["kg"; "kcf"]))
  then raise (ValueError "units must be 'kg' or 'kcf'")
  else
    let* XYZ := graph_Z_traced x_axis_values y_axis_values units in
    let X := fst (fst XYZ) in
    let Y := snd (fst XYZ) in
    let Z := snd XYZ in
    let* _ := plot lib subplots in
    let* _ := plot lib (pcolormesh X Y Z "YlOrRd") in
    let* _ := plot lib (xlabel "$/kg CO2 (Direct Air Capture)") in
    let* _ := plot lib (ylabel "$/kg H2 (Electrolysis)") in
    let* _ := plot lib (title "Cost of Terraform Industries Green Methane" "bold") in
    let* _ := plot lib (xticks x_axis_values) in
    let* _ := plot lib (yticks y_axis_values) in
    let* _ := plot lib (set_major_formatter XAxis "$" 0) in
    let* _ := plot lib (set_major_formatter YAxis "$" 2) in
    let* _ := graph_labels X Y Z in
    let* _ := plot lib tight_layout in
    let* _ := plot lib (savefig ("terraform_cost_" ++ units ++ ".png") 300) in
    plot lib show.

(** Lines 105-106: the notebook draws the grid of its two axes in both
    units. *)
Definition plots (x_axis_values y_axis_values : list float) : M unit :=
  let* _ := graph x_axis_values y_axis_values "kg" in
  graph x_axis_values y_axis_values "kcf".

End Plotting.

End Methane.

(** ** The greenhouse cost-factor notebook *)

Module Greenhouse.

(** Constants from engineering standards *)
Definition BTU_PER_DEGREE_HOUR_PER_SQFT : float := 0.24%float.
Definition KWH_PER_BTU : float := 0.000293071%float.

(** Greenhouse characteristics *)
Definition TYPICAL_SQFT : Z := 10000.
Definition TYPICAL_HEIGHT_FT : Z := 16.
Definition AIR_CHANGES_PER_HOUR : float := 1.5%float.
Definition INFILTRATION_FACTOR : float := 1.2%float.
Definition GREENHOUSE_EFFECT_FACTOR : float := 1.3%float.

(** System efficiencies *)
Definition HEATING_SYSTEM_COP : float := 0.85%float.
Definition COOLING_SYSTEM_COP : float := 2.5%float.

(** Typical utility rates *)
Definition NATURAL_GAS_PER_KWH : float := 0.04%float.
Definition ELECTRICITY_PER_KWH : float := 0.12%float.

(** The variables the cell binds, and the four values it computes inside
    its print statements. *)
Record env : Type := mk_env {
  baseEnergyPerDegreeHour : float;
  volumeEffect : float;
  adjustedEnergy : float;
  heatingBtuPerDegreeHour : float;
  coolingBtuPerDegreeHour : float;
  heatingKwhPerDegreeHour : float;
  coolingKwhPerDegreeHour : float;
  heatingKwhPerSqft : float;
  coolingKwhPerSqft : float;
  heatingKwhPerSqm : float;
  coolingKwhPerSqm : float;
  heatingCostPerDegreeHour : float;
  coolingCostPerDegreeHour : float
}.

Definition newline : string := String (Ascii.ascii_of_nat 10) EmptyString.

Definition cell : M env :=
  let baseEnergyPerDegreeHour :=
    (BTU_PER_DEGREE_HOUR_PER_SQFT * Py.of_int TYPICAL_SQFT)%float in
  let* volumeEffect :=
    truediv (Py.of_int TYPICAL_HEIGHT_FT * AIR_CHANGES_PER_HOUR)%float (Py.of_int 8) in
  let adjustedEnergy :=
    (baseEnergyPerDegreeHour * volumeEffect * INFILTRATION_FACTOR)%float in
  let* heating_at_cop := truediv adjustedEnergy HEATING_SYSTEM_COP in
  let* heatingBtuPerDegreeHour := truediv heating_at_cop GREENHOUSE_EFFECT_FACTOR in
  let* coolingBtuPerDegreeHour :=
    truediv (adjustedEnergy * GREENHOUSE_EFFECT_FACTOR)%float COOLING_SYSTEM_COP in
  let heatingKwhPerDegreeHour := (heatingBtuPerDegreeHour * KWH_PER_BTU)%float in
  let coolingKwhPerDegreeHour := (coolingBtuPerDegreeHour * KWH_PER_BTU)%float in
  let* _ := emit (Print
    [Lit "Energy Requirements per Degree Hour for 10,000 sqft greenhouse:"]) in
  let* _ := emit (Print [Lit "Heating: "; Fixed 2 heatingKwhPerDegreeHour; Lit " kWh"]) in
  let* _ := emit (Print [Lit "Cooling: "; Fixed 2 coolingKwhPerDegreeHour; Lit " kWh"]) in
  let* _ := emit (Print
    [Lit "Energy requirements per Square Foot per degree hour:"]) in
  let* heatingKwhPerSqft := truediv heatingKwhPerDegreeHour (Py.of_int TYPICAL_SQFT) in
  let* _ := emit (Print [Lit "Heating: "; Fixed 4 heatingKwhPerSqft; Lit " kWh/m²"]) in
  let* coolingKwhPerSqft := truediv coolingKwhPerDegreeHour (Py.of_int TYPICAL_SQFT) in
  let* _ := emit (Print [Lit "Cooling: "; Fixed 4 coolingKwhPerSqft; Lit " kWh/m²"]) in
  let* _ := emit (Print
    [Lit "Energy requirements per Square Meter per degree hour:"]) in
  let* heating_per_sqft := truediv heatingKwhPerDegreeHour (Py.of_int TYPICAL_SQFT) in
  let heatingKwhPerSqm := (heating_per_sqft * 10.7639)%float in
  let* _ := emit (Print [Lit "Heating: "; Fixed 4 heatingKwhPerSqm; Lit " kWh/m²"]) in
  let* cooling_per_sqft := truediv coolingKwhPerDegreeHour (Py.of_int TYPICAL_SQFT) in
  let coolingKwhPerSqm := (cooling_per_sqft * 10.7639)%float in
  let* _ := emit (Print [Lit "Cooling: "; Fixed 4 coolingKwhPerSqm; Lit " kWh/m²"]) in
  let heatingCostPerDegreeHour := (heatingKwhPerDegreeHour * NATURAL_GAS_PER_KWH)%float in
  let coolingCostPerDegreeHour := (coolingKwhPerDegreeHour * ELECTRICITY_PER_KWH)%float in
  let* _ := emit (Print [Lit (newline ++ "Cost per Degree Hour:")]) in
  let* _ := emit (Print [Lit "Heating: $"; Fixed 3 heatingCostPerDegreeHour]) in
  let* _ := emit (Print [Lit "Cooling: $"; Fixed 3 coolingCostPerDegreeHour]) in
  ret (mk_env baseEnergyPerDegreeHour volumeEffect adjustedEnergy
         heatingBtuPerDegreeHour coolingBtuPerDegreeHour
         heatingKwhPerDegreeHour coolingKwhPerDegreeHour
         heatingKwhPerSqft coolingKwhPerSqft heatingKwhPerSqm coolingKwhPerSqm
         heatingCostPerDegreeHour coolingCostPerDegreeHour).

(** The same cell as Python runs it: every top-level assignment binds a
    global name, and every use of a name reads the binding in force when the
    expression is evaluated, operands from left to right. *)
Definition cell_on_globals : M unit :=
  let* _ := assign "BTU_PER_DEGREE_HOUR_PER_SQFT" BTU_PER_DEGREE_HOUR_PER_SQFT in
  let* _ := assign "KWH_PER_BTU" KWH_PER_BTU in
  let* _ := assign "TYPICAL_SQFT" (Py.of_int TYPICAL_SQFT) in
  let* _ := assign "TYPICAL_HEIGHT_FT" (Py.of_int TYPICAL_HEIGHT_FT) in
  let* _ := assign "AIR_CHANGES_PER_HOUR" AIR_CHANGES_PER_HOUR in
  let* _ := assign "INFILTRATION_FACTOR" INFILTRATION_FACTOR in
  let* _ := assign "GREENHOUSE_EFFECT_FACTOR" GREENHOUSE_EFFECT_FACTOR in
  let* _ := assign "HEATING_SYSTEM_COP" HEATING_SYSTEM_COP in
  let* _ := assign "COOLING_SYSTEM_COP" COOLING_SYSTEM_COP in
  (* baseEnergyPerDegreeHour = BTU_PER_DEGREE_HOUR_PER_SQFT * TYPICAL_SQFT *)
  let* btu := global "BTU_PER_DEGREE_HOUR_PER_SQFT" in
  let* sqft := global "TYPICAL_SQFT" in
  let* _ := assign "baseEnergyPerDegreeHour" (btu * sqft)%float in
  (* volumeEffect = TYPICAL_HEIGHT_FT * AIR_CHANGES_PER_HOUR / 8 *)
  let* height := global "TYPICAL_HEIGHT_FT" in
  let* changes := global "AIR_CHANGES_PER_HOUR" in
  let* v := truediv (height * changes)%float (Py.of_int 8) in
  let* _ := assign "volumeEffect" v in
  (* adjustedEnergy = baseEnergyPerDegreeHour * volumeEffect * INFILTRATION_FACTOR *)
  let* base := global "baseEnergyPerDegreeHour" in
  let* volume := global "volumeEffect" in
  let* infiltration := global "INFILTRATION_FACTOR" in
  let* _ := assign "adjustedEnergy" (base * volume * infiltration)%float in
  (* heatingBtuPerDegreeHour =
       adjustedEnergy / HEATING_SYSTEM_COP / GREENHOUSE_EFFECT_FACTOR *)
  let* adjusted := global "adjustedEnergy" in
  let* heating_cop := global "HEATING_SYSTEM_COP" in
  let* heating_at_cop := truediv adjusted heating_cop in
  let* effect := global "GREENHOUSE_EFFECT_FACTOR" in
  let* v := truediv heating_at_cop effect in
  let* _ := assign "heatingBtuPerDegreeHour" v in
  (* coolingBtuPerDegreeHour =
       adjustedEnergy * GREENHOUSE_EFFECT_FACTOR / COOLING_SYSTEM_COP *)
  let* adjusted := global "adjustedEnergy" in
  let* effect := global "GREENHOUSE_EFFECT_FACTOR" in
  let* cooling_cop := global "COOLING_SYSTEM_COP" in
  let* v := truediv (adjusted * effect)%float cooling_cop in
  let* _ := assign "coolingBtuPerDegreeHour" v in
  (* heatingKwhPerDegreeHour = heatingBtuPerDegreeHour * KWH_PER_BTU *)
  let* heating_btu := global "heatingBtuPerDegreeHour" in
  let* kwh_per_btu := global "KWH_PER_BTU" in
  let* _ := assign "heatingKwhPerDegreeHour" (heating_btu * kwh_per_btu)%float in
  (* coolingKwhPerDegreeHour = coolingBtuPerDegreeHour * KWH_PER_BTU *)
  let* cooling_btu := global "coolingBtuPerDegreeHour" in
  let* kwh_per_btu := global "KWH_PER_BTU" in
  let* _ := assign "coolingKwhPerDegreeHour" (cooling_btu * kwh_per_btu)%float in
  let* _ := emit (Print
    [Lit "Energy Requirements per Degree Hour for 10,000 sqft greenhouse:"]) in
  let* heating := global "heatingKwhPerDegreeHour" in
  let* _ := emit (Print [Lit "Heating: "; Fixed 2 heating; Lit " kWh"]) in
  let* cooling := global "coolingKwhPerDegreeHour" in
  let* _ := emit (Print [Lit "Cooling: "; Fixed 2 cooling; Lit " kWh"]) in
  let* _ := emit (Print
    [Lit "Energy requirements per Square Foot per degree hour:"]) in
  let* heating := global "heatingKwhPerDegreeHour" in
  let* sqft := global "TYPICAL_SQFT" in
  let* v := truediv heating sqft in
  let* _ := emit (Print [Lit "Heating: "; Fixed 4 v; Lit " kWh/m²"]) in
  let* cooling := global "coolingKwhPerDegreeHour" in
  let* sqft := global "TYPICAL_SQFT" in
  let* v := truediv cooling sqft in
  let* _ := emit (Print [Lit "Cooling: "; Fixed 4 v; Lit " kWh/m²"]) in
  let* _ := emit (Print
    [Lit "Energy requirements per Square Meter per degree hour:"]) in
  let* heating := global "heatingKwhPerDegreeHour" in
  let* sqft := global "TYPICAL_SQFT" in
  let* v := truediv heating sqft in
  let* _ := emit (Print [Lit "Heating: "; Fixed 4 (v * 10.7639)%float; Lit " kWh/m²"]) in
  let* cooling := global "coolingKwhPerDegreeHour" in
  let* sqft := global "TYPICAL_SQFT" in
  let* v := truediv cooling sqft in
  let* _ := emit (Print [Lit "Cooling: "; Fixed 4 (v * 10.7639)%float; Lit " kWh/m²"]) in
  let* _ := assign "NATURAL_GAS_PER_KWH" NATURAL_GAS_PER_KWH in
  let* _ := assign "ELECTRICITY_PER_KWH" ELECTRICITY_PER_KWH in
  (* heatingCostPerDegreeHour = heatingKwhPerDegreeHour * NATURAL_GAS_PER_KWH *)
  let* heating := global "heatingKwhPerDegreeHour" in
  let* gas := global "NATURAL_GAS_PER_KWH" in
  let* _ := assign "heatingCostPerDegreeHour" (heating * gas)%float in
  (* coolingCostPerDegreeHour = coolingKwhPerDegreeHour * ELECTRICITY_PER_KWH *)
  let* cooling := global "coolingKwhPerDegreeHour" in
  let* electricity := global "ELECTRICITY_PER_KWH" in
  let* _ := assign "coolingCostPerDegreeHour" (cooling * electricity)%float in
  let* _ := emit (Print [Lit (newline ++ "Cost per Degree Hour:")]) in
  let* heating_cost := global "heatingCostPerDegreeHour" in
  let* _ := emit (Print [Lit "Heating: $"; Fixed 3 heating_cost]) in
  let* cooling_cost := global "coolingCostPerDegreeHour" in
  emit (Print [Lit "Cooling: $"; Fixed 3 cooling_cost]).

End Greenhouse.

(** The text of a printed line, when it has no [Repr] piece. *)
Fixpoint render (line : list piece) : string :=
  match line with
  | [] => EmptyString
  | Lit s :: rest => (s ++ render rest)%string
  | Fixed d v :: rest => (Py.format_f d v ++ render rest)%string
  | Repr v :: rest => ("<repr>" ++ render rest)%string
  end.

(** A computation is stateless when its outcome and the events it adds do not
    depend on the world it starts from, and it leaves that world in place. *)
Definition stateless {A : Type} (m : M A) : Prop :=
  exists (r : outcome A) (evs : list event), forall w : world, m w = (r, w ++ evs).

(** Two runs of a computation, from any two worlds, end with the same outcome
    and add the same events. *)
Definition same_run {A : Type} (m : M A) (w1 w2 : world) : Prop :=
  fst (m w1) = fst (m w2) /\
  exists evs : list event, snd (m w1) = w1 ++ evs /\ snd (m w2) = w2 ++ evs.

(** The value a cell of the grid is given (lines 66-74 of [graph]). *)
Definition cell_cost (units : string) (x y : float) : float :=
  let cost_per_kg := Methane.terraform_cost (x / Py.of_int 1000)%float y in
  if String.eqb units "kcf" then (cost_per_kg * Methane.CH4_KG_PER_KCF)%float
  else cost_per_kg.

(** [a[i, j]] as a partial function. *)
Definition item (a : ndarray) (i j : nat) : option float :=
  data a !! i ≫= (fun row => row !! j).

(** The cost matrix in closed form: one row per H2 price, one column per CO2
    price. *)
Definition cost_grid (units : string) (x y : list float) : ndarray :=
  mk_ndarray (length y, length x)
    (map (fun yv => map (fun xv => cell_cost units xv yv) x) y).


(** ** Binary64 rounding

    The operations of primitive floats are specified by the functions of
    [SpecFloat] at precision 53 and maximal exponent 1024.  The definitions
    below name the steps of its rounding function [binary_round_aux]. *)

Section RoundingDefs.

Local Open Scope Z_scope.

(** [n] one-bit right shifts of a shift record. *)
Definition iter_shr (n : nat) (r : shr_record) : shr_record := Nat.iter n shr_1 r.

(** The order of shift records: by mantissa, then round bit, then sticky bit. *)
Definition rec_key (r : shr_record) : Z :=
  4 * shr_m r + (if shr_r r then 2 else 0) + (if shr_s r then 1 else 0).

(** Rounding a shift record to nearest, ties to even. *)
Definition rne (r : shr_record) : Z :=
  round_nearest_even (shr_m r) (loc_of_shr_record r).

(** Rounding of the positive value [M * 2^E] to binary64. *)
Definition Rnd (M : positive) (E : Z) : spec_float :=
  binary_round_aux prec emax false (Z.pos M) E loc_Exact.

(** What [binary_round_aux] does once the first shift has been made. *)
Definition finish (r : shr_record) (t : Z) : spec_float :=
  let '(mrs, e) := shr_fexp prec emax (rne r) t loc_Exact in
  match shr_m mrs with
  | Z0 => S754_zero false
  | Z.pos m => if e <=? emax - prec then S754_finite false m e else S754_infinity false
  | Z.neg _ => S754_nan
  end.

(** The float with rounded mantissa [r] at exponent [t]. *)
Definition fin (r t : Z) : spec_float :=
  if r =? 0 then S754_zero false
  else if r <? 2 ^ 53
       then (if t <=? 971 then S754_finite false (Z.to_pos r) t else S754_infinity false)
       else (if t + 1 <=? 971 then S754_finite false (Z.to_pos (2 ^ 52)) (t + 1)
             else S754_infinity false).

(** The mantissa [M] shifted right by [n] bits and rounded. *)
Definition rnd_int (M : positive) (n : Z) : Z :=
  rne (iter_shr (Z.to_nat n) (Build_shr_record (Z.pos M) false false)).

(** The exponent at which [M * 2^E] is rounded. *)
Definition target (M : positive) (E : Z) : Z := fexp prec emax (Z.pos (digits2_pos M) + E).

(** Zeros, positive finite floats and plus infinity. *)
Definition nonneg (x : spec_float) : bool :=
  match x with
  | S754_zero _ | S754_infinity false | S754_finite false _ _ => true
  | _ => false
  end.

(** The value of a finite non-negative float in units of 2^-1074. *)
Definition val (x : spec_float) : Z :=
  match x with
  | S754_finite false m e => Z.pos m * 2 ^ (e + 1074)
  | _ => 0
  end.

(** A positive normal float. *)
Definition normal_pos (c : spec_float) : bool :=
  match c with
  | S754_finite false m e => bounded prec emax m e && (Z.pos (digits2_pos m) =? 53)
  | _ => false
  end.

(** Rounding of the positive integer [v] in units of [2^E]. *)
Definition RndZ (v E : Z) : spec_float := Rnd (Z.to_pos v) E.

(** The shift record of the non-negative rational [num / den]: its integer
    part, whether its fraction is at least one half, and whether its fraction
    is neither zero nor one half. *)
Definition enc (num den : Z) : shr_record :=
  let r := num mod den in
  Build_shr_record (num / den) (den <=? 2 * r) (negb (r =? 0) && negb (2 * r =? den)).

(** The exponent at which [(num / den) * 2^E] is rounded. *)
Definition targetQ (num den E : Z) : Z := fexp prec emax (Zdigits2 (num / den) + E).

(** Rounding of the non-negative value [(num / den) * 2^E] to binary64. *)
Definition RndQ (num den E : Z) : spec_float :=
  finish (enc num (den * 2 ^ (targetQ num den E - E))) (targetQ num den E).

(** A positive finite (valid) float. *)
Definition finite_pos (c : spec_float) : bool :=
  match c with
  | S754_finite false m e => bounded prec emax m e
  | _ => false
  end.

End RoundingDefs.

(** ** Monotonicity and linearity of a cost function *)


(** The two laws of linearity in each argument, for a cost function over any
    kind of number: the part of the cost that an argument contributes (the
    other argument at zero) is additive and homogeneous in that argument. *)
Section LinearityLaws.

Context {T : Type}.
Variables (eqT : T -> T -> Prop) (nonnegT : T -> Prop).
Variables (zeroT : T) (addT mulT : T -> T -> T).





End LinearityLaws.






Section ErrorDefs.

Local Open Scope Z_scope.

(** [X] is [Y] up to [n] roundings: [(1 - u)^n Y <= X <= (1 + u)^n Y] with
    [u = 2^-53], on integers. *)
Definition near (n : nat) (X Y : Z) : Prop :=
  (2 ^ 53 - 1) ^ Z.of_nat n * Y <= (2 ^ 53) ^ Z.of_nat n * X /\
  (2 ^ 53) ^ Z.of_nat n * X <= (2 ^ 53 + 1) ^ Z.of_nat n * Y.



End ErrorDefs.

(** ** What a run of [graph] leaves behind *)

(** The calls the plotting library has returned from. *)
Definition plot_calls (w : world) : list plot_call :=
  omap (fun e => match e with Plot c => Some c | _ => None end) w.

(** The numeric steps of a run. *)
Definition work_done (w : world) : list work :=
  omap (fun e => match e with Work s => Some s | _ => None end) w.

(** Events that are numeric steps only. *)
Definition only_work (evs : list event) : Prop :=
  Forall (fun e => match e with Work _ => True | _ => False end) evs.

(** Events that bind no global name. *)
Definition binds_nothing (evs : list event) : Prop :=
  forall name : string, lookup_global name evs = None.

(** A library that returns from each of the given calls, whatever happened
    before. *)
Definition accepts (lib : library) (calls : list plot_call) : Prop :=
  forall (w : world) (c : plot_call), c ∈ calls -> lib w c = None.

(** A library that returns from every call. *)
Definition accepting : library := fun _ _ => None.

(** The label drawn on the square of CO2 price [xv] and H2 price [yv]. *)
Definition label_call (units : string) (yv xv : float) : plot_call :=
  text xv yv ("$" ++ Py.format_f 2 (cell_cost units xv yv)).

(** The calls [graph] makes to the plotting library, in order. *)
Definition graph_calls (units : string) (x y : list float) : list plot_call :=
  let X := fst (np.meshgrid x y) in
  let Y := snd (np.meshgrid x y) in
  [ subplots;
    pcolormesh X Y (cost_grid units x y) "YlOrRd";
    xlabel "$/kg CO2 (Direct Air Capture)";
    ylabel "$/kg H2 (Electrolysis)";
    title "Cost of Terraform Industries Green Methane" "bold";
    xticks x;
    yticks y;
    set_major_formatter XAxis "$" 0;
    set_major_formatter YAxis "$" 2 ]
  ++ flat_map (fun yv => map (label_call units yv) x) y
  ++ [ tight_layout;
       savefig ("terraform_cost_" ++ units ++ ".png") 300;
       show ].

(** The labels drawn by a run: position and text of each [text] call. *)
Definition labels_drawn (w : world) : list (float * float * string) :=
  omap (fun e => match e with Plot (text x y s) => Some (x, y, s) | _ => None end) w.

(** The world in which [CH4_KG_PER_KCF] is bound as the first cell binds
    it. *)
Definition CH4_bound (w : world) : Prop :=
  lookup_global "CH4_KG_PER_KCF" w = Some Methane.CH4_KG_PER_KCF.

(** ** Dependence on the world *)

(** Two worlds that bind the given names alike. *)
Definition agree_on (names : list string) (w1 w2 : world) : Prop :=
  forall n : string, n ∈ names -> lookup_global n w1 = lookup_global n w2.

(** A computation that depends on the world through the given names at
    most. *)
Definition reads_only {A : Type} (names : list string) (m : M A) : Prop :=
  forall w1 w2 : world, agree_on names w1 w2 -> same_run m w1 w2.

(** Started after the events [pre], whatever came before them, the
    computation ends with [r] and adds [evs]. *)
Definition runs_from {A : Type} (pre : list event) (m : M A) (r : outcome A)
           (evs : list event) : Prop :=
  forall w : world, m (w ++ pre) = (r, (w ++ pre) ++ evs).

(** A computation that only adds to the world. *)
Definition extends {A : Type} (m : M A) : Prop :=
  forall w : world, exists (r : outcome A) (evs : list event), m w = (r, w ++ evs).

(** ** Printed text *)




(** * Properties *)

(** ** The monad *)

Section Monad.

Context {A B : Type}.

Lemma bind_ret (a : A) (k : A -> M B) (w : world) :
  bind (ret a) k w = k a w.
Proof. reflexivity. Qed.

Lemma bind_run (m : M A) (k : A -> M B) (w w' : world) (a : A) :
  m w = (Ret a, w') -> bind m k w = k a w'.
Proof. intros H. unfold bind. now rewrite H. Qed.

Lemma bind_raise (m : M A) (k : A -> M B) (w w' : world) (e : pyexn) :
  m w = (Raise e, w') -> bind m k w = (Raise e, w').
Proof. intros H. unfold bind. now rewrite H. Qed.

Lemma stateless_ret (a : A) : stateless (ret a).
Proof. exists (Ret a), []. intros w. unfold ret. now rewrite app_nil_r. Qed.

Lemma stateless_raise (e : pyexn) : stateless (@raise A e).
Proof. exists (Raise e), []. intros w. unfold raise. now rewrite app_nil_r. Qed.

Lemma stateless_bind (m : M A) (k : A -> M B) :
  stateless m -> (forall a, stateless (k a)) -> stateless (bind m k).
Proof.
  intros (r & evs & Hm) Hk. destruct r as [a | e].
  - destruct (Hk a) as (r' & evs' & Hka).
    exists r', (evs ++ evs'). intros w.
    rewrite (bind_run _ _ _ _ _ (Hm w)), Hka. now rewrite app_assoc.
  - exists (Raise e), evs. intros w. now rewrite (bind_raise _ _ _ _ _ (Hm w)).
Qed.

End Monad.

Lemma stateless_emit (e : event) : stateless (emit e).
Proof. exists (Ret tt), [e]. reflexivity. Qed.

Lemma stateless_truediv (a b : float) : stateless (truediv a b).
Proof.
  unfold truediv. destruct (b =? 0)%float.
  - apply stateless_raise.
  - apply stateless_ret.
Qed.

Lemma stateless_for_each {S : Type} (body : nat -> S -> M S) (idx : list nat) :
  (forall i s, stateless (body i s)) -> forall s, stateless (for_each body idx s).
Proof.
  intros Hbody. induction idx as [| i idx IH]; intros s; simpl.
  - apply stateless_ret.
  - apply stateless_bind; [apply Hbody | apply IH].
Qed.

Lemma stateless_for_range {S : Type} (n : nat) (body : nat -> S -> M S) :
  (forall i s, stateless (body i s)) -> forall s, stateless (for_range n body s).
Proof. intros H s. now apply stateless_for_each. Qed.

Lemma stateless_getitem (a : ndarray) (i j : nat) : stateless (np.getitem a i j).
Proof.
  unfold np.getitem. destruct (_ ≫= _); [apply stateless_ret | apply stateless_raise].
Qed.

Lemma stateless_setitem (a : ndarray) (i j : nat) (v : float) :
  stateless (np.setitem a i j v).
Proof.
  unfold np.setitem. destruct (data a !! i); [| apply stateless_raise].
  destruct (decide _); [apply stateless_ret | apply stateless_raise].
Qed.

Create HintDb stateless.
#[export] Hint Resolve stateless_ret stateless_raise stateless_emit stateless_truediv
  stateless_getitem stateless_setitem : stateless.

Ltac stateless_step :=
  first [ apply stateless_bind; [| intros ?]
        | apply stateless_for_range; intros ? ?
        | solve [auto with stateless] ].

Lemma stateless_graph_Z (x y : list float) (units : string) :
  stateless (Methane.graph_Z x y units).
Proof.
  unfold Methane.graph_Z, Methane.graph_Z_cell; simpl.
  repeat stateless_step.
  destruct (String.eqb units "kcf"); auto with stateless.
Qed.

Lemma stateless_res1 : stateless Methane.res1.
Proof. unfold Methane.res1. repeat stateless_step. Qed.

Lemma stateless_cell : stateless Greenhouse.cell.
Proof. unfold Greenhouse.cell. repeat stateless_step. Qed.

(** ** The grid loops *)

Section Grid.

Variables (units : string) (x y : list float).

Let X := fst (np.meshgrid x y).
Let Y := snd (np.meshgrid x y).

Lemma getitem_X (i j : nat) (xv : float) (w : world) :
  (i < length y)%nat -> x !! j = Some xv -> np.getitem X i j w = (Ret xv, w).
Proof.
  intros Hi Hj. unfold np.getitem, X; simpl.
  destruct (lookup_lt_is_Some_2 y i Hi) as [yv Hyv].
  rewrite list_lookup_fmap, Hyv; simpl. now rewrite Hj.
Qed.

Lemma getitem_Y (i j : nat) (yv : float) (w : world) :
  y !! i = Some yv -> (j < length x)%nat -> np.getitem Y i j w = (Ret yv, w).
Proof.
  intros Hi Hj. unfold np.getitem, Y; simpl.
  destruct (lookup_lt_is_Some_2 x j Hj) as [xv Hxv].
  rewrite list_lookup_fmap, Hi; simpl.
  now rewrite list_lookup_fmap, Hxv.
Qed.

Lemma graph_Z_cell_run (i j : nat) (xv yv : float) (Z : ndarray) (row : list float)
      (w : world) :
  x !! j = Some xv -> y !! i = Some yv ->
  data Z !! i = Some row -> (j < length row)%nat ->
  Methane.graph_Z_cell X Y units i j Z w =
    (Ret (mk_ndarray (shape Z) (<[i := <[j := cell_cost units xv yv]> row]> (data Z))), w).
Proof.
  intros Hx Hy Hrow Hj. unfold Methane.graph_Z_cell.
  rewrite (bind_run _ _ _ _ _ (getitem_X i j xv w (lookup_lt_Some _ _ _ Hy) Hx)).
  rewrite (bind_run _ _ _ _ _ (getitem_Y i j yv w Hy (lookup_lt_Some _ _ _ Hx))).
  unfold cell_cost, np.setitem. rewrite Hrow.
  destruct (decide (j < length row)%nat); [| contradiction].
  now destruct (String.eqb units "kcf").
Qed.

End Grid.

Lemma take_insert_step {A B : Type} (g : B -> A) (l : list A) (src : list B)
      (k : nat) (b : B) :
  src !! k = Some b -> (k < length l)%nat ->
  take (S k) (<[k := g b]> l) ++ map g (drop (S k) src) = take k l ++ map g (drop k src).
Proof.
  intros Hb Hk.
  rewrite (take_S_r _ _ (g b)) by now apply list_lookup_insert_eq.
  rewrite take_insert_ge by lia.
  rewrite (drop_S src b k Hb); simpl.
  now rewrite <- app_assoc.
Qed.

Section GridLoops.

Variables (units : string) (x y : list float).

Let X := fst (np.meshgrid x y).
Let Y := snd (np.meshgrid x y).

Lemma inner_loop (i : nat) (yv : float) :
  y !! i = Some yv ->
  forall (n k : nat) (Z : ndarray) (row : list float) (w : world),
    (k + n = length x)%nat -> data Z !! i = Some row -> length row = length x ->
    for_each (fun j Z => Methane.graph_Z_cell X Y units i j Z) (seq k n) Z w =
      (Ret (mk_ndarray (shape Z)
              (<[i := take k row ++ map (fun xv => cell_cost units xv yv) (drop k x)]>
                 (data Z))), w).
Proof.
  intros Hy. induction n as [| n IH]; intros k Z row w Hk Hrow Hlen; simpl.
  - rewrite drop_ge by lia. rewrite take_ge by lia. simpl. rewrite app_nil_r.
    rewrite list_insert_id by exact Hrow. now destruct Z.
  - assert (Hkx : (k < length x)%nat) by lia.
    destruct (lookup_lt_is_Some_2 x k Hkx) as [xv Hxv].
    rewrite (bind_run _ _ _ _ _
               (graph_Z_cell_run units x y i k xv yv Z row w Hxv Hy Hrow ltac:(lia))).
    rewrite (IH (S k) _ (<[k := cell_cost units xv yv]> row) w); simpl.
    + rewrite list_insert_insert_eq.
      now rewrite (take_insert_step (fun xv => cell_cost units xv yv) row x k xv Hxv)
        by lia.
    + lia.
    + apply list_lookup_insert_eq. now apply lookup_lt_Some in Hrow.
    + now rewrite length_insert.
Qed.

Lemma outer_loop :
  forall (n k : nat) (Z : ndarray) (w : world),
    (k + n = length y)%nat -> length (data Z) = length y ->
    Forall (fun row => length row = length x) (data Z) ->
    for_each (fun i Z =>
                for_range (snd (shape X))
                  (fun j Z => Methane.graph_Z_cell X Y units i j Z) Z) (seq k n) Z w =
      (Ret (mk_ndarray (shape Z)
              (take k (data Z) ++
               map (fun yv => map (fun xv => cell_cost units xv yv) x) (drop k y))), w).
Proof.
  induction n as [| n IH]; intros k Z w Hk Hlen Hrows; simpl.
  - rewrite drop_ge by lia. rewrite take_ge by lia. simpl. rewrite app_nil_r.
    now destruct Z.
  - assert (Hky : (k < length y)%nat) by lia.
    destruct (lookup_lt_is_Some_2 y k Hky) as [yv Hyv].
    destruct (lookup_lt_is_Some_2 (data Z) k ltac:(lia)) as [row Hrow].
    assert (Hrl : length row = length x)
      by exact (proj1 (Forall_lookup _ _) Hrows k row Hrow).
    unfold for_range at 1.
    rewrite (bind_run _ _ _ _ _
               (inner_loop k yv Hyv (length x) 0 Z row w eq_refl Hrow Hrl)).
    rewrite take_0, drop_0; simpl.
    rewrite (IH (S k)); simpl.
    + now rewrite (take_insert_step (fun yv => map (fun xv => cell_cost units xv yv) x)
                     (data Z) y k yv Hyv) by lia.
    + lia.
    + now rewrite length_insert.
    + apply Forall_insert; [exact Hrows |]. now rewrite length_map.
Qed.

(** The loops of [graph] fill [Z] with the closed-form grid, raise nothing
    and leave the world alone. *)
Lemma graph_Z_run (w : world) :
  Methane.graph_Z x y units w = (Ret (cost_grid units x y), w).
Proof.
  unfold Methane.graph_Z, for_range; simpl.
  rewrite (outer_loop (length y) 0); simpl.
  - now rewrite drop_0.
  - reflexivity.
  - now rewrite !length_map.
  - rewrite Forall_fmap, Forall_fmap. apply Forall_forall. intros ? _. simpl.
    now rewrite length_map.
Qed.

End GridLoops.

Lemma item_cost_grid (units : string) (x y : list float) (i j : nat) (xv yv : float) :
  x !! j = Some xv -> y !! i = Some yv ->
  item (cost_grid units x y) i j = Some (cell_cost units xv yv).
Proof.
  intros Hx Hy. unfold item, cost_grid; simpl.
  rewrite list_lookup_fmap, Hy; simpl.
  now rewrite list_lookup_fmap, Hx.
Qed.

(** A stateless computation can be run once, from the empty world, to learn
    what it does from every world. *)
Lemma stateless_run {A : Type} (m : M A) (r : outcome A) (evs : list event) :
  stateless m -> m [] = (r, evs) -> forall w, m w = (r, w ++ evs).
Proof.
  intros (r' & evs' & H) H0 w. rewrite (H []) in H0. simpl in H0.
  injection H0 as -> ->. apply H.
Qed.

Lemma same_run_of_stateless {A : Type} (m : M A) (w1 w2 : world) :
  stateless m -> same_run m w1 w2.
Proof.
  intros (r & evs & H). unfold same_run. rewrite (H w1), (H w2); simpl. eauto.
Qed.

(** ** Worlds *)

Lemma lookup_global_app (name : string) (w evs : world) :
  lookup_global name (w ++ evs) =
    match lookup_global name evs with
    | Some v => Some v
    | None => lookup_global name w
    end.
Proof.
  induction w as [| e w IH]; simpl.
  - now destruct (lookup_global name evs).
  - rewrite IH. now destruct (lookup_global name evs).
Qed.

Lemma lookup_global_only_work (name : string) (evs : list event) :
  only_work evs -> lookup_global name evs = None.
Proof.
  induction 1 as [| e evs He _ IH]; [reflexivity |]. simpl. rewrite IH.
  now destruct e.
Qed.

Lemma lookup_global_after_work (name : string) (w evs : world) :
  only_work evs -> lookup_global name (w ++ evs) = lookup_global name w.
Proof.
  intros H. now rewrite lookup_global_app, (lookup_global_only_work name evs H).
Qed.

Lemma plot_calls_app (w1 w2 : world) : plot_calls (w1 ++ w2) = plot_calls w1 ++ plot_calls w2.
Proof. apply omap_app. Qed.

Lemma work_done_app (w1 w2 : world) : work_done (w1 ++ w2) = work_done w1 ++ work_done w2.
Proof. apply omap_app. Qed.

Lemma saved_files_app (w1 w2 : world) :
  saved_files (w1 ++ w2) = saved_files w1 ++ saved_files w2.
Proof. apply omap_app. Qed.

Lemma labels_drawn_app (w1 w2 : world) :
  labels_drawn (w1 ++ w2) = labels_drawn w1 ++ labels_drawn w2.
Proof. apply omap_app. Qed.

Lemma plot_calls_only_work (evs : list event) : only_work evs -> plot_calls evs = [].
Proof.
  induction 1 as [| e evs He _ IH]; [reflexivity |].
  destruct e; try contradiction. exact IH.
Qed.

Lemma only_work_app (evs1 evs2 : list event) :
  only_work evs1 -> only_work evs2 -> only_work (evs1 ++ evs2).
Proof. apply Forall_app_2. Qed.

Lemma only_work_nil : only_work [].
Proof. constructor. Qed.

Lemma only_work_cons (s : work) (evs : list event) :
  only_work evs -> only_work (Work s :: evs).
Proof. intros H. now constructor. Qed.

(** The saved files and the labels of a run are read off its plot calls. *)
Lemma saved_files_plot_calls (w : world) :
  saved_files w =
    omap (fun c => match c with savefig f _ => Some f | _ => None end) (plot_calls w).
Proof.
  induction w as [| e w IH]; [reflexivity |].
  destruct e as [| c | |]; try exact IH.
  destruct c; try exact IH.
  unfold saved_files, plot_calls. simpl. f_equal. exact IH.
Qed.

Lemma labels_drawn_plot_calls (w : world) :
  labels_drawn w =
    omap (fun c => match c with text x y s => Some (x, y, s) | _ => None end) (plot_calls w).
Proof.
  induction w as [| e w IH]; [reflexivity |].
  destruct e as [| c | |]; try exact IH.
  destruct c; try exact IH.
  unfold labels_drawn, plot_calls. simpl. f_equal. exact IH.
Qed.

(** ** Computations that only add to the world *)

Section Extends.

Context {A B : Type}.

Lemma extends_ret (a : A) : extends (ret a).
Proof. intros w. exists (Ret a), []. unfold ret. now rewrite app_nil_r. Qed.

Lemma extends_raise (e : pyexn) : extends (@raise A e).
Proof. intros w. exists (Raise e), []. unfold raise. now rewrite app_nil_r. Qed.

Lemma extends_bind (m : M A) (k : A -> M B) :
  extends m -> (forall a, extends (k a)) -> extends (bind m k).
Proof.
  intros Hm Hk w. destruct (Hm w) as (r & evs & Hr). destruct r as [a | e].
  - destruct (Hk a (w ++ evs)) as (r' & evs' & Hr').
    exists r', (evs ++ evs'). rewrite (bind_run _ _ _ _ _ Hr), Hr'. now rewrite app_assoc.
  - exists (Raise e), evs. now rewrite (bind_raise _ _ _ _ _ Hr).
Qed.

End Extends.

Lemma extends_stateless {A : Type} (m : M A) : stateless m -> extends m.
Proof. intros (r & evs & H) w. exists r, evs. apply H. Qed.

Lemma extends_global (name : string) : extends (global name).
Proof.
  intros w. unfold global. destruct (lookup_global name w) as [v |].
  - exists (Ret v), []. now rewrite app_nil_r.
  - exists (Raise (NameError name)), []. now rewrite app_nil_r.
Qed.

Lemma extends_plot (lib : library) (c : plot_call) : extends (plot lib c).
Proof.
  intros w. unfold plot. destruct (lib w c) as [e |].
  - exists (Raise e), []. now rewrite app_nil_r.
  - now exists (Ret tt), [Plot c].
Qed.

Lemma extends_for_each {S : Type} (body : nat -> S -> M S) (idx : list nat) :
  (forall i s, extends (body i s)) -> forall s, extends (for_each body idx s).
Proof.
  intros Hbody. induction idx as [| i idx IH]; intros s; simpl.
  - apply extends_ret.
  - apply extends_bind; [apply Hbody | apply IH].
Qed.

Lemma extends_for_range {S : Type} (n : nat) (body : nat -> S -> M S) :
  (forall i s, extends (body i s)) -> forall s, extends (for_range n body s).
Proof. intros H s. now apply extends_for_each. Qed.

(** ** Computations that read the given names at most *)

Lemma agree_on_app (names : list string) (w1 w2 evs : world) :
  agree_on names w1 w2 -> agree_on names (w1 ++ evs) (w2 ++ evs).
Proof. intros H n Hn. rewrite !lookup_global_app, (H n Hn). reflexivity. Qed.

Section ReadsOnly.

Context {A B : Type}.
Variable names : list string.

Lemma reads_only_stateless (m : M A) : stateless m -> reads_only names m.
Proof. intros H w1 w2 _. now apply same_run_of_stateless. Qed.

Lemma reads_only_bind (m : M A) (k : A -> M B) :
  reads_only names m -> (forall a, reads_only names (k a)) -> reads_only names (bind m k).
Proof.
  intros Hm Hk w1 w2 Hw. destruct (Hm w1 w2 Hw) as (Hr & evs & H1 & H2).
  unfold same_run, bind.
  destruct (m w1) as [r1 w1'], (m w2) as [r2 w2']. simpl in Hr, H1, H2. subst r2 w1' w2'.
  destruct r1 as [a | e].
  - destruct (Hk a (w1 ++ evs) (w2 ++ evs) (agree_on_app _ _ _ _ Hw))
      as (Hr' & evs' & H1' & H2').
    split; [exact Hr' |]. exists (evs ++ evs'). now rewrite H1', H2', !app_assoc.
  - split; [reflexivity |]. now exists evs.
Qed.

End ReadsOnly.

Lemma reads_only_global (names : list string) (name : string) :
  name ∈ names -> reads_only names (global name).
Proof.
  intros Hn w1 w2 Hw. unfold same_run, global. rewrite (Hw name Hn).
  destruct (lookup_global name w2); simpl; (split; [reflexivity |]);
    exists []; now rewrite !app_nil_r.
Qed.

Lemma reads_only_for_each {S : Type} (names : list string) (body : nat -> S -> M S)
      (idx : list nat) :
  (forall i s, reads_only names (body i s)) -> forall s, reads_only names (for_each body idx s).
Proof.
  intros Hbody. induction idx as [| i idx IH]; intros s; simpl.
  - apply reads_only_stateless, stateless_ret.
  - apply reads_only_bind; [apply Hbody | apply IH].
Qed.

Lemma reads_only_for_range {S : Type} (names : list string) (n : nat)
      (body : nat -> S -> M S) :
  (forall i s, reads_only names (body i s)) -> forall s, reads_only names (for_range n body s).
Proof. intros H s. now apply reads_only_for_each. Qed.

(** ** Running a computation after known events *)

Section RunsFrom.

Context {A B : Type}.
Variable pre : list event.

Lemma runs_from_ret (a : A) : runs_from pre (ret a) (Ret a) [].
Proof. intros w. unfold ret. now rewrite app_nil_r. Qed.

Lemma runs_from_bind (m : M A) (k : A -> M B) (a : A) (evs evs' : list event)
      (r : outcome B) :
  runs_from pre m (Ret a) evs -> runs_from (pre ++ evs) (k a) r evs' ->
  runs_from pre (bind m k) r (evs ++ evs').
Proof.
  intros Hm Hk w. rewrite (bind_run _ _ _ _ _ (Hm w)).
  specialize (Hk w). rewrite !app_assoc in Hk. now rewrite !app_assoc.
Qed.

Lemma runs_from_bind_raise (m : M A) (k : A -> M B) (e : pyexn) (evs : list event) :
  runs_from pre m (Raise e) evs -> runs_from pre (bind m k) (Raise e) evs.
Proof. intros Hm w. now rewrite (bind_raise _ _ _ _ _ (Hm w)). Qed.

End RunsFrom.

Lemma runs_from_emit (pre : list event) (e : event) : runs_from pre (emit e) (Ret tt) [e].
Proof. intros w. reflexivity. Qed.

Lemma runs_from_global (pre : list event) (name : string) (v : float) :
  lookup_global name pre = Some v -> runs_from pre (global name) (Ret v) [].
Proof.
  intros H w. unfold global. rewrite lookup_global_app, H. now rewrite app_nil_r.
Qed.

Lemma runs_from_truediv (pre : list event) (a b : float) :
  (b =? 0)%float = false -> runs_from pre (truediv a b) (Ret (a / b)%float) [].
Proof. intros H w. unfold truediv. rewrite H. unfold ret. now rewrite app_nil_r. Qed.

Lemma runs_from_start {A : Type} (m : M A) (r : outcome A) (evs : list event) :
  runs_from [] m r evs -> forall w, m w = (r, w ++ evs).
Proof. intros H w. specialize (H w). now rewrite !app_nil_r in H. Qed.

(** ** The grid loops as a run executes them *)

Lemma emit_then {A : Type} (e : event) (m : M A) (w : world) :
  (let* _ := emit e in m) w = m (w ++ [e]).
Proof. reflexivity. Qed.

Section TracedGrid.

Variables (units : string) (x y : list float).

Let X := fst (np.meshgrid x y).
Let Y := snd (np.meshgrid x y).

Lemma getitem_traced_X (i j : nat) (xv : float) (w : world) :
  (i < length y)%nat -> x !! j = Some xv ->
  np.getitem_traced "X" X i j w = (Ret xv, w ++ [Work (np_getitem "X" i j)]).
Proof. intros Hi Hj. unfold np.getitem_traced. rewrite emit_then. now apply getitem_X. Qed.

Lemma getitem_traced_Y (i j : nat) (yv : float) (w : world) :
  y !! i = Some yv -> (j < length x)%nat ->
  np.getitem_traced "Y" Y i j w = (Ret yv, w ++ [Work (np_getitem "Y" i j)]).
Proof. intros Hi Hj. unfold np.getitem_traced. rewrite emit_then. now apply getitem_Y. Qed.

Lemma setitem_traced_run (Z : ndarray) (i j : nat) (v : float) (row : list float)
      (w : world) :
  data Z !! i = Some row -> (j < length row)%nat ->
  np.setitem_traced "Z" Z i j v w =
    (Ret (mk_ndarray (shape Z) (<[i := <[j := v]> row]> (data Z))),
     w ++ [Work (np_setitem "Z" i j v)]).
Proof.
  intros Hrow Hj. unfold np.setitem_traced. rewrite emit_then.
  unfold np.setitem. rewrite Hrow.
  now destruct (decide (j < length row)%nat).
Qed.

(** The first cell binds [CH4_KG_PER_KCF] as the grid needs it. *)
Lemma CH4_bound_after_cell_1 (w : world) :
  exists w' : world, Methane.cell_1 w = (Ret tt, w') /\ CH4_bound w'.
Proof.
  exists (w ++ [Assign "CH4_KG_PER_KCF" Methane.CH4_KG_PER_KCF]). split; [reflexivity |].
  unfold CH4_bound. now rewrite lookup_global_app.
Qed.

Lemma global_CH4 (w : world) :
  CH4_bound w -> global "CH4_KG_PER_KCF" w = (Ret Methane.CH4_KG_PER_KCF, w).
Proof. intros H. unfold global. now rewrite H. Qed.

Lemma CH4_bound_after_work (w evs : world) :
  only_work evs -> CH4_bound w -> CH4_bound (w ++ evs).
Proof. intros H Hw. unfold CH4_bound. now rewrite lookup_global_after_work. Qed.

Lemma graph_Z_cell_traced_run (i j : nat) (xv yv : float) (Z : ndarray)
      (row : list float) (w : world) :
  x !! j = Some xv -> y !! i = Some yv ->
  data Z !! i = Some row -> (j < length row)%nat ->
  (units = "kcf" -> CH4_bound w) ->
  exists evs : list event,
    only_work evs /\
    Methane.graph_Z_cell_traced X Y units i j Z w =
      (Ret (mk_ndarray (shape Z) (<[i := <[j := cell_cost units xv yv]> row]> (data Z))),
       w ++ evs).
Proof.
  intros Hx Hy Hrow Hj Hch4.
  unfold Methane.graph_Z_cell_traced.
  rewrite (bind_run _ _ _ _ _ (getitem_traced_X i j xv _ (lookup_lt_Some _ _ _ Hy) Hx)).
  rewrite (bind_run _ _ _ _ _ (getitem_traced_Y i j yv _ Hy (lookup_lt_Some _ _ _ Hx))).
  unfold Methane.terraform_cost_call at 1.
  rewrite (bind_run _ _ _
             (((w ++ [Work (np_getitem "X" i j)]) ++ [Work (np_getitem "Y" i j)]) ++
              [Work (call_terraform_cost (xv / Py.of_int 1000) yv)])
             (Methane.terraform_cost (xv / Py.of_int 1000) yv)) by reflexivity.
  assert (Hw1 : forall s, only_work [Work s])
    by (intros s; apply only_work_cons, only_work_nil).
  unfold cell_cost.
  destruct (String.eqb_spec units "kcf") as [Hu | Hu].
  - rewrite (bind_run _ _ _ _ _ (global_CH4 _
               (CH4_bound_after_work _ _ (Hw1 _)
                  (CH4_bound_after_work _ _ (Hw1 _)
                     (CH4_bound_after_work _ _ (Hw1 _) (Hch4 Hu)))))).
    rewrite (setitem_traced_run Z i j _ row _ Hrow Hj).
    eexists. split; [| rewrite <- !app_assoc; reflexivity].
    simpl. repeat apply only_work_cons. apply only_work_nil.
  - rewrite (setitem_traced_run Z i j _ row _ Hrow Hj).
    eexists. split; [| rewrite <- !app_assoc; reflexivity].
    simpl. repeat apply only_work_cons. apply only_work_nil.
Qed.

Lemma inner_loop_traced (i : nat) (yv : float) :
  y !! i = Some yv ->
  forall (n k : nat) (Z : ndarray) (row : list float) (w : world),
    (k + n = length x)%nat -> data Z !! i = Some row -> length row = length x ->
    (units = "kcf" -> CH4_bound w) ->
    exists evs : list event,
      only_work evs /\
      for_each (fun j Z => Methane.graph_Z_cell_traced X Y units i j Z) (seq k n) Z w =
        (Ret (mk_ndarray (shape Z)
                (<[i := take k row ++ map (fun xv => cell_cost units xv yv) (drop k x)]>
                   (data Z))), w ++ evs).
Proof.
  intros Hy. induction n as [| n IH]; intros k Z row w Hk Hrow Hlen Hch4; simpl.
  - exists []. split; [apply only_work_nil |].
    rewrite drop_ge by lia. rewrite take_ge by lia. simpl. rewrite !app_nil_r.
    rewrite list_insert_id by exact Hrow. now destruct Z.
  - assert (Hkx : (k < length x)%nat) by lia.
    destruct (lookup_lt_is_Some_2 x k Hkx) as [xv Hxv].
    destruct (graph_Z_cell_traced_run i k xv yv Z row w Hxv Hy Hrow ltac:(lia) Hch4)
      as (evs1 & Hw1 & Hrun1).
    rewrite (bind_run _ _ _ _ _ Hrun1).
    destruct (IH (S k) (mk_ndarray (shape Z) (<[i := <[k := cell_cost units xv yv]> row]> (data Z)))
                (<[k := cell_cost units xv yv]> row) (w ++ evs1))
      as (evs2 & Hw2 & Hrun2).
    + lia.
    + cbn [data]. apply list_lookup_insert_eq. now apply lookup_lt_Some in Hrow.
    + now rewrite length_insert.
    + intros Hu. apply CH4_bound_after_work; auto.
    + exists (evs1 ++ evs2). split; [now apply only_work_app |].
      refine (eq_trans Hrun2 _). cbn [shape data]. rewrite list_insert_insert_eq.
      rewrite (take_insert_step (fun xv => cell_cost units xv yv) row x k xv Hxv) by lia.
      now rewrite app_assoc.
Qed.

Lemma outer_loop_traced :
  forall (n k : nat) (Z : ndarray) (w : world),
    (k + n = length y)%nat -> length (data Z) = length y ->
    Forall (fun row => length row = length x) (data Z) ->
    (units = "kcf" -> CH4_bound w) ->
    exists evs : list event,
      only_work evs /\
      for_each (fun i Z =>
                  for_range (snd (shape X))
                    (fun j Z => Methane.graph_Z_cell_traced X Y units i j Z) Z) (seq k n) Z w =
        (Ret (mk_ndarray (shape Z)
                (take k (data Z) ++
                 map (fun yv => map (fun xv => cell_cost units xv yv) x) (drop k y))),
         w ++ evs).
Proof.
  induction n as [| n IH]; intros k Z w Hk Hlen Hrows Hch4; simpl.
  - exists []. split; [apply only_work_nil |].
    rewrite drop_ge by lia. rewrite take_ge by lia. simpl. rewrite !app_nil_r.
    now destruct Z.
  - assert (Hky : (k < length y)%nat) by lia.
    destruct (lookup_lt_is_Some_2 y k Hky) as [yv Hyv].
    destruct (lookup_lt_is_Some_2 (data Z) k ltac:(lia)) as [row Hrow].
    assert (Hrl : length row = length x)
      by exact (proj1 (Forall_lookup _ _) Hrows k row Hrow).
    unfold for_range at 1.
    destruct (inner_loop_traced k yv Hyv (length x) 0 Z row w eq_refl Hrow Hrl Hch4)
      as (evs1 & Hw1 & Hrun1).
    rewrite (bind_run _ _ _ _ _ Hrun1).
    rewrite take_0, drop_0. cbn [app].
    destruct (IH (S k)
                (mk_ndarray (shape Z)
                   (<[k := map (fun xv => cell_cost units xv yv) x]> (data Z)))
                (w ++ evs1)) as (evs2 & Hw2 & Hrun2).
    + lia.
    + cbn [data]. now rewrite length_insert.
    + cbn [data]. apply Forall_insert; [exact Hrows |]. now rewrite length_map.
    + intros Hu. apply CH4_bound_after_work; auto.
    + exists (evs1 ++ evs2). split; [now apply only_work_app |].
      refine (eq_trans Hrun2 _). cbn [shape data].
      rewrite (take_insert_step (fun yv => map (fun xv => cell_cost units xv yv) x)
                 (data Z) y k yv Hyv) by lia.
      now rewrite app_assoc.
Qed.

(** The grid part of [graph]: it calls [meshgrid] and [zeros_like], then
    fills the matrix with the closed-form grid, adding numeric steps only. *)
Lemma graph_Z_traced_run (w : world) :
  (units = "kcf" -> CH4_bound w) ->
  exists evs : list event,
    only_work evs /\
    Methane.graph_Z_traced x y units w =
      (Ret (X, Y, cost_grid units x y),
       w ++ Work (np_meshgrid x y) :: Work (np_zeros_like "X") :: evs).
Proof.
  intros Hch4.
  unfold Methane.graph_Z_traced, for_range.
  rewrite (bind_run _ _ w (w ++ [Work (np_meshgrid x y)]) (np.meshgrid x y)) by reflexivity.
  cbv zeta.
  rewrite (bind_run _ _ _ ((w ++ [Work (np_meshgrid x y)]) ++ [Work (np_zeros_like "X")])
             (np.zeros_like (fst (np.meshgrid x y)))) by reflexivity.
  destruct (outer_loop_traced (length y) 0 (np.zeros_like (fst (np.meshgrid x y)))
              ((w ++ [Work (np_meshgrid x y)]) ++ [Work (np_zeros_like "X")]))
    as (evs & Hw & Hrun).
  - reflexivity.
  - simpl. now rewrite !length_map.
  - simpl. rewrite Forall_fmap, Forall_fmap. apply Forall_forall. intros ? _. simpl.
    now rewrite length_map.
  - intros Hu. rewrite <- app_assoc. apply CH4_bound_after_work; auto.
    repeat apply only_work_cons. apply only_work_nil.
  - exists evs. split; [exact Hw |].
    rewrite (bind_run _ _ _ _ _ Hrun). unfold ret. simpl.
    rewrite drop_0, <- !app_assoc. reflexivity.
Qed.

End TracedGrid.

Lemma binds_nothing_nil : binds_nothing [].
Proof. intros n. reflexivity. Qed.

Lemma binds_nothing_app (evs1 evs2 : list event) :
  binds_nothing evs1 -> binds_nothing evs2 -> binds_nothing (evs1 ++ evs2).
Proof. intros H1 H2 n. now rewrite lookup_global_app, H2, H1. Qed.

Lemma binds_nothing_work (evs : list event) : only_work evs -> binds_nothing evs.
Proof. intros H n. now apply lookup_global_only_work. Qed.

Lemma binds_nothing_plot (c : plot_call) : binds_nothing [Plot c].
Proof. intros n. reflexivity. Qed.

Lemma lookup_global_after (name : string) (w evs : world) :
  binds_nothing evs -> lookup_global name (w ++ evs) = lookup_global name w.
Proof. intros H. now rewrite lookup_global_app, H. Qed.

Lemma plot_run (lib : library) (c : plot_call) (w : world) :
  lib w c = None -> plot lib c w = (Ret tt, w ++ [Plot c]).
Proof. intros H. unfold plot. now rewrite H. Qed.

Lemma plot_raises (lib : library) (c : plot_call) (w : world) (e : pyexn) :
  lib w c = Some e -> plot lib c w = (Raise e, w).
Proof. intros H. unfold plot. now rewrite H. Qed.

(** ** The label loops *)

Section LabelLoops.

Variables (lib : library) (units : string) (x y : list float).

Let X := fst (np.meshgrid x y).
Let Y := snd (np.meshgrid x y).
Let Z := cost_grid units x y.

Hypothesis labels_accepted :
  forall (w : world) (xv yv : float),
    xv ∈ x -> yv ∈ y -> lib w (label_call units yv xv) = None.

Lemma getitem_Z (i j : nat) (xv yv : float) (w : world) :
  x !! j = Some xv -> y !! i = Some yv ->
  np.getitem Z i j w = (Ret (cell_cost units xv yv), w).
Proof.
  intros Hx Hy. unfold np.getitem, Z, cost_grid; simpl.
  rewrite list_lookup_fmap, Hy; simpl.
  now rewrite list_lookup_fmap, Hx.
Qed.

Lemma getitem_traced_Z (i j : nat) (xv yv : float) (w : world) :
  x !! j = Some xv -> y !! i = Some yv ->
  np.getitem_traced "Z" Z i j w =
    (Ret (cell_cost units xv yv), w ++ [Work (np_getitem "Z" i j)]).
Proof. intros Hx Hy. unfold np.getitem_traced. rewrite emit_then. now apply getitem_Z. Qed.

Lemma label_run (i j : nat) (xv yv : float) (w : world) :
  x !! j = Some xv -> y !! i = Some yv ->
  (let* xv := np.getitem_traced "X" X i j in
   let* yv := np.getitem_traced "Y" Y i j in
   let* z := np.getitem_traced "Z" Z i j in
   plot lib (text xv yv ("$" ++ Py.format_f 2 z))) w =
    (Ret tt,
     w ++ [Work (np_getitem "X" i j); Work (np_getitem "Y" i j); Work (np_getitem "Z" i j);
           Plot (label_call units yv xv)]).
Proof.
  intros Hx Hy.
  rewrite (bind_run _ _ _ _ _
             (getitem_traced_X x y i j xv _ (lookup_lt_Some _ _ _ Hy) Hx)).
  rewrite (bind_run _ _ _ _ _
             (getitem_traced_Y x y i j yv _ Hy (lookup_lt_Some _ _ _ Hx))).
  rewrite (bind_run _ _ _ _ _ (getitem_traced_Z i j xv yv _ Hx Hy)).
  fold (label_call units yv xv).
  rewrite plot_run.
  - now rewrite <- !app_assoc.
  - apply labels_accepted; eapply list_elem_of_lookup_2; eassumption.
Qed.

Lemma labels_inner_loop (i : nat) (yv : float) :
  y !! i = Some yv ->
  forall (n k : nat) (w : world),
    (k + n = length x)%nat ->
    exists evs : list event,
      plot_calls evs = map (label_call units yv) (drop k x) /\
      binds_nothing evs /\
      for_each (fun j (_ : unit) =>
                  let* xv := np.getitem_traced "X" X i j in
                  let* yv := np.getitem_traced "Y" Y i j in
                  let* z := np.getitem_traced "Z" Z i j in
                  plot lib (text xv yv ("$" ++ Py.format_f 2 z))) (seq k n) tt w =
        (Ret tt, w ++ evs).
Proof.
  intros Hy. induction n as [| n IH]; intros k w Hk; cbn [for_each seq].
  - exists []. rewrite drop_ge by lia. unfold ret. rewrite app_nil_r.
    split; [reflexivity | split; [apply binds_nothing_nil | reflexivity]].
  - assert (Hkx : (k < length x)%nat) by lia.
    destruct (lookup_lt_is_Some_2 x k Hkx) as [xv Hxv].
    rewrite (bind_run _ _ _ _ _ (label_run i k xv yv w Hxv Hy)).
    destruct (IH (S k) (w ++ [Work (np_getitem "X" i k); Work (np_getitem "Y" i k);
                             Work (np_getitem "Z" i k); Plot (label_call units yv xv)])
                ltac:(lia)) as (evs & Hcalls & Hb & Hrun).
    eexists. split; [| split; [| rewrite Hrun, <- app_assoc; reflexivity]].
    + rewrite plot_calls_app, Hcalls, (drop_S x xv k Hxv). reflexivity.
    + apply binds_nothing_app; [| exact Hb]. intros name. reflexivity.
Qed.

Lemma labels_outer_loop :
  forall (n k : nat) (w : world),
    (k + n = length y)%nat ->
    exists evs : list event,
      plot_calls evs = flat_map (fun yv => map (label_call units yv) x) (drop k y) /\
      binds_nothing evs /\
      for_each (fun i (_ : unit) =>
                  for_range (snd (shape X))
                    (fun j (_ : unit) =>
                       let* xv := np.getitem_traced "X" X i j in
                       let* yv := np.getitem_traced "Y" Y i j in
                       let* z := np.getitem_traced "Z" Z i j in
                       plot lib (text xv yv ("$" ++ Py.format_f 2 z))) tt) (seq k n) tt w =
        (Ret tt, w ++ evs).
Proof.
  induction n as [| n IH]; intros k w Hk; cbn [for_each seq].
  - exists []. rewrite drop_ge by lia. unfold ret. rewrite app_nil_r.
    split; [reflexivity | split; [apply binds_nothing_nil | reflexivity]].
  - assert (Hky : (k < length y)%nat) by lia.
    destruct (lookup_lt_is_Some_2 y k Hky) as [yv Hyv].
    destruct (labels_inner_loop k yv Hyv (length x) 0 w eq_refl)
      as (evs1 & Hcalls1 & Hb1 & Hrun1).
    unfold for_range at 1.
    rewrite (bind_run _ _ _ _ _ Hrun1).
    destruct (IH (S k) (w ++ evs1) ltac:(lia)) as (evs2 & Hcalls2 & Hb2 & Hrun2).
    exists (evs1 ++ evs2). split; [| split].
    + rewrite plot_calls_app, Hcalls1, Hcalls2, drop_0, (drop_S y yv k Hyv). reflexivity.
    + now apply binds_nothing_app.
    + rewrite Hrun2. now rewrite app_assoc.
Qed.

(** The label loops of [graph] draw one label per square, row by row, when
    the library returns from each of these calls. *)
Lemma graph_labels_run (w : world) :
  exists evs : list event,
    plot_calls evs = flat_map (fun yv => map (label_call units yv) x) y /\
    binds_nothing evs /\
    Methane.graph_labels lib X Y Z w = (Ret tt, w ++ evs).
Proof.
  destruct (labels_outer_loop (length y) 0 w eq_refl) as (evs & Hcalls & Hb & Hrun).
  rewrite drop_0 in Hcalls. now exists evs.
Qed.

End LabelLoops.

Lemma label_call_in_graph_calls (units : string) (x y : list float) (xv yv : float) :
  xv ∈ x -> yv ∈ y -> label_call units yv xv ∈ graph_calls units x y.
Proof.
  intros Hx Hy. unfold graph_calls. rewrite !elem_of_app. right. left.
  apply list_elem_of_In, in_flat_map. exists yv. split; [now apply list_elem_of_In |].
  apply in_map. now apply list_elem_of_In.
Qed.

Ltac in_graph_calls :=
  unfold graph_calls;
  first [ apply elem_of_app; left; solve [repeat constructor]
        | apply elem_of_app; right; apply elem_of_app; right; solve [repeat constructor] ].

Ltac plot_step Hacc :=
  match goal with
  | |- context [bind (plot ?lib ?c) ?k ?w] =>
      rewrite (bind_run (plot lib c) k w (w ++ [Plot c]) tt)
        by (apply plot_run, Hacc; in_graph_calls)
  end.

(** With a recognised unit, [CH4_KG_PER_KCF] bound when it is needed, and a
    library that returns from each call, [graph] returns, having made exactly
    the calls of [graph_calls] and bound no name. *)
Lemma graph_run (lib : library) (x y : list float) (units : string) (w : world) :
  units = "kg" \/ units = "kcf" ->
  (units = "kcf" -> CH4_bound w) ->
  accepts lib (graph_calls units x y) ->
  exists evs : list event,
    Methane.graph lib x y units w = (Ret tt, w ++ evs) /\
    plot_calls evs = graph_calls units x y /\
    binds_nothing evs.
Proof.
  intros Hu Hch4 Hacc. unfold Methane.graph.
  rewrite bool_decide_eq_true_2 by (rewrite !elem_of_cons; tauto).
  cbn [negb].
  destruct (graph_Z_traced_run units x y w Hch4) as (evsZ & HwZ & HrunZ).
  rewrite (bind_run _ _ _ _ _ HrunZ). cbv zeta. cbn [fst snd].
  do 9 plot_step Hacc.
  assert (Hlab : forall (w0 : world) (xv yv : float),
             xv ∈ x -> yv ∈ y -> lib w0 (label_call units yv xv) = None)
    by (intros; apply Hacc, label_call_in_graph_calls; assumption).
  match goal with
  | |- context [bind (Methane.graph_labels lib _ _ _) _ ?w1] =>
      destruct (graph_labels_run lib units x y Hlab w1)
        as (evsL & HcallsL & HbL & HrunL);
      rewrite (bind_run _ _ _ _ _ HrunL)
  end.
  do 2 plot_step Hacc.
  rewrite plot_run by (apply Hacc; in_graph_calls).
  eexists. split; [rewrite <- !app_assoc; reflexivity | split].
  - rewrite !plot_calls_app, HcallsL.
    rewrite (plot_calls_only_work (Work (np_meshgrid x y) :: Work (np_zeros_like "X") :: evsZ))
      by (repeat apply only_work_cons; exact HwZ).
    reflexivity.
  - repeat apply binds_nothing_app;
      first [ exact HbL | apply binds_nothing_plot
            | apply binds_nothing_work; repeat apply only_work_cons; exact HwZ ].
Qed.

(** The grid is computed before anything is drawn: with a recognised unit a
    run of [graph] starts with the call of [meshgrid], whatever the library
    does and whatever is bound. *)
Lemma graph_starts_with_the_grid (lib : library) (x y : list float) (units : string)
      (w : world) :
  units = "kg" \/ units = "kcf" ->
  exists (r : outcome unit) (evs : list event),
    Methane.graph lib x y units w = (r, w ++ Work (np_meshgrid x y) :: evs).
Proof.
  intros Hu. unfold Methane.graph.
  rewrite bool_decide_eq_true_2 by (rewrite !elem_of_cons; tauto).
  cbn [negb]. unfold Methane.graph_Z_traced, np.meshgrid_traced.
  match goal with
  | |- context [bind (bind (bind (emit ?e) ?k1) ?k2) ?k3 w] =>
      assert (Hext : extends (bind (bind (k1 tt) k2) k3))
  end.
  { repeat first
      [ apply extends_bind; [| intros ?]
      | apply extends_for_range; intros ? ?
      | apply extends_plot
      | apply extends_global
      | apply extends_stateless; solve [auto with stateless]
      | match goal with |- extends (if ?b then _ else _) => destruct b end ]. }
  destruct (Hext (w ++ [Work (np_meshgrid x y)])) as (r & evs & Hr).
  exists r, evs. unfold bind at 1 2 3 in Hr. unfold bind at 1 2 3 4.
  unfold emit at 1. rewrite <- app_assoc in Hr. exact Hr.
Qed.

(** ** The methane cost function *)

(** The literals of [terraform_cost] and [CH4_KG_PER_KCF] denote the binary64
    values nearest to their decimal readings. *)
Lemma methane_literals_nearest :
  Py.nearest (274 # 100) 2.74%float = true /\
  Py.nearest (251 # 1000) 0.251%float = true /\
  Py.nearest (1195 # 1000) 1.195%float = true /\
  Py.nearest (1917 # 100) Methane.CH4_KG_PER_KCF = true.
Proof. repeat split; vm_compute; reflexivity. Qed.

(** The same literals as mantissa and exponent. *)
Lemma methane_literals_binary64 :
  Prim2SF 2.74 = S754_finite false 6169931489497580 (-51) /\
  Prim2SF 0.251 = S754_finite false 4521614025879978 (-54) /\
  Prim2SF 1.195 = S754_finite false 5381801554707743 (-52) /\
  Prim2SF Methane.CH4_KG_PER_KCF = S754_finite false 5395875303543276 (-48).
Proof. repeat split; vm_compute; reflexivity. Qed.

(** C1. For every pair of float inputs, [terraform_cost] returns exactly
    [(co2_price * 2.74 + h2_price * 0.251) * 1.195], evaluated in binary64
    arithmetic: two roundings of a product, one of the sum and one of the
    final product, with the three constants rounded to binary64.  The
    function reads no variable but its two arguments and calls nothing: its
    embedding is a function outside the monad of worlds, so its result
    depends on nothing else and it has no effect. *)
Theorem terraform_cost_formula (co2_price h2_price : float) :
  Methane.terraform_cost co2_price h2_price =
    ((co2_price * 2.74 + h2_price * 0.251) * 1.195)%float /\
  Prim2SF (Methane.terraform_cost co2_price h2_price) =
    SF64mul
      (SF64add
         (SF64mul (Prim2SF co2_price) (S754_finite false 6169931489497580 (-51)))
         (SF64mul (Prim2SF h2_price) (S754_finite false 4521614025879978 (-54))))
      (S754_finite false 5381801554707743 (-52)).
Proof.
  split; [reflexivity |].
  unfold Methane.terraform_cost.
  rewrite mul_spec, add_spec, !mul_spec.
  destruct methane_literals_binary64 as (H1 & H2 & H3 & _).
  now rewrite H1, H2, H3.
Qed.

(** [78/1000] is the float [0.078]. *)
Lemma sample_co2_price (w : world) :
  truediv (Py.of_int 78) (Py.of_int 1000) w = (Ret 0.078%float, w).
Proof. reflexivity. Qed.

(** C2, as stated, fails: the sample invocation does return
    [(0.078*2.74 + 0.89*0.251)*1.195], but that value is not 0.5108 to four
    decimal places; it is not even within 0.005 of 0.5108. *)
Lemma res1_is_not_0_5108 :
  ~ (exists r : float,
        fst (Methane.res1 []) = Ret r /\
        r = ((0.078 * 2.74 + 0.89 * 0.251) * 1.195)%float /\
        Py.approx 2 (5108 # 10000) r = true).
Proof.
  intros (r & Hr & _ & Happrox). vm_compute in Hr. injection Hr as <-.
  vm_compute in Happrox. discriminate.
Qed.

(** C2, amended. The sample invocation [terraform_cost(78/1000, 0.89)]
    returns [(0.078*2.74 + 0.89*0.251)*1.195], which is 0.5223 to four
    decimal places, and prints it. *)
Theorem res1_value (w : world) :
  exists r : float,
    Methane.res1 w = (Ret r, w ++ [Print [Repr r]]) /\
    r = ((0.078 * 2.74 + 0.89 * 0.251) * 1.195)%float /\
    Py.approx 4 (5223 # 10000) r = true.
Proof.
  exists (Methane.terraform_cost 0.078 0.89). split; [| split].
  - apply (stateless_run _ _ _ stateless_res1). reflexivity.
  - reflexivity.
  - vm_compute. reflexivity.
Qed.

(** ** Binary64 rounding is monotone *)

Section Rounding.

Local Open Scope Z_scope.

Lemma iter_pos_nat {A} (f : A -> A) (p : positive) (x : A) :
  SpecFloat.iter_pos f p x = Nat.iter (Pos.to_nat p) f x.
Proof.
  revert x. induction p as [p IH | p IH |]; intros x; cbn [SpecFloat.iter_pos].
  - rewrite !IH, Pos2Nat.inj_xI, Nat.iter_succ_r.
    replace (2 * Pos.to_nat p)%nat with (Pos.to_nat p + Pos.to_nat p)%nat by lia.
    now rewrite Nat.iter_add.
  - rewrite !IH, Pos2Nat.inj_xO.
    replace (2 * Pos.to_nat p)%nat with (Pos.to_nat p + Pos.to_nat p)%nat by lia.
    now rewrite Nat.iter_add.
  - reflexivity.
Qed.

Lemma digits2_pos_bounds (p : positive) :
  2 ^ (Z.pos (digits2_pos p) - 1) <= Z.pos p < 2 ^ Z.pos (digits2_pos p).
Proof.
  induction p as [p IH | p IH |]; simpl digits2_pos.
  - rewrite Pos2Z.inj_succ.
    replace (Z.succ (Z.pos (digits2_pos p)) - 1) with (Z.succ (Z.pos (digits2_pos p) - 1)) by lia.
    rewrite !Z.pow_succ_r by lia. lia.
  - rewrite Pos2Z.inj_succ.
    replace (Z.succ (Z.pos (digits2_pos p)) - 1) with (Z.succ (Z.pos (digits2_pos p) - 1)) by lia.
    rewrite !Z.pow_succ_r by lia. lia.
  - simpl. lia.
Qed.

(** [digits2_pos] is monotone. *)
Lemma digits2_pos_mono (p q : positive) :
  Z.pos p <= Z.pos q -> Z.pos (digits2_pos p) <= Z.pos (digits2_pos q).
Proof.
  intros Hpq.
  destruct (digits2_pos_bounds p) as [Hp _]. destruct (digits2_pos_bounds q) as [_ Hq].
  destruct (Z_lt_le_dec (Z.pos (digits2_pos q)) (Z.pos (digits2_pos p))) as [Hlt |]; [| assumption].
  exfalso.
  assert (2 ^ Z.pos (digits2_pos q) <= 2 ^ (Z.pos (digits2_pos p) - 1))
    by (apply Z.pow_le_mono_r; lia).
  lia.
Qed.

(** A bound on the value gives a bound on the number of digits. *)
Lemma digits2_pos_le (p : positive) (d : Z) :
  0 <= d -> Z.pos p < 2 ^ d -> Z.pos (digits2_pos p) <= d.
Proof.
  intros Hd Hp. destruct (digits2_pos_bounds p) as [Hlo _].
  destruct (Z_lt_le_dec d (Z.pos (digits2_pos p))) as [Hlt |]; [| assumption].
  exfalso.
  assert (2 ^ d <= 2 ^ (Z.pos (digits2_pos p) - 1)) by (apply Z.pow_le_mono_r; lia).
  lia.
Qed.

Lemma digits2_pos_ge (p : positive) (d : Z) :
  2 ^ (d - 1) <= Z.pos p -> d <= Z.pos (digits2_pos p).
Proof.
  intros Hp. destruct (digits2_pos_bounds p) as [_ Hhi].
  destruct (Z_lt_le_dec (Z.pos (digits2_pos p)) d) as [Hlt |]; [| assumption].
  exfalso.
  assert (2 ^ Z.pos (digits2_pos p) <= 2 ^ (d - 1)) by (apply Z.pow_le_mono_r; lia).
  lia.
Qed.

(** *** One shift *)

Lemma shr_1_m (r : shr_record) : 0 <= shr_m r -> shr_m (shr_1 r) = shr_m r / 2.
Proof.
  destruct r as [m rb sb]; cbn [shr_m]. intros Hm.
  destruct m as [| [p | p |] | p]; cbn [shr_1 shr_m]; try lia.
  - reflexivity.
  - rewrite Pos2Z.inj_xI. apply Z.div_unique with (r := 1); lia.
  - rewrite Pos2Z.inj_xO. apply Z.div_unique with (r := 0); lia.
  - reflexivity.
Qed.

Lemma shr_1_key_mono (a b : shr_record) :
  0 <= shr_m a -> rec_key a <= rec_key b -> rec_key (shr_1 a) <= rec_key (shr_1 b).
Proof.
  destruct a as [ma ra sa], b as [mb rb sb]. unfold rec_key; simpl. intros Ha Hab.
  assert (Hb : 0 <= mb) by (destruct ra, sa, rb, sb; lia).
  destruct ma as [| [p | p |] | p]; try lia;
    destruct mb as [| [q | q |] | q]; try lia;
    destruct ra, sa, rb, sb; simpl; lia.
Qed.

Lemma shr_1_nonneg (a : shr_record) : 0 <= shr_m a -> 0 <= shr_m (shr_1 a).
Proof. intros H. rewrite shr_1_m by assumption. apply Z.div_pos; lia. Qed.

Lemma iter_shr_nonneg (n : nat) (a : shr_record) :
  0 <= shr_m a -> 0 <= shr_m (iter_shr n a).
Proof.
  intros H. unfold iter_shr. apply Nat.iter_invariant; [| assumption].
  intros x. apply shr_1_nonneg.
Qed.

Lemma iter_shr_m (n : nat) (a : shr_record) :
  0 <= shr_m a -> shr_m (iter_shr n a) = shr_m a / 2 ^ Z.of_nat n.
Proof.
  intros Ha. induction n as [| n IH].
  - simpl. now rewrite Z.div_1_r.
  - unfold iter_shr in *. rewrite Nat.iter_succ.
    rewrite shr_1_m by (apply (iter_shr_nonneg n a Ha)).
    rewrite IH. rewrite Nat2Z.inj_succ, Z.pow_succ_r by lia.
    rewrite Z.div_div by lia. f_equal. lia.
Qed.

Lemma iter_shr_key_mono (n : nat) (a b : shr_record) :
  0 <= shr_m a -> rec_key a <= rec_key b ->
  rec_key (iter_shr n a) <= rec_key (iter_shr n b).
Proof.
  intros Ha Hab. induction n as [| n IH]; [assumption |].
  unfold iter_shr in *. rewrite !Nat.iter_succ.
  apply shr_1_key_mono; [apply (iter_shr_nonneg n a Ha) | assumption].
Qed.

(** Shifting out the zeros that were shifted in gives the record back. *)
Lemma iter_shr_shifted (k : nat) (M : Z) :
  0 <= M -> iter_shr k (Build_shr_record (M * 2 ^ Z.of_nat k) false false) = Build_shr_record M false false.
Proof.
  intros HM. induction k as [| k IH].
  - simpl. f_equal. lia.
  - unfold iter_shr in *. rewrite Nat.iter_succ_r.
    rewrite Nat2Z.inj_succ, Z.pow_succ_r by lia.
    replace (M * (2 * 2 ^ Z.of_nat k)) with (2 * (M * 2 ^ Z.of_nat k)) by lia.
    rewrite <- IH. f_equal.
    now destruct (M * 2 ^ Z.of_nat k).
Qed.

(** *** Rounding a record *)

Lemma rne_bounds (r : shr_record) : shr_m r <= rne r <= shr_m r + 1.
Proof.
  destruct r as [m [|] [|]]; unfold rne; simpl; try lia.
  destruct (Z.even m); lia.
Qed.

Lemma rne_mono (a b : shr_record) : rec_key a <= rec_key b -> rne a <= rne b.
Proof.
  destruct a as [ma ra sa], b as [mb rb sb]. unfold rec_key, rne; simpl. intros Hab.
  destruct (Z.eq_dec ma mb) as [-> | Hne].
  - destruct ra, sa, rb, sb; simpl; try lia; destruct (Z.even mb); lia.
  - assert (ma + 1 <= mb) by (destruct ra, sa, rb, sb; lia).
    destruct ra, sa, rb, sb; simpl; try lia;
      repeat match goal with |- context [Z.even ?m] => destruct (Z.even m) end; lia.
Qed.

(** *** The result of rounding *)

Lemma fexp_eq (e : Z) : fexp prec emax e = Z.max (e - 53) (-1074).
Proof. reflexivity. Qed.

Lemma target_eq (M : positive) (E : Z) :
  target M E = Z.max (Z.pos (digits2_pos M) + E - 53) (-1074).
Proof. reflexivity. Qed.

Lemma shr_nonpos (mrs : shr_record) (e n : Z) : n <= 0 -> shr mrs e n = (mrs, e).
Proof. intros Hn. destruct n; try reflexivity. lia. Qed.

Lemma shr_iter (mrs : shr_record) (e n : Z) :
  0 <= n -> shr mrs e n = (iter_shr (Z.to_nat n) mrs, e + n).
Proof.
  intros Hn. destruct n as [| p | p]; try lia.
  - simpl. now rewrite Z.add_0_r.
  - unfold shr. now rewrite iter_pos_nat.
Qed.

Lemma Rnd_finish (M : positive) (E : Z) :
  E <= target M E ->
  Rnd M E = finish (iter_shr (Z.to_nat (target M E - E))
                      (Build_shr_record (Z.pos M) false false)) (target M E).
Proof.
  intros Ht. unfold Rnd, binary_round_aux.
  unfold shr_fexp at 1. cbn [Zdigits2 shr_record_of_loc].
  fold (target M E). rewrite shr_iter by lia.
  replace (E + (target M E - E)) with (target M E) by lia.
  reflexivity.
Qed.

Lemma finish_fin (r : shr_record) (t : Z) :
  -1074 <= t -> 0 <= rne r <= 2 ^ 53 -> finish r t = fin (rne r) t.
Proof.
  intros Ht Hr. unfold finish, fin, shr_fexp.
  destruct (rne r) as [| p | p] eqn:Hp; try lia.
  - cbn [Zdigits2 shr_record_of_loc]. rewrite shr_nonpos; [reflexivity |].
    rewrite fexp_eq. lia.
  - cbn [Zdigits2 shr_record_of_loc].
    destruct (Z.ltb_spec (Z.pos p) (2 ^ 53)) as [Hlt | Hge].
    + rewrite shr_nonpos.
      * cbn [shr_m Z.eqb]. reflexivity.
      * rewrite fexp_eq. pose proof (digits2_pos_le p 53 ltac:(lia) Hlt). lia.
    + assert (Hp53 : p = Z.to_pos (2 ^ 53)) by lia. subst p.
      change (Z.pos (digits2_pos (Z.to_pos (2 ^ 53)))) with 54.
      rewrite fexp_eq. replace (Z.max (54 + t - 53) (-1074) - t) with 1 by lia.
      reflexivity.
Qed.

Lemma rnd_int_bounds (M : positive) (n : Z) :
  0 <= n ->
  Z.pos M / 2 ^ n <= rnd_int M n <= Z.pos M / 2 ^ n + 1.
Proof.
  intros Hn. unfold rnd_int.
  pose proof (rne_bounds (iter_shr (Z.to_nat n) (Build_shr_record (Z.pos M) false false))) as H.
  rewrite iter_shr_m in H by (simpl; lia). simpl shr_m in H.
  now rewrite Z2Nat.id in H by lia.
Qed.

(** After the shift to the target exponent the rounded mantissa has at most
    53 bits, or is 2^53. *)
Lemma rnd_int_range (M : positive) (E : Z) :
  E <= target M E -> 0 <= rnd_int M (target M E - E) <= 2 ^ 53.
Proof.
  intros Ht. pose proof (rnd_int_bounds M (target M E - E) ltac:(lia)) as H.
  assert (H0 : 0 <= Z.pos M / 2 ^ (target M E - E)) by (apply Z.div_pos; lia).
  assert (Hlt : Z.pos M / 2 ^ (target M E - E) < 2 ^ 53).
  { apply Z.div_lt_upper_bound; [lia |].
    rewrite <- Z.pow_add_r by lia.
    destruct (digits2_pos_bounds M) as [_ Hhi].
    eapply Z.lt_le_trans; [exact Hhi |].
    apply Z.pow_le_mono_r; [lia |]. rewrite target_eq. lia. }
  lia.
Qed.

(** Above the smallest exponent the rounded mantissa has its leading bit. *)
Lemma rnd_int_normal (M : positive) (E : Z) :
  E <= target M E -> -1074 < target M E -> 2 ^ 52 <= rnd_int M (target M E - E).
Proof.
  intros Ht Hn. pose proof (rnd_int_bounds M (target M E - E) ltac:(lia)) as H.
  assert (Hge : 2 ^ 52 <= Z.pos M / 2 ^ (target M E - E)).
  { apply Z.div_le_lower_bound; [lia |].
    rewrite <- Z.pow_add_r by lia.
    destruct (digits2_pos_bounds M) as [Hlo _].
    eapply Z.le_trans; [| exact Hlo].
    apply Z.pow_le_mono_r; [lia |]. rewrite target_eq in *. lia. }
  lia.
Qed.

Lemma Rnd_fin (M : positive) (E : Z) :
  E <= target M E -> Rnd M E = fin (rnd_int M (target M E - E)) (target M E).
Proof.
  intros Ht. rewrite Rnd_finish by assumption.
  apply finish_fin; [rewrite target_eq; lia | now apply rnd_int_range].
Qed.

(** Rounding does not see trailing zeros moved into the exponent. *)
Lemma Rnd_shift (M M' : positive) (E k : Z) :
  0 <= k -> E <= target M E -> Z.pos M' = Z.pos M * 2 ^ k -> Rnd M' (E - k) = Rnd M E.
Proof.
  intros Hk Ht HM'.
  assert (Hd : Z.pos (digits2_pos M') = Z.pos (digits2_pos M) + k).
  { destruct (digits2_pos_bounds M) as [Hlo Hhi].
    apply Z.le_antisymm.
    - apply digits2_pos_le; [lia |]. rewrite HM', Z.pow_add_r by lia.
      apply Z.mul_lt_mono_pos_r; lia.
    - apply digits2_pos_ge. rewrite HM'.
      replace (Z.pos (digits2_pos M) + k - 1) with (Z.pos (digits2_pos M) - 1 + k) by lia.
      rewrite Z.pow_add_r by lia. apply Z.mul_le_mono_nonneg_r; lia. }
  assert (Htt : target M' (E - k) = target M E).
  { rewrite !target_eq, Hd. f_equal. lia. }
  rewrite !Rnd_fin by (rewrite ?Htt; lia).
  rewrite Htt. f_equal. unfold rnd_int. f_equal.
  replace (Z.to_nat (target M E - (E - k)))
    with (Z.to_nat (target M E - E) + Z.to_nat k)%nat by lia.
  unfold iter_shr. rewrite Nat.iter_add. f_equal.
  rewrite HM'. pose proof (iter_shr_shifted (Z.to_nat k) (Z.pos M) ltac:(lia)) as Hs.
  rewrite Z2Nat.id in Hs by lia. exact Hs.
Qed.

(** *** Order *)

Lemma SFleb_finite (m1 m2 : positive) (e1 e2 : Z) :
  e1 < e2 \/ (e1 = e2 /\ Z.pos m1 <= Z.pos m2) ->
  SFleb (S754_finite false m1 e1) (S754_finite false m2 e2) = true.
Proof.
  intros H. unfold SFleb, SFcompare.
  destruct (Z.compare_spec e1 e2) as [Heq | Hlt | Hgt]; try reflexivity; try lia.
  change (Pos.compare_cont Eq m1 m2) with (Pos.compare m1 m2).
  destruct (Pos.compare_spec m1 m2); try reflexivity. lia.
Qed.

Lemma SFleb_finite_inv (m1 m2 : positive) (e1 e2 : Z) :
  SFleb (S754_finite false m1 e1) (S754_finite false m2 e2) = true ->
  e1 < e2 \/ (e1 = e2 /\ Z.pos m1 <= Z.pos m2).
Proof.
  unfold SFleb, SFcompare.
  destruct (Z.compare_spec e1 e2) as [Heq | Hlt | Hgt]; try discriminate; try lia.
  change (Pos.compare_cont Eq m1 m2) with (Pos.compare m1 m2).
  destruct (Pos.compare_spec m1 m2); try discriminate; lia.
Qed.

Lemma fin_le (r1 t1 r2 t2 : Z) :
  0 <= r1 <= 2 ^ 53 -> 0 <= r2 <= 2 ^ 53 ->
  (t1 = t2 /\ r1 <= r2) \/ (t1 < t2 /\ 2 ^ 52 <= r2) ->
  SFleb (fin r1 t1) (fin r2 t2) = true.
Proof.
  intros H1 H2 H. unfold fin.
  destruct (Z.eqb_spec r1 0) as [-> | Hr1].
  - destruct (r2 =? 0), (r2 <? 2 ^ 53), (t2 <=? 971), (t2 + 1 <=? 971); reflexivity.
  - destruct (Z.eqb_spec r2 0) as [-> | Hr2]; [lia |].
    destruct (Z.ltb_spec r1 (2 ^ 53)), (Z.ltb_spec r2 (2 ^ 53)),
      (Z.leb_spec t1 971), (Z.leb_spec t2 971),
      (Z.leb_spec (t1 + 1) 971), (Z.leb_spec (t2 + 1) 971);
      try reflexivity; try lia;
      apply SFleb_finite; rewrite ?Z2Pos.id by lia; lia.
Qed.

Lemma target_mono (M1 M2 : positive) (E : Z) :
  Z.pos M1 <= Z.pos M2 -> target M1 E <= target M2 E.
Proof.
  intros H. rewrite !target_eq. pose proof (digits2_pos_mono M1 M2 H). lia.
Qed.

(** Rounding is monotone. *)
Lemma Rnd_mono (M1 M2 : positive) (E : Z) :
  E <= -1074 -> Z.pos M1 <= Z.pos M2 -> SFleb (Rnd M1 E) (Rnd M2 E) = true.
Proof.
  intros HE HM.
  assert (Ht1 : E <= target M1 E) by (rewrite target_eq; lia).
  assert (Ht2 : E <= target M2 E) by (rewrite target_eq; lia).
  rewrite !Rnd_fin by assumption.
  apply fin_le; try now apply rnd_int_range.
  pose proof (target_mono M1 M2 E HM) as Ht.
  destruct (Z.eq_dec (target M1 E) (target M2 E)) as [Heq | Hne].
  - left. split; [assumption |]. rewrite Heq. unfold rnd_int.
    apply rne_mono, iter_shr_key_mono; [simpl; lia |].
    unfold rec_key; simpl. lia.
  - right. split; [lia |]. apply rnd_int_normal; [assumption |].
    pose proof (target_eq M1 E). lia.
Qed.

(** *** Valid non-negative floats *)

Lemma bounded_inv (m : positive) (e : Z) :
  bounded prec emax m e = true ->
  target m e = e /\ -1074 <= e <= 971 /\ Z.pos m < 2 ^ 53 /\
  (-1074 < e -> 2 ^ 52 <= Z.pos m).
Proof.
  unfold bounded, canonical_mantissa. intros H.
  apply andb_prop in H as [Hc He].
  apply Z.eqb_eq in Hc. apply Z.leb_le in He. fold (target m e) in Hc.
  change (emax - prec) with 971 in He.
  pose proof (target_eq m e) as Ht. destruct (digits2_pos_bounds m) as [Hlo Hhi].
  repeat split; try lia.
  - eapply Z.lt_le_trans; [exact Hhi |]. apply Z.pow_le_mono_r; lia.
  - intros Hn. eapply Z.le_trans; [| exact Hlo]. apply Z.pow_le_mono_r; lia.
Qed.

(** Rounding leaves a representable value alone. *)
Lemma Rnd_bounded (m : positive) (e : Z) :
  bounded prec emax m e = true -> Rnd m e = S754_finite false m e.
Proof.
  intros Hb. destruct (bounded_inv m e Hb) as (Ht & He & Hm & _).
  rewrite Rnd_fin by lia. rewrite Ht, Z.sub_diag.
  change (rnd_int m 0) with (Z.pos m). unfold fin.
  change (Z.pos m =? 0) with false. cbv iota.
  destruct (Z.ltb_spec (Z.pos m) (2 ^ 53)); [| lia].
  destruct (Z.leb_spec e 971); [reflexivity | lia].
Qed.

Lemma Rnd_nonneg (M : positive) (E : Z) : E <= target M E -> nonneg (Rnd M E) = true.
Proof.
  intros Ht. rewrite Rnd_fin by assumption. unfold fin.
  repeat match goal with |- context [if ?b then _ else _] => destruct b end; reflexivity.
Qed.

(** The order of valid positive floats is the order of their values. *)
Lemma SFleb_val (m m' : positive) (e e' : Z) :
  bounded prec emax m e = true -> bounded prec emax m' e' = true ->
  SFleb (S754_finite false m e) (S754_finite false m' e') = true ->
  Z.pos m * 2 ^ (e + 1074) <= Z.pos m' * 2 ^ (e' + 1074).
Proof.
  intros Hb Hb' Hle.
  destruct (bounded_inv m e Hb) as (_ & He & Hm & _).
  destruct (bounded_inv m' e' Hb') as (_ & He' & _ & Hn').
  apply SFleb_finite_inv in Hle as [Hlt | [-> Hmm]].
  - specialize (Hn' ltac:(lia)).
    apply Z.le_trans with (2 ^ 53 * 2 ^ (e + 1074)).
    + apply Z.mul_le_mono_nonneg_r; lia.
    + apply Z.le_trans with (2 ^ 52 * 2 ^ (e' + 1074)).
      * rewrite <- !Z.pow_add_r by lia. apply Z.pow_le_mono_r; lia.
      * apply Z.mul_le_mono_nonneg_r; lia.
  - apply Z.mul_le_mono_nonneg_r; lia.
Qed.

Lemma RndZ_mono (v v' E : Z) :
  E <= -1074 -> 0 < v <= v' -> SFleb (RndZ v E) (RndZ v' E) = true.
Proof. intros HE Hv. apply Rnd_mono; [assumption |]. rewrite !Z2Pos.id; lia. Qed.

Lemma RndZ_nonneg (v E : Z) : E <= -1074 -> nonneg (RndZ v E) = true.
Proof. intros HE. apply Rnd_nonneg. rewrite target_eq. lia. Qed.

Lemma Rnd_low (M : positive) (E E0 : Z) :
  E0 <= E -> E <= target M E -> Rnd M E = RndZ (Z.pos M * 2 ^ (E - E0)) E0.
Proof.
  intros H0 Ht. unfold RndZ. symmetry.
  replace E0 with (E - (E - E0)) at 2 by lia.
  apply Rnd_shift; [lia | assumption |].
  rewrite Z2Pos.id; [reflexivity |]. apply Z.mul_pos_pos; lia.
Qed.

(** *** Multiplication by a positive normal constant *)

Lemma SFmul_finite (mx mc : positive) (ex ec : Z) :
  bounded prec emax mx ex = true ->
  normal_pos (S754_finite false mc ec) = true ->
  SFmul prec emax (S754_finite false mx ex) (S754_finite false mc ec) =
    RndZ (val (S754_finite false mx ex) * val (S754_finite false mc ec)) (-2148).
Proof.
  intros Hx Hc. unfold normal_pos in Hc. apply andb_prop in Hc as [Hc Hd].
  apply Z.eqb_eq in Hd.
  destruct (bounded_inv mx ex Hx) as (_ & Hex & _ & _).
  destruct (bounded_inv mc ec Hc) as (_ & Hec & _ & _).
  unfold SFmul. cbn [xorb]. fold (Rnd (mx * mc) (ex + ec)).
  rewrite (Rnd_low _ _ (-2148)).
  - f_equal. unfold val. rewrite Pos2Z.inj_mul.
    replace (ex + ec - -2148) with ((ex + 1074) + (ec + 1074)) by lia.
    rewrite Z.pow_add_r by lia. ring.
  - lia.
  - rewrite target_eq.
    assert (53 <= Z.pos (digits2_pos (mx * mc))); [| lia].
    apply digits2_pos_ge. rewrite Pos2Z.inj_mul.
    destruct (digits2_pos_bounds mc) as [Hlo _]. rewrite Hd in Hlo.
    apply Z.le_trans with (1 * Z.pos mc); [lia |].
    apply Z.mul_le_mono_nonneg_r; lia.
Qed.

Lemma val_pos (m : positive) (e : Z) : -1074 <= e -> 0 < val (S754_finite false m e).
Proof. intros He. unfold val. apply Z.mul_pos_pos; [lia |]. apply Z.pow_pos_nonneg; lia. Qed.

Lemma SFleb_zero_l (s : bool) (x : spec_float) :
  nonneg x = true -> SFleb (S754_zero s) x = true.
Proof. destruct x as [| [|] | | [|] ? ?]; intros H; try discriminate; reflexivity. Qed.

Lemma SFleb_inf_r (x : spec_float) :
  nonneg x = true -> SFleb x (S754_infinity false) = true.
Proof. destruct x as [| [|] | | [|] ? ?]; intros H; try discriminate; reflexivity. Qed.

Lemma SFmul_mono (x x' c : spec_float) :
  valid_binary x = true -> valid_binary x' = true ->
  nonneg x = true -> nonneg x' = true -> normal_pos c = true ->
  SFleb x x' = true ->
  SFleb (SFmul prec emax x c) (SFmul prec emax x' c) = true.
Proof.
  intros Hvx Hvx' Hx Hx' Hc Hle.
  destruct c as [| | | [|] mc ec]; try discriminate.
  assert (Hvc : 0 < val (S754_finite false mc ec)).
  { unfold normal_pos in Hc. apply andb_prop in Hc as [Hc _].
    apply val_pos. now destruct (bounded_inv mc ec Hc) as (_ & ? & _). }
  destruct x as [sx | [|] | | [|] mx ex]; try discriminate;
    destruct x' as [sx' | [|] | | [|] mx' ex']; try discriminate;
    simpl in Hvx, Hvx';
    rewrite ?SFmul_finite by assumption; cbn [SFmul xorb];
    try reflexivity;
    try (apply SFleb_zero_l, RndZ_nonneg; lia);
    try (apply SFleb_inf_r, RndZ_nonneg; lia).
  apply RndZ_mono; [lia |].
  pose proof (SFleb_val mx mx' ex ex' Hvx Hvx' Hle) as Hv.
  assert (0 < val (S754_finite false mx ex))
    by (apply val_pos; now destruct (bounded_inv mx ex Hvx) as (_ & ? & _)).
  split; [now apply Z.mul_pos_pos |].
  apply Z.mul_le_mono_nonneg_r; [lia | exact Hv].
Qed.

Lemma SFmul_nonneg (x c : spec_float) :
  valid_binary x = true -> nonneg x = true -> normal_pos c = true ->
  nonneg (SFmul prec emax x c) = true.
Proof.
  intros Hvx Hx Hc.
  destruct c as [| | | [|] mc ec]; try discriminate.
  destruct x as [sx | [|] | | [|] mx ex]; try discriminate; simpl in Hvx;
    rewrite ?SFmul_finite by assumption; cbn [SFmul xorb]; try reflexivity.
  apply RndZ_nonneg. lia.
Qed.

(** *** Addition *)

Lemma digits2_pos_shift (M M' : positive) (k : Z) :
  0 <= k -> Z.pos M' = Z.pos M * 2 ^ k ->
  Z.pos (digits2_pos M') = Z.pos (digits2_pos M) + k.
Proof.
  intros Hk HM'. destruct (digits2_pos_bounds M) as [Hlo Hhi].
  apply Z.le_antisymm.
  - apply digits2_pos_le; [lia |]. rewrite HM', Z.pow_add_r by lia.
    apply Z.mul_lt_mono_pos_r; lia.
  - apply digits2_pos_ge. rewrite HM'.
    replace (Z.pos (digits2_pos M) + k - 1) with (Z.pos (digits2_pos M) - 1 + k) by lia.
    rewrite Z.pow_add_r by lia. apply Z.mul_le_mono_nonneg_r; lia.
Qed.

Lemma shl_align_spec (m : positive) (e e' : Z) :
  e' <= e -> Z.pos (fst (shl_align m e e')) = Z.pos m * 2 ^ (e - e') /\
             snd (shl_align m e e') = e'.
Proof.
  intros He. unfold shl_align.
  destruct (e' - e) as [| d | d] eqn:Hd; try lia.
  - simpl. replace (e - e') with 0 by lia. split; lia.
  - simpl. replace (e - e') with (Z.pos d) by lia.
    change (Pos.iter xO m d) with (shift_pos d m).
    rewrite shift_pos_correct. split; [| reflexivity].
    replace (Z.pow_pos 2 d) with (2 ^ Z.pos d) by reflexivity. lia.
Qed.

Lemma shl_align_id (m : positive) (e e' : Z) : e <= e' -> shl_align m e e' = (m, e).
Proof. intros He. unfold shl_align. destruct (e' - e) eqn:Hd; try reflexivity. lia. Qed.

Lemma binary_round_low (s : positive) (e : Z) :
  -1074 <= e ->
  binary_round prec emax false s e = RndZ (Z.pos s * 2 ^ (e + 1074)) (-1074).
Proof.
  intros He. unfold binary_round. fold (target s e).
  destruct (Z_lt_le_dec (target s e) e) as [Hlt | Hge].
  - destruct (shl_align_spec s e (target s e) ltac:(lia)) as [Hm Hs].
    destruct (shl_align s e (target s e)) as [mz ez]. simpl in Hm, Hs. subst ez.
    fold (Rnd mz (target s e)).
    pose proof (digits2_pos_shift s mz (e - target s e) ltac:(lia) Hm) as Hd.
    assert (Ht : target mz (target s e) = target s e).
    { rewrite (target_eq mz), Hd. pose proof (target_eq s e). lia. }
    assert (Hlow : -1074 <= target s e) by (rewrite target_eq; lia).
    rewrite (Rnd_low _ _ (-1074)) by lia.
    rewrite Hm, <- Z.mul_assoc, <- Z.pow_add_r by lia.
    now replace (e - target s e + (target s e - -1074)) with (e + 1074) by lia.
  - rewrite shl_align_id by assumption. fold (Rnd s e).
    rewrite (Rnd_low _ _ (-1074)) by lia.
    now replace (e - -1074) with (e + 1074) by lia.
Qed.

Lemma SFadd_finite (mx my : positive) (ex ey : Z) :
  bounded prec emax mx ex = true -> bounded prec emax my ey = true ->
  SFadd prec emax (S754_finite false mx ex) (S754_finite false my ey) =
    RndZ (val (S754_finite false mx ex) + val (S754_finite false my ey)) (-1074).
Proof.
  intros Hx Hy.
  destruct (bounded_inv mx ex Hx) as (_ & Hex & _ & _).
  destruct (bounded_inv my ey Hy) as (_ & Hey & _ & _).
  unfold SFadd, cond_Zopp.
  destruct (shl_align_spec mx ex (Z.min ex ey) ltac:(lia)) as [Hmx _].
  destruct (shl_align_spec my ey (Z.min ex ey) ltac:(lia)) as [Hmy _].
  rewrite <- Pos2Z.inj_add. unfold binary_normalize.
  rewrite binary_round_low by lia. f_equal.
  rewrite Pos2Z.inj_add, Hmx, Hmy. unfold val.
  rewrite Z.mul_add_distr_r, <- !Z.mul_assoc, <- !Z.pow_add_r by lia.
  replace (ex - Z.min ex ey + (Z.min ex ey + 1074)) with (ex + 1074) by lia.
  now replace (ey - Z.min ex ey + (Z.min ex ey + 1074)) with (ey + 1074) by lia.
Qed.

Lemma finite_is_RndZ (m : positive) (e : Z) :
  bounded prec emax m e = true ->
  S754_finite false m e = RndZ (val (S754_finite false m e)) (-1074).
Proof.
  intros Hb. destruct (bounded_inv m e Hb) as (Ht & He & _ & _).
  unfold val. rewrite <- (Rnd_bounded m e Hb).
  rewrite (Rnd_low m e (-1074)) by lia.
  now replace (e - -1074) with (e + 1074) by lia.
Qed.

Lemma SFleb_refl_nonneg (x : spec_float) : nonneg x = true -> SFleb x x = true.
Proof.
  destruct x as [| [|] | | [|] m e]; intros H; try discriminate; try reflexivity.
  apply SFleb_finite. right. split; lia.
Qed.

Lemma SFadd_mono_l (x x' y : spec_float) :
  valid_binary x = true -> valid_binary x' = true -> valid_binary y = true ->
  nonneg x = true -> nonneg x' = true -> nonneg y = true ->
  SFleb x x' = true ->
  SFleb (SFadd prec emax x y) (SFadd prec emax x' y) = true.
Proof.
  intros Hvx Hvx' Hvy Hx Hx' Hy Hle.
  destruct y as [sy | [|] | | [|] my ey]; try discriminate;
    destruct x as [sx | [|] | | [|] mx ex]; try discriminate;
    destruct x' as [sx' | [|] | | [|] mx' ex']; try discriminate;
    simpl in Hvx, Hvx', Hvy;
    rewrite ?SFadd_finite by assumption; cbn [SFadd];
    try reflexivity; try assumption;
    try (apply SFleb_inf_r, RndZ_nonneg; lia);
    try (apply SFleb_refl_nonneg; reflexivity);
    try (destruct sx, sy; reflexivity);
    try (destruct sx, sx', sy; reflexivity).
  - rewrite (finite_is_RndZ my ey Hvy) at 1.
    apply RndZ_mono; [lia |].
    pose proof (val_pos my ey ltac:(now destruct (bounded_inv my ey Hvy) as (_ & ? & _))).
    pose proof (val_pos mx' ex' ltac:(now destruct (bounded_inv mx' ex' Hvx') as (_ & ? & _))).
    lia.
  - apply RndZ_mono; [lia |].
    pose proof (SFleb_val mx mx' ex ex' Hvx Hvx' Hle) as Hv. unfold val in *.
    pose proof (val_pos my ey ltac:(now destruct (bounded_inv my ey Hvy) as (_ & ? & _))).
    pose proof (val_pos mx ex ltac:(now destruct (bounded_inv mx ex Hvx) as (_ & ? & _))).
    unfold val in *. lia.
Qed.

Lemma SFadd_comm_nonneg (x y : spec_float) :
  valid_binary x = true -> valid_binary y = true ->
  nonneg x = true -> nonneg y = true ->
  SFadd prec emax x y = SFadd prec emax y x.
Proof.
  intros Hvx Hvy Hx Hy.
  destruct x as [sx | [|] | | [|] mx ex]; try discriminate;
    destruct y as [sy | [|] | | [|] my ey]; try discriminate;
    simpl in Hvx, Hvy; rewrite ?SFadd_finite by assumption;
    try reflexivity.
  - now destruct sx, sy.
  - now rewrite Z.add_comm.
Qed.

Lemma SFadd_nonneg (x y : spec_float) :
  valid_binary x = true -> valid_binary y = true ->
  nonneg x = true -> nonneg y = true ->
  nonneg (SFadd prec emax x y) = true.
Proof.
  intros Hvx Hvy Hx Hy.
  destruct x as [sx | [|] | | [|] mx ex]; try discriminate;
    destruct y as [sy | [|] | | [|] my ey]; try discriminate;
    simpl in Hvx, Hvy; rewrite ?SFadd_finite by assumption;
    try reflexivity.
  - now destruct sx, sy.
  - apply RndZ_nonneg. lia.
Qed.

(** *** Primitive floats *)

Lemma nonneg_of_leb (x : float) : (0 <=? x)%float = true -> nonneg (Prim2SF x) = true.
Proof.
  rewrite leb_spec. change (Prim2SF 0) with (S754_zero false).
  now destruct (Prim2SF x) as [| [|] | | [|] ? ?].
Qed.

Lemma leb_of_nonneg (x : float) : nonneg (Prim2SF x) = true -> (0 <=? x)%float = true.
Proof. intros H. rewrite leb_spec. now apply SFleb_zero_l. Qed.

Lemma nonneg_above (x x' : spec_float) :
  nonneg x = true -> SFleb x x' = true -> nonneg x' = true.
Proof.
  destruct x as [| [|] | | [|] ? ?]; try discriminate;
    destruct x' as [| [|] | | [|] ? ?]; try discriminate; reflexivity.
Qed.

Section FloatOrder.

Variable c : float.
Hypothesis c_normal : normal_pos (Prim2SF c) = true.

Lemma mul_nonneg (a : float) :
  (0 <=? a)%float = true -> (0 <=? a * c)%float = true.
Proof.
  intros Ha. apply leb_of_nonneg. rewrite mul_spec.
  apply SFmul_nonneg; [apply Prim2SF_valid | now apply nonneg_of_leb | exact c_normal].
Qed.

Lemma mul_mono (a a' : float) :
  (0 <=? a)%float = true -> (a <=? a')%float = true -> (a * c <=? a' * c)%float = true.
Proof.
  intros Ha Hle. rewrite leb_spec in Hle. rewrite leb_spec, !mul_spec.
  pose proof (nonneg_of_leb a Ha) as Hn.
  apply SFmul_mono; try apply Prim2SF_valid; try assumption.
  now apply (nonneg_above (Prim2SF a)).
Qed.

End FloatOrder.

Lemma add_nonneg (x y : float) :
  (0 <=? x)%float = true -> (0 <=? y)%float = true -> (0 <=? x + y)%float = true.
Proof.
  intros Hx Hy. apply leb_of_nonneg. rewrite add_spec.
  apply SFadd_nonneg; try apply Prim2SF_valid; now apply nonneg_of_leb.
Qed.

Lemma add_mono_l (x x' y : float) :
  (0 <=? x)%float = true -> (0 <=? y)%float = true -> (x <=? x')%float = true ->
  (x + y <=? x' + y)%float = true.
Proof.
  intros Hx Hy Hle. rewrite leb_spec in Hle. rewrite leb_spec, !add_spec.
  pose proof (nonneg_of_leb x Hx) as Hn.
  apply SFadd_mono_l; try apply Prim2SF_valid; try assumption.
  - now apply (nonneg_above (Prim2SF x)).
  - now apply nonneg_of_leb.
Qed.

Lemma add_mono_r (x y y' : float) :
  (0 <=? x)%float = true -> (0 <=? y)%float = true -> (y <=? y')%float = true ->
  (x + y <=? x + y')%float = true.
Proof.
  intros Hx Hy Hle.
  assert (Hy' : (0 <=? y')%float = true).
  { apply leb_of_nonneg. rewrite leb_spec in Hle.
    exact (nonneg_above _ _ (nonneg_of_leb y Hy) Hle). }
  pose proof (add_mono_l y y' x Hy Hx Hle) as H.
  rewrite leb_spec, !add_spec in H. rewrite leb_spec, !add_spec. unfold SF64add in *.
  rewrite (SFadd_comm_nonneg (Prim2SF x) (Prim2SF y)),
          (SFadd_comm_nonneg (Prim2SF x) (Prim2SF y'));
    try apply Prim2SF_valid; try now apply nonneg_of_leb.
  exact H.
Qed.


Lemma constants_normal :
  normal_pos (Prim2SF 2.74) = true /\ normal_pos (Prim2SF 0.251) = true /\
  normal_pos (Prim2SF 1.195) = true.
Proof. repeat split; vm_compute; reflexivity. Qed.

End Rounding.

(** ** The grid *)

(** C5. For every cell of the grid, the cost placed in the matrix in "kcf"
    mode is the cost placed in that cell in "kg" mode multiplied by 19.17. *)
Theorem kcf_cell_is_kg_cell_times_19_17
        (x y : list float) (w : world) (i j : nat) :
  (i < length y)%nat -> (j < length x)%nat ->
  exists (Zkg Zkcf : ndarray) (c : float),
    Methane.graph_Z x y "kg" w = (Ret Zkg, w) /\
    Methane.graph_Z x y "kcf" w = (Ret Zkcf, w) /\
    item Zkg i j = Some c /\
    item Zkcf i j = Some (c * 19.17)%float.
Proof.
  intros Hi Hj.
  destruct (lookup_lt_is_Some_2 y i Hi) as [yv Hyv].
  destruct (lookup_lt_is_Some_2 x j Hj) as [xv Hxv].
  exists (cost_grid "kg" x y), (cost_grid "kcf" x y), (cell_cost "kg" xv yv).
  repeat split; try apply graph_Z_run.
  - now apply item_cost_grid.
  - now rewrite (item_cost_grid "kcf" x y i j xv yv Hxv Hyv).
Qed.

Lemma kcf_cell_is_kg_cell_times_19_17_witness :
  exists (Zkg Zkcf : ndarray) (c : float),
    Methane.graph_Z [78; 121]%float [0.89; 2.5]%float "kg" [] = (Ret Zkg, []) /\
    Methane.graph_Z [78; 121]%float [0.89; 2.5]%float "kcf" [] = (Ret Zkcf, []) /\
    item Zkg 1 0 = Some c /\
    item Zkcf 1 0 = Some (c * 19.17)%float.
Proof.
  apply (kcf_cell_is_kg_cell_times_19_17 [78; 121]%float [0.89; 2.5]%float [] 1 0);
    simpl; lia.
Defined.

(** C9. In "kg" mode the matrix has one row per H2-axis value and one
    column per CO2-axis value, and [Z[i][j]] is
    [terraform_cost(x[j] / 1000, y[i])]: the CO2-axis value is divided by
    1000 before the call. *)
Theorem graph_Z_kg_cell (x y : list float) (w : world) (i j : nat) (xv yv : float) :
  x !! j = Some xv -> y !! i = Some yv ->
  exists Z : ndarray,
    Methane.graph_Z x y "kg" w = (Ret Z, w) /\
    shape Z = (length y, length x) /\
    length (data Z) = length y /\
    item Z i j = Some (Methane.terraform_cost (xv / 1000)%float yv).
Proof.
  intros Hx Hy. exists (cost_grid "kg" x y). repeat split.
  - apply graph_Z_run.
  - unfold cost_grid; simpl. now rewrite length_map.
  - now rewrite (item_cost_grid "kg" x y i j xv yv Hx Hy).
Qed.

Lemma graph_Z_kg_cell_witness :
  exists Z : ndarray,
    Methane.graph_Z [78; 121; 164]%float [0.89; 2.5]%float "kg" [] = (Ret Z, []) /\
    shape Z = (2, 3)%nat /\
    length (data Z) = 2%nat /\
    item Z 1 2 = Some (Methane.terraform_cost (164 / 1000)%float 2.5%float).
Proof.
  apply (graph_Z_kg_cell [78; 121; 164]%float [0.89; 2.5]%float [] 1 2 164%float 2.5%float);
    reflexivity.
Defined.

(** C6. A unit selector other than "kg" and "kcf" makes [graph] raise
    [ValueError] at once, whatever the plotting library would do: the world is
    left as it was.  Every numpy call, every indexing of an array, every call
    of [terraform_cost] and every call of the plotting library that [graph]
    makes is a step recorded in the world (with a recognised unit the run
    starts with the call of [meshgrid], see [graph_starts_with_the_grid]), so
    no grid computation occurred, nothing was handed to the plotting library
    and no image file was saved. *)
Theorem graph_rejects_other_units
        (lib : library) (x y : list float) (units : string) (w : world) :
  units <> "kg" -> units <> "kcf" ->
  Methane.graph lib x y units w = (Raise (ValueError "units must be 'kg' or 'kcf'"), w) /\
  work_done (snd (Methane.graph lib x y units w)) = work_done w /\
  plot_calls (snd (Methane.graph lib x y units w)) = plot_calls w /\
  saved_files (snd (Methane.graph lib x y units w)) = saved_files w.
Proof.
  intros Hkg Hkcf.
  assert (H : Methane.graph lib x y units w =
              (Raise (ValueError "units must be 'kg' or 'kcf'"), w)).
  { unfold Methane.graph. rewrite bool_decide_eq_false_2; [reflexivity |].
    rewrite !elem_of_cons, elem_of_nil. tauto. }
  now rewrite H.
Qed.

Lemma graph_rejects_other_units_witness :
  Methane.graph accepting [78; 250]%float [0.89; 2.5]%float "lbs" [] =
    (Raise (ValueError "units must be 'kg' or 'kcf'"), []) /\
  work_done (snd (Methane.graph accepting [78; 250]%float [0.89; 2.5]%float "lbs" [])) =
    work_done [] /\
  plot_calls (snd (Methane.graph accepting [78; 250]%float [0.89; 2.5]%float "lbs" [])) =
    plot_calls [] /\
  saved_files (snd (Methane.graph accepting [78; 250]%float [0.89; 2.5]%float "lbs" [])) =
    saved_files [].
Proof.
  apply (graph_rejects_other_units accepting [78; 250]%float [0.89; 2.5]%float "lbs" []);
    discriminate.
Defined.


(** ** The greenhouse chain *)

(** The literals of the cell denote the binary64 values nearest to their
    decimal readings. *)
Lemma greenhouse_literals_nearest :
  Py.nearest (24 # 100) Greenhouse.BTU_PER_DEGREE_HOUR_PER_SQFT = true /\
  Py.nearest (293071 # 1000000000) Greenhouse.KWH_PER_BTU = true /\
  Py.nearest (15 # 10) Greenhouse.AIR_CHANGES_PER_HOUR = true /\
  Py.nearest (12 # 10) Greenhouse.INFILTRATION_FACTOR = true /\
  Py.nearest (13 # 10) Greenhouse.GREENHOUSE_EFFECT_FACTOR = true /\
  Py.nearest (85 # 100) Greenhouse.HEATING_SYSTEM_COP = true /\
  Py.nearest (25 # 10) Greenhouse.COOLING_SYSTEM_COP = true /\
  Py.nearest (4 # 100) Greenhouse.NATURAL_GAS_PER_KWH = true /\
  Py.nearest (12 # 100) Greenhouse.ELECTRICITY_PER_KWH = true /\
  Py.nearest (107639 # 10000) 10.7639%float = true /\
  Py.nearest (10000 # 1) (Py.of_int Greenhouse.TYPICAL_SQFT) = true /\
  Py.nearest (16 # 1) (Py.of_int Greenhouse.TYPICAL_HEIGHT_FT) = true.
Proof. repeat split; vm_compute; reflexivity. Qed.

(** What the cell computes and prints, from every world. *)
Lemma cell_run (w : world) :
  exists (e : Greenhouse.env) (evs : list event),
    Greenhouse.cell w = (Ret e, w ++ evs) /\
    Greenhouse.cell [] = (Ret e, evs).
Proof.
  destruct (Greenhouse.cell []) as [[e | ex] evs] eqn:H0.
  - exists e, evs. split; [| reflexivity].
    now apply (stateless_run _ _ _ stateless_cell).
  - vm_compute in H0. discriminate.
Qed.

Ltac run_cell w e evs :=
  let Hw := fresh "Hw" in
  let H0 := fresh "H0" in
  destruct (cell_run w) as (e & evs & Hw & H0);
  vm_compute in H0; injection H0 as <- <-.

(** The lines the cell prints. *)
Lemma cell_prints :
  map render (printed (snd (Greenhouse.cell []))) =
    [ "Energy Requirements per Degree Hour for 10,000 sqft greenhouse:";
      "Heating: 2.29 kWh";
      "Cooling: 1.32 kWh";
      "Energy requirements per Square Foot per degree hour:";
      "Heating: 0.0002 kWh/m²";
      "Cooling: 0.0001 kWh/m²";
      "Energy requirements per Square Meter per degree hour:";
      "Heating: 0.0025 kWh/m²";
      "Cooling: 0.0014 kWh/m²";
      (Greenhouse.newline ++ "Cost per Degree Hour:")%string;
      "Heating: $0.092";
      "Cooling: $0.158" ].
Proof. vm_compute. reflexivity. Qed.

(** C3, as stated, fails: the heating energy per degree hour is not 2.98 kWh
    to two decimal places and the heating cost is not $0.119 to three. *)
Lemma heating_is_not_2_98_kwh :
  ~ (exists e : Greenhouse.env,
        fst (Greenhouse.cell []) = Ret e /\
        Py.approx 2 (298 # 100) (Greenhouse.heatingKwhPerDegreeHour e) = true /\
        Py.approx 3 (119 # 1000) (Greenhouse.heatingCostPerDegreeHour e) = true).
Proof.
  intros (e & He & Hkwh & _). vm_compute in He. injection He as <-.
  vm_compute in Hkwh. discriminate.
Qed.

(** The gap is not one of rounding: the heating energy is more than 0.5 kWh
    away from 2.98 and the heating cost more than $0.005 away from $0.119. *)
Lemma heating_is_far_from_2_98_kwh (e : Greenhouse.env) :
  fst (Greenhouse.cell []) = Ret e ->
  Py.approx 0 (298 # 100) (Greenhouse.heatingKwhPerDegreeHour e) = false /\
  Py.approx 2 (119 # 1000) (Greenhouse.heatingCostPerDegreeHour e) = false.
Proof.
  intros He. vm_compute in He. injection He as <-. split; vm_compute; reflexivity.
Qed.

(** The figures 2.98 kWh and $0.119 are those of the chain without its
    division by [GREENHOUSE_EFFECT_FACTOR]. *)
Lemma heating_without_solar_gain (e : Greenhouse.env) :
  fst (Greenhouse.cell []) = Ret e ->
  let kwh := (Greenhouse.adjustedEnergy e / Greenhouse.HEATING_SYSTEM_COP
              * Greenhouse.KWH_PER_BTU)%float in
  Py.approx 2 (298 # 100) kwh = true /\
  Py.approx 3 (119 # 1000) (kwh * Greenhouse.NATURAL_GAS_PER_KWH)%float = true.
Proof.
  intros He. vm_compute in He. injection He as <-. split; vm_compute; reflexivity.
Qed.

(** C3, amended. The heating energy per degree hour for the 10,000 sqft
    greenhouse is 2.29 kWh to two decimal places and the heating cost per
    degree hour is $0.092 to three; the cell prints them so. *)
Theorem heating_per_degree_hour (w : world) :
  exists (e : Greenhouse.env) (evs : list event),
    Greenhouse.cell w = (Ret e, w ++ evs) /\
    Py.approx 2 (229 # 100) (Greenhouse.heatingKwhPerDegreeHour e) = true /\
    Py.approx 3 (92 # 1000) (Greenhouse.heatingCostPerDegreeHour e) = true /\
    Py.format_f 2 (Greenhouse.heatingKwhPerDegreeHour e) = "2.29" /\
    Py.format_f 3 (Greenhouse.heatingCostPerDegreeHour e) = "0.092".
Proof.
  run_cell w e evs. eexists _, _. split; [exact Hw |].
  repeat split; vm_compute; reflexivity.
Qed.

(** C4. The cooling energy per degree hour for the 10,000 sqft greenhouse is
    1.32 kWh to two decimal places and the cooling cost per degree hour is
    $0.158 to three; the cell prints them so. *)
Theorem cooling_per_degree_hour (w : world) :
  exists (e : Greenhouse.env) (evs : list event),
    Greenhouse.cell w = (Ret e, w ++ evs) /\
    Py.approx 2 (132 # 100) (Greenhouse.coolingKwhPerDegreeHour e) = true /\
    Py.approx 3 (158 # 1000) (Greenhouse.coolingCostPerDegreeHour e) = true /\
    Py.format_f 2 (Greenhouse.coolingKwhPerDegreeHour e) = "1.32" /\
    Py.format_f 3 (Greenhouse.coolingCostPerDegreeHour e) = "0.158".
Proof.
  run_cell w e evs. eexists _, _. split; [exact Hw |].
  repeat split; vm_compute; reflexivity.
Qed.

(** C10. Every divisor of the chain is a nonzero constant, so the chain
    raises no [ZeroDivisionError]: from every world the cell returns, and
    every value it derives is strictly positive. *)
Theorem greenhouse_chain_total_and_positive (w : world) :
  ((Py.of_int 8 =? 0)%float = false /\
   (Greenhouse.HEATING_SYSTEM_COP =? 0)%float = false /\
   (Greenhouse.GREENHOUSE_EFFECT_FACTOR =? 0)%float = false /\
   (Greenhouse.COOLING_SYSTEM_COP =? 0)%float = false /\
   (Py.of_int Greenhouse.TYPICAL_SQFT =? 0)%float = false) /\
  exists (e : Greenhouse.env) (evs : list event),
    Greenhouse.cell w = (Ret e, w ++ evs) /\
    Forall (fun v => (0 <? v)%float = true)
      [ Greenhouse.heatingKwhPerSqft e; Greenhouse.coolingKwhPerSqft e;
        Greenhouse.heatingKwhPerSqm e; Greenhouse.coolingKwhPerSqm e;
        Greenhouse.heatingCostPerDegreeHour e; Greenhouse.coolingCostPerDegreeHour e;
        Greenhouse.baseEnergyPerDegreeHour e; Greenhouse.volumeEffect e;
        Greenhouse.adjustedEnergy e;
        Greenhouse.heatingBtuPerDegreeHour e; Greenhouse.coolingBtuPerDegreeHour e;
        Greenhouse.heatingKwhPerDegreeHour e; Greenhouse.coolingKwhPerDegreeHour e ].
Proof.
  split; [repeat split |].
  run_cell w e evs. eexists _, _. split; [exact Hw |].
  repeat constructor.
Qed.

(** ** Determinism *)

Ltac reads_only_step :=
  first [ apply reads_only_bind; [| intros ?]
        | apply reads_only_for_range; intros ? ?
        | apply reads_only_global; solve [repeat constructor]
        | apply reads_only_stateless; solve [repeat stateless_step]
        | match goal with |- reads_only _ (if ?b then _ else _) => destruct b end ].

(** The grid part of [graph] reads the world through [CH4_KG_PER_KCF] at
    most. *)
Lemma reads_only_graph_Z_traced (x y : list float) (units : string) :
  reads_only ["CH4_KG_PER_KCF"] (Methane.graph_Z_traced x y units).
Proof.
  unfold Methane.graph_Z_traced, Methane.graph_Z_cell_traced, Methane.terraform_cost_call,
    np.meshgrid_traced, np.zeros_like_traced, np.getitem_traced, np.setitem_traced.
  repeat reads_only_step.
Qed.

(** In "kg" mode it reads nothing of the world. *)
Lemma reads_nothing_graph_Z_traced_kg (x y : list float) :
  reads_only [] (Methane.graph_Z_traced x y "kg").
Proof.
  unfold Methane.graph_Z_traced, Methane.graph_Z_cell_traced, Methane.terraform_cost_call,
    np.meshgrid_traced, np.zeros_like_traced, np.getitem_traced, np.setitem_traced.
  cbn [String.eqb Ascii.eqb Bool.eqb].
  repeat reads_only_step.
Qed.

(** A call of a plotting library whose verdicts do not depend on the world
    reads nothing of the world. *)
Lemma reads_only_plot (names : list string) (lib : library) (c : plot_call) :
  (forall (w w' : world) (c : plot_call), lib w c = lib w' c) ->
  reads_only names (plot lib c).
Proof.
  intros Hlib w1 w2 _. unfold same_run, plot. rewrite (Hlib w1 w2 c).
  destruct (lib w2 c); simpl; (split; [reflexivity |]).
  - exists []. now rewrite !app_nil_r.
  - now exists [Plot c].
Qed.

(** With such a library the whole of [graph] reads the world through
    [CH4_KG_PER_KCF] at most. *)
Lemma reads_only_graph (lib : library) (x y : list float) (units : string) :
  (forall (w w' : world) (c : plot_call), lib w c = lib w' c) ->
  reads_only ["CH4_KG_PER_KCF"] (Methane.graph lib x y units).
Proof.
  intros Hlib. unfold Methane.graph.
  destruct (negb _); [apply reads_only_stateless, stateless_raise |].
  apply reads_only_bind; [apply reads_only_graph_Z_traced | intros XYZ]. cbv zeta.
  unfold Methane.graph_labels, np.getitem_traced.
  repeat first [ apply reads_only_plot; exact Hlib | reads_only_step ].
Qed.

Lemma stateless_terraform_cost_call (co2 h2 : float) :
  stateless (Methane.terraform_cost_call co2 h2).
Proof. unfold Methane.terraform_cost_call. repeat stateless_step. Qed.

Ltac run_step :=
  first [ apply runs_from_emit
        | eapply runs_from_bind;
          [ first [ apply runs_from_emit
                  | apply runs_from_global; vm_compute; reflexivity
                  | apply runs_from_truediv; vm_compute; reflexivity ]
          | cbn [app] ] ].

(** The greenhouse cell binds every name before it reads it: whatever the
    world held before, it ends the same way and adds the same events. *)
Lemma stateless_cell_on_globals : stateless Greenhouse.cell_on_globals.
Proof.
  assert (H : exists evs, runs_from [] Greenhouse.cell_on_globals (Ret tt) evs).
  { eexists. unfold Greenhouse.cell_on_globals, assign. repeat run_step. }
  destruct H as (evs & H). exists (Ret tt), evs. now apply runs_from_start.
Qed.

(** Reading a global name is not stateless: a computation that reads a name
    it has not bound itself depends on the world it starts from. *)
Lemma global_is_not_stateless : ~ stateless (global "CH4_KG_PER_KCF").
Proof.
  intros (r & evs & H).
  pose proof (H []) as H0. pose proof (H [Assign "CH4_KG_PER_KCF" 19.17%float]) as H1.
  unfold global in H0, H1. cbn in H0, H1. congruence.
Qed.

(** The "kcf" grid does depend on the binding of [CH4_KG_PER_KCF]. *)
Lemma kcf_grid_depends_on_CH4 :
  fst (Methane.graph_Z_traced [78]%float [0.89]%float "kcf"
         [Assign "CH4_KG_PER_KCF" 19.17%float]) <>
  fst (Methane.graph_Z_traced [78]%float [0.89]%float "kcf"
         [Assign "CH4_KG_PER_KCF" 20%float]).
Proof.
  intros H.
  apply (f_equal (fun r : outcome (ndarray * ndarray * ndarray) =>
                    match r with
                    | Ret (_, _, Z) =>
                        match item Z 0 0 with
                        | Some v => (v <? 10.2)%float
                        | None => false
                        end
                    | Raise _ => false
                    end)) in H.
  vm_compute in H. discriminate.
Qed.

(** C8. The computations are deterministic and stateless.  The world holds
    everything a run could depend on: the bindings of the global names, the
    lines printed, the steps taken and the calls made.  Two invocations of
    the methane cost function from any two worlds return the same cost; two
    evaluations of the grid from two worlds that bind the constant
    [CH4_KG_PER_KCF] alike fill the same matrix by the same steps (in "kg"
    mode from any two worlds), and so do two runs of the whole of [graph]
    when the plotting library keeps no state of its own; two runs of the
    greenhouse chain, which binds each of its constants before it uses it,
    from any two worlds print the same lines and bind the same values. *)
Theorem notebooks_are_deterministic :
  (forall (co2 h2 : float) (w1 w2 : world),
      same_run (Methane.terraform_cost_call co2 h2) w1 w2) /\
  (forall w1 w2 : world, same_run Methane.res1 w1 w2) /\
  (forall (x y : list float) (units : string) (w1 w2 : world),
      lookup_global "CH4_KG_PER_KCF" w1 = lookup_global "CH4_KG_PER_KCF" w2 ->
      same_run (Methane.graph_Z_traced x y units) w1 w2) /\
  (forall (x y : list float) (w1 w2 : world),
      same_run (Methane.graph_Z_traced x y "kg") w1 w2) /\
  (forall (lib : library) (x y : list float) (units : string) (w1 w2 : world),
      (forall (w w' : world) (c : plot_call), lib w c = lib w' c) ->
      lookup_global "CH4_KG_PER_KCF" w1 = lookup_global "CH4_KG_PER_KCF" w2 ->
      same_run (Methane.graph lib x y units) w1 w2) /\
  (forall w1 w2 : world, same_run Greenhouse.cell_on_globals w1 w2).
Proof.
  assert (Hagree : forall w1 w2 : world,
             lookup_global "CH4_KG_PER_KCF" w1 = lookup_global "CH4_KG_PER_KCF" w2 ->
             agree_on ["CH4_KG_PER_KCF"] w1 w2).
  { intros w1 w2 H n Hn. apply elem_of_cons in Hn as [-> | Hn]; [exact H |].
    now apply elem_of_nil in Hn. }
  split; [| split; [| split; [| split; [| split]]]].
  - intros co2 h2 w1 w2. apply same_run_of_stateless, stateless_terraform_cost_call.
  - intros w1 w2. apply same_run_of_stateless, stateless_res1.
  - intros x y units w1 w2 H. now apply reads_only_graph_Z_traced, Hagree.
  - intros x y w1 w2. apply reads_nothing_graph_Z_traced_kg.
    intros n Hn. now apply elem_of_nil in Hn.
  - intros lib x y units w1 w2 Hlib H. now apply reads_only_graph, Hagree.
  - intros w1 w2. apply same_run_of_stateless, stateless_cell_on_globals.
Qed.

Lemma notebooks_are_deterministic_witness :
  same_run (Methane.graph_Z_traced [78; 250]%float [0.89; 2.5]%float "kcf")
    [Assign "CH4_KG_PER_KCF" 19.17%float]
    [Print [Lit "before"]; Assign "CH4_KG_PER_KCF" 19.17%float; Plot show] /\
  same_run (Methane.graph accepting [78; 250]%float [0.89; 2.5]%float "kcf")
    [Assign "CH4_KG_PER_KCF" 19.17%float]
    [Print [Lit "before"]; Assign "CH4_KG_PER_KCF" 19.17%float; Plot show].
Proof.
  destruct notebooks_are_deterministic as (_ & _ & HZ & _ & Hgraph & _).
  split.
  - apply (HZ [78; 250]%float [0.89; 2.5]%float "kcf"). reflexivity.
  - apply (Hgraph accepting [78; 250]%float [0.89; 2.5]%float "kcf"); reflexivity.
Defined.

(** * Further properties *)

(** ** Binary64 division is monotone *)

Section Division.

Local Open Scope Z_scope.

Lemma Zdigits2_nonneg (q : Z) : 0 <= q -> 0 <= Zdigits2 q.
Proof. destruct q; simpl; lia. Qed.

Lemma Zdigits2_bounds (q : Z) :
  0 < q -> 2 ^ (Zdigits2 q - 1) <= q < 2 ^ Zdigits2 q.
Proof. destruct q as [| p | p]; try lia. intros _. apply digits2_pos_bounds. Qed.

Lemma Zdigits2_le (q d : Z) : 0 <= q -> 0 <= d -> q < 2 ^ d -> Zdigits2 q <= d.
Proof.
  destruct q as [| p | p]; try lia; intros _ Hd Hq; simpl; [lia |].
  now apply digits2_pos_le.
Qed.

Lemma Zdigits2_ge (q d : Z) : 0 < q -> 2 ^ (d - 1) <= q -> d <= Zdigits2 q.
Proof.
  destruct q as [| p | p]; try lia; intros _ Hq; simpl. now apply digits2_pos_ge.
Qed.

Lemma Zdigits2_mono (q q' : Z) : 0 <= q <= q' -> Zdigits2 q <= Zdigits2 q'.
Proof.
  intros [H0 Hq]. destruct (Z.eq_dec q 0) as [-> | Hne].
  - simpl. apply Zdigits2_nonneg. lia.
  - apply Zdigits2_ge; [lia |].
    destruct (Zdigits2_bounds q ltac:(lia)) as [Hlo _]. lia.
Qed.

Lemma shr_1_bits (r : shr_record) :
  0 <= shr_m r ->
  shr_r (shr_1 r) = Z.odd (shr_m r) /\ shr_s (shr_1 r) = shr_r r || shr_s r.
Proof.
  destruct r as [m rb sb]; cbn [shr_m shr_r shr_s]. intros Hm.
  destruct m as [| [p | p |] | p]; try lia; split; reflexivity.
Qed.

Lemma shr_record_eq (a b : shr_record) :
  shr_m a = shr_m b -> shr_r a = shr_r b -> shr_s a = shr_s b -> a = b.
Proof. destruct a, b; simpl; intros -> -> ->; reflexivity. Qed.

Lemma enc_shr_1 (num den : Z) :
  0 <= num -> 0 < den -> shr_1 (enc num den) = enc num (2 * den).
Proof.
  intros Hn Hd.
  assert (Hq : 0 <= num / den) by (apply Z.div_pos; lia).
  pose proof (Z.mod_pos_bound num den Hd) as Hr.
  pose proof (Z.div_mod num den ltac:(lia)) as Hdm.
  pose proof (Z.mod_pos_bound (num / den) 2 ltac:(lia)) as Hb.
  pose proof (Z.div_mod (num / den) 2 ltac:(lia)) as Hq2.
  assert (Hdiv : num / (2 * den) = num / den / 2).
  { rewrite Z.mul_comm. now rewrite Z.div_div by lia. }
  assert (Hmod : num mod (2 * den) = num mod den + den * ((num / den) mod 2)).
  { symmetry. apply Z.mod_unique with (q := num / den / 2); nia. }
  destruct (shr_1_bits (enc num den) Hq) as [Hrb Hsb].
  apply shr_record_eq.
  - rewrite shr_1_m by exact Hq. unfold enc; cbn [shr_m]. now rewrite Hdiv.
  - rewrite Hrb. unfold enc; cbn [shr_m shr_r]. rewrite Hmod.
    rewrite <- Z.negb_even, Zeven_mod.
    destruct (Z.eqb_spec ((num / den) mod 2) 0) as [H0 | H1]; simpl.
    + rewrite H0. symmetry. apply Z.leb_gt. lia.
    + symmetry. apply Z.leb_le. nia.
  - rewrite Hsb. unfold enc; cbn [shr_r shr_s]. rewrite Hmod.
    destruct (Z.eqb_spec ((num / den) mod 2) 0) as [H0 | H1].
    + rewrite H0, Z.mul_0_r, Z.add_0_r.
      destruct (Z.leb_spec den (2 * (num mod den))),
        (Z.eqb_spec (num mod den) 0), (Z.eqb_spec (2 * (num mod den)) den),
        (Z.eqb_spec (2 * (num mod den)) (2 * den)); simpl; try reflexivity; lia.
    + assert (Hone : (num / den) mod 2 = 1) by lia. rewrite Hone, Z.mul_1_r.
      destruct (Z.leb_spec den (2 * (num mod den))),
        (Z.eqb_spec (num mod den) 0), (Z.eqb_spec (2 * (num mod den)) den),
        (Z.eqb_spec (num mod den + den) 0),
        (Z.eqb_spec (2 * (num mod den + den)) (2 * den)); simpl; try reflexivity; lia.
Qed.

Lemma iter_shr_enc (k : nat) (num den : Z) :
  0 <= num -> 0 < den -> iter_shr k (enc num den) = enc num (den * 2 ^ Z.of_nat k).
Proof.
  intros Hn Hd. induction k as [| k IH].
  - simpl. now rewrite Z.mul_1_r.
  - unfold iter_shr in *. rewrite Nat.iter_succ, IH.
    rewrite enc_shr_1 by (try apply Z.mul_pos_pos; lia).
    rewrite Nat2Z.inj_succ, Z.pow_succ_r by lia. f_equal. lia.
Qed.

Lemma enc_key_mono (num num' den : Z) :
  0 < den -> 0 <= num <= num' -> rec_key (enc num den) <= rec_key (enc num' den).
Proof.
  intros Hd [H0 Hle]. unfold rec_key, enc; cbn [shr_m shr_r shr_s].
  pose proof (Z.mod_pos_bound num den Hd) as Hr.
  pose proof (Z.mod_pos_bound num' den Hd) as Hr'.
  pose proof (Z.div_mod num den ltac:(lia)) as Hdm.
  pose proof (Z.div_mod num' den ltac:(lia)) as Hdm'.
  pose proof (Z.div_le_mono num num' den Hd Hle) as Hq.
  destruct (Z.eq_dec (num / den) (num' / den)) as [Heq | Hne].
  - rewrite Heq in *. assert (num mod den <= num' mod den) by lia.
    destruct (Z.leb_spec den (2 * (num mod den))), (Z.leb_spec den (2 * (num' mod den))),
      (Z.eqb_spec (num mod den) 0), (Z.eqb_spec (num' mod den) 0),
      (Z.eqb_spec (2 * (num mod den)) den), (Z.eqb_spec (2 * (num' mod den)) den);
      simpl; lia.
  - destruct (den <=? 2 * (num mod den)), (negb (num mod den =? 0) && negb (2 * (num mod den) =? den)),
      (den <=? 2 * (num' mod den)), (negb (num' mod den =? 0) && negb (2 * (num' mod den) =? den)); lia.
Qed.

Lemma enc_scale (num den c : Z) :
  0 < den -> 0 < c -> enc (num * c) (den * c) = enc num den.
Proof.
  intros Hd Hc. unfold enc.
  rewrite Z.div_mul_cancel_r by lia. rewrite Z.mul_mod_distr_r by lia.
  apply shr_record_eq; cbn [shr_m shr_r shr_s].
  - reflexivity.
  - destruct (Z.leb_spec (den * c) (2 * (num mod den * c))), (Z.leb_spec den (2 * (num mod den)));
      try reflexivity; nia.
  - destruct (Z.eqb_spec (num mod den * c) 0), (Z.eqb_spec (num mod den) 0),
      (Z.eqb_spec (2 * (num mod den * c)) (den * c)), (Z.eqb_spec (2 * (num mod den)) den);
      simpl; try reflexivity; nia.
Qed.


Lemma record_of_new_location (q m2 r : Z) :
  0 <= r < m2 ->
  shr_record_of_loc q (new_location m2 r) =
    Build_shr_record q (m2 <=? 2 * r) (negb (r =? 0) && negb (2 * r =? m2)).
Proof.
  intros Hr. unfold new_location, new_location_even, new_location_odd.
  destruct (Z.even m2) eqn:Hev.
  - destruct (Z.eqb_spec r 0) as [Hr0 | Hr0]; cbn [negb andb shr_record_of_loc].
    + destruct (Z.leb_spec m2 (2 * r)); [lia | reflexivity].
    + destruct (Z.compare_spec (2 * r) m2), (Z.leb_spec m2 (2 * r)), (Z.eqb_spec (2 * r) m2);
        simpl; try reflexivity; lia.
  - assert (Hodd : 2 * r <> m2).
    { intros <-. rewrite Z.even_mul in Hev. discriminate. }
    destruct (Z.eqb_spec r 0) as [Hr0 | Hr0]; cbn [negb andb shr_record_of_loc].
    + destruct (Z.leb_spec m2 (2 * r)); [lia | reflexivity].
    + destruct (Z.compare_spec (2 * r + 1) m2), (Z.leb_spec m2 (2 * r)), (Z.eqb_spec (2 * r) m2);
        simpl; try reflexivity; lia.
Qed.

(** [binary_round_aux] on a quotient and the location of its remainder rounds
    the rational. *)
Lemma binary_round_aux_RndQ (num den E : Z) :
  0 <= num -> 0 < den -> E <= targetQ num den E ->
  binary_round_aux prec emax false (num / den) E (new_location den (num mod den)) =
    RndQ num den E.
Proof.
  intros Hn Hd Ht. unfold binary_round_aux.
  unfold shr_fexp at 1. fold (targetQ num den E).
  rewrite record_of_new_location by (apply Z.mod_pos_bound; lia).
  fold (enc num den). rewrite shr_iter by lia.
  rewrite iter_shr_enc by lia. rewrite Z2Nat.id by lia.
  replace (E + (targetQ num den E - E)) with (targetQ num den E) by lia.
  reflexivity.
Qed.

Lemma targetQ_eq (num den E : Z) :
  targetQ num den E = Z.max (Zdigits2 (num / den) + E - 53) (-1074).
Proof. reflexivity. Qed.

(** The digits of a quotient of at least one grow with the numerator's
    scale. *)
Lemma Zdigits2_scaled (A B k : Z) :
  0 < B -> 0 <= k -> 1 <= A / B -> Zdigits2 (A * 2 ^ k / B) = Zdigits2 (A / B) + k.
Proof.
  intros HB Hk Hq.
  destruct (Zdigits2_bounds (A / B) ltac:(lia)) as [Hlo Hhi].
  assert (Hp : 0 < 2 ^ k) by (apply Z.pow_pos_nonneg; lia).
  assert (HA : 0 <= A).
  { destruct (Z_lt_le_dec A 0) as [Hneg |]; [| assumption].
    pose proof (Z.div_lt_upper_bound A B 0 HB ltac:(lia)). lia. }
  pose proof (Zdigits2_ge (A / B) 1 ltac:(lia) ltac:(simpl; lia)) as Hd0.
  apply Z.le_antisymm.
  - apply Zdigits2_le.
    + apply Z.div_pos; [nia | lia].
    + lia.
    + apply Z.div_lt_upper_bound; [lia |].
      rewrite Z.pow_add_r by lia.
      assert (A < B * 2 ^ Zdigits2 (A / B)).
      { pose proof (Z.mul_succ_div_gt A B HB). nia. }
      rewrite Z.mul_assoc. apply Z.mul_lt_mono_pos_r; lia.
  - assert (Hge : 2 ^ (Zdigits2 (A / B) + k - 1) <= A * 2 ^ k / B).
    { apply Z.div_le_lower_bound; [lia |].
      replace (Zdigits2 (A / B) + k - 1) with (Zdigits2 (A / B) - 1 + k) by lia.
      rewrite Z.pow_add_r by lia.
      pose proof (Z.mul_div_le A B HB).
      assert (B * 2 ^ (Zdigits2 (A / B) - 1) <= A) by nia.
      rewrite Z.mul_assoc. apply Z.mul_le_mono_nonneg_r; lia. }
    apply Zdigits2_ge; [| exact Hge].
    assert (0 < 2 ^ (Zdigits2 (A / B) + k - 1)) by (apply Z.pow_pos_nonneg; lia). lia.
Qed.

(** Rounding does not see a power of two moved from the numerator into the
    exponent. *)
Lemma RndQ_shift (num den E k : Z) :
  0 <= num -> 0 < den -> 0 <= k -> E <= targetQ num den E ->
  RndQ (num * 2 ^ k) den (E - k) = RndQ num den E.
Proof.
  intros Hn Hd Hk Ht.
  assert (Hp : 0 < 2 ^ k) by (apply Z.pow_pos_nonneg; lia).
  assert (Htt : targetQ (num * 2 ^ k) den (E - k) = targetQ num den E).
  { rewrite !targetQ_eq. rewrite targetQ_eq in Ht.
    destruct (Z_lt_le_dec (num / den) 1) as [Hlt | Hge].
    - assert (Hq0 : num / den = 0) by (pose proof (Z.div_pos num den Hn Hd); lia).
      rewrite Hq0 in *. simpl Zdigits2 in *.
      assert (Zdigits2 (num * 2 ^ k / den) <= k).
      { apply Zdigits2_le; [apply Z.div_pos; nia | lia |].
        apply Z.div_lt_upper_bound; [lia |].
        apply Z.div_small_iff in Hq0; [| lia]. nia. }
      lia.
    - rewrite Zdigits2_scaled by lia. f_equal. lia. }
  unfold RndQ. rewrite Htt. f_equal.
  replace (targetQ num den E - (E - k)) with (targetQ num den E - E + k) by lia.
  rewrite Z.pow_add_r by lia. rewrite Z.mul_assoc.
  apply enc_scale; [| lia].
  apply Z.mul_pos_pos; [lia |]. apply Z.pow_pos_nonneg; lia.
Qed.

Lemma rne_enc_bounds (num den : Z) :
  num / den <= rne (enc num den) <= num / den + 1.
Proof. apply (rne_bounds (enc num den)). Qed.

Lemma RndQ_int_range (num den E : Z) :
  0 <= num -> 0 < den -> E <= targetQ num den E ->
  0 <= rne (enc num (den * 2 ^ (targetQ num den E - E))) <= 2 ^ 53.
Proof.
  intros Hn Hd Ht.
  set (n := targetQ num den E - E).
  assert (Hp : 0 < 2 ^ n) by (apply Z.pow_pos_nonneg; lia).
  pose proof (rne_enc_bounds num (den * 2 ^ n)) as Hb.
  rewrite <- Z.div_div in Hb by lia.
  assert (Hq : 0 <= num / den) by (apply Z.div_pos; lia).
  assert (H0 : 0 <= num / den / 2 ^ n) by (apply Z.div_pos; lia).
  assert (Hlt : num / den / 2 ^ n < 2 ^ 53).
  { apply Z.div_lt_upper_bound; [lia |]. rewrite <- Z.pow_add_r by lia.
    destruct (Z.eq_dec (num / den) 0) as [H | H].
    - rewrite H. apply Z.pow_pos_nonneg; lia.
    - destruct (Zdigits2_bounds (num / den) ltac:(lia)) as [_ Hhi].
      eapply Z.lt_le_trans; [exact Hhi |].
      apply Z.pow_le_mono_r; [lia |]. unfold n. rewrite targetQ_eq. lia. }
  lia.
Qed.

Lemma RndQ_fin (num den E : Z) :
  0 <= num -> 0 < den -> E <= targetQ num den E ->
  RndQ num den E =
    fin (rne (enc num (den * 2 ^ (targetQ num den E - E)))) (targetQ num den E).
Proof.
  intros Hn Hd Ht. unfold RndQ.
  apply finish_fin; [rewrite targetQ_eq; lia | now apply RndQ_int_range].
Qed.

Lemma RndQ_nonneg (num den E : Z) :
  0 <= num -> 0 < den -> E <= targetQ num den E -> nonneg (RndQ num den E) = true.
Proof.
  intros Hn Hd Ht. rewrite RndQ_fin by assumption. unfold fin.
  repeat match goal with |- context [if ?b then _ else _] => destruct b end; reflexivity.
Qed.

(** Rounding a rational is monotone in its numerator. *)
Lemma RndQ_mono (num num' den E : Z) :
  0 <= num <= num' -> 0 < den -> E <= -1074 ->
  SFleb (RndQ num den E) (RndQ num' den E) = true.
Proof.
  intros [Hn Hle] Hd HE.
  assert (Ht1 : E <= targetQ num den E) by (rewrite targetQ_eq; lia).
  assert (Ht2 : E <= targetQ num' den E) by (rewrite targetQ_eq; lia).
  rewrite !RndQ_fin by lia.
  apply fin_le; try (apply RndQ_int_range; lia).
  assert (Hq : 0 <= num / den <= num' / den).
  { split; [apply Z.div_pos; lia | apply Z.div_le_mono; lia]. }
  pose proof (Zdigits2_mono _ _ Hq) as Hdig.
  assert (Ht : targetQ num den E <= targetQ num' den E) by (rewrite !targetQ_eq; lia).
  destruct (Z.eq_dec (targetQ num den E) (targetQ num' den E)) as [Heq | Hne].
  - left. split; [assumption |]. rewrite Heq.
    apply rne_mono, enc_key_mono; [| lia].
    apply Z.mul_pos_pos; [lia |]. apply Z.pow_pos_nonneg; lia.
  - right. split; [lia |].
    set (n := targetQ num' den E - E).
    assert (Hp : 0 < 2 ^ n) by (apply Z.pow_pos_nonneg; lia).
    pose proof (rne_enc_bounds num' (den * 2 ^ n)) as Hb.
    rewrite <- Z.div_div in Hb by lia.
    assert (Hn' : -1074 < targetQ num' den E) by (pose proof (targetQ_eq num den E); lia).
    rewrite targetQ_eq in Hn'.
    assert (Hpos : 0 < num' / den).
    { destruct (Z.eq_dec (num' / den) 0) as [H0 | H0]; [| lia].
      rewrite H0 in Hn'. simpl in Hn'. lia. }
    destruct (Zdigits2_bounds (num' / den) Hpos) as [Hlo _].
    assert (2 ^ 52 <= num' / den / 2 ^ n); [| lia].
    apply Z.div_le_lower_bound; [lia |]. rewrite <- Z.pow_add_r by lia.
    eapply Z.le_trans; [| exact Hlo].
    apply Z.pow_le_mono_r; [lia |]. unfold n. rewrite targetQ_eq. lia.
Qed.

(** *** Division by a positive finite float *)

Lemma shift_or_keep (m s : Z) :
  0 <= s ->
  match s with Z.pos _ => Z.shiftl m s | 0 => m | Z.neg _ => 0 end = m * 2 ^ s.
Proof.
  intros Hs. destruct s as [| p | p]; try lia.
  now rewrite Z.shiftl_mul_pow2 by lia.
Qed.

Lemma SFdiv_finite (mx mc : positive) (ex ec : Z) :
  bounded prec emax mx ex = true -> bounded prec emax mc ec = true ->
  SFdiv prec emax (S754_finite false mx ex) (S754_finite false mc ec) =
    RndQ (Z.pos mx * 2 ^ (ex - ec + 2045)) (Z.pos mc) (-2045).
Proof.
  intros Hx Hc.
  destruct (bounded_inv mx ex Hx) as (_ & Hex & _ & _).
  destruct (bounded_inv mc ec Hc) as (_ & Hec & _ & _).
  unfold SFdiv, SFdiv_core_binary. cbv zeta. cbn [xorb Zdigits2].
  set (d1 := Z.pos (digits2_pos mx)). set (d2 := Z.pos (digits2_pos mc)).
  set (e' := Z.min (fexp prec emax (d1 + ex - (d2 + ec))) (ex - ec)).
  set (s := ex - ec - e').
  assert (Hs : 0 <= s) by (unfold s, e'; lia).
  set (m' := match s with Z.pos _ => Z.shiftl (Z.pos mx) s | 0 => Z.pos mx | Z.neg _ => 0 end).
  assert (Hm' : m' = Z.pos mx * 2 ^ s) by (apply shift_or_keep; exact Hs).
  assert (Hps : 0 < 2 ^ s) by (apply Z.pow_pos_nonneg; lia).
  assert (Hm'pos : 0 < m') by (rewrite Hm'; lia).
  assert (Hdiv : Z.div_eucl m' (Z.pos mc) = (m' / Z.pos mc, m' mod Z.pos mc)).
  { unfold Z.div, Z.modulo. now destruct (Z.div_eucl m' (Z.pos mc)). }
  rewrite Hdiv.
  assert (He'low : -2045 <= e') by (unfold e'; rewrite fexp_eq; lia).
  assert (Ht : e' <= targetQ m' (Z.pos mc) e').
  { rewrite targetQ_eq.
    destruct (Z_le_gt_dec e' (-1074)) as [Hle | Hgt]; [lia |].
    assert (Hfe : e' <= d1 + ex - (d2 + ec) - 53) by (unfold e' in *; rewrite fexp_eq in *; lia).
    assert (H52 : 2 ^ 52 <= m' / Z.pos mc).
    { apply Z.div_le_lower_bound; [lia |].
      destruct (digits2_pos_bounds mx) as [Hlo1 _]. fold d1 in Hlo1.
      destruct (digits2_pos_bounds mc) as [_ Hhi2]. fold d2 in Hhi2.
      rewrite Hm'.
      apply Z.le_trans with (2 ^ d2 * 2 ^ 52); [nia |].
      apply Z.le_trans with (2 ^ (d1 - 1) * 2 ^ s); [| nia].
      rewrite <- !Z.pow_add_r by (unfold d1, d2; lia).
      apply Z.pow_le_mono_r; [lia |]. unfold s. lia. }
    pose proof (Zdigits2_ge (m' / Z.pos mc) 53 ltac:(lia) H52). lia. }
  rewrite (binary_round_aux_RndQ m' (Z.pos mc) e') by lia.
  rewrite <- (RndQ_shift m' (Z.pos mc) e' (e' + 2045)) by lia.
  f_equal; [| lia].
  rewrite Hm', <- Z.mul_assoc, <- Z.pow_add_r by lia.
  f_equal. f_equal. unfold s. lia.
Qed.

Lemma scaled_nonneg (m : positive) (k : Z) : 0 <= Z.pos m * 2 ^ k.
Proof. apply Z.mul_nonneg_nonneg; [lia | apply Z.pow_nonneg; lia]. Qed.

Lemma SFdiv_low_target (num den : Z) : -2045 <= targetQ num den (-2045).
Proof. rewrite targetQ_eq. lia. Qed.

Lemma SFdiv_mono (x x' c : spec_float) :
  valid_binary x = true -> valid_binary x' = true ->
  nonneg x = true -> nonneg x' = true -> finite_pos c = true ->
  SFleb x x' = true ->
  SFleb (SFdiv prec emax x c) (SFdiv prec emax x' c) = true.
Proof.
  intros Hvx Hvx' Hx Hx' Hc Hle.
  destruct c as [| | | [|] mc ec]; try discriminate. cbn [finite_pos] in Hc.
  destruct (bounded_inv mc ec Hc) as (_ & Hec & _ & _).
  destruct x as [sx | [|] | | [|] mx ex]; try discriminate;
    destruct x' as [sx' | [|] | | [|] mx' ex']; try discriminate;
    simpl in Hvx, Hvx';
    rewrite ?SFdiv_finite by assumption; cbn [SFdiv xorb];
    try reflexivity;
    try (apply SFleb_zero_l, RndQ_nonneg;
         [apply scaled_nonneg | lia | apply SFdiv_low_target]);
    try (apply SFleb_inf_r, RndQ_nonneg;
         [apply scaled_nonneg | lia | apply SFdiv_low_target]).
  apply RndQ_mono; try lia.
  pose proof (SFleb_val mx mx' ex ex' Hvx Hvx' Hle) as Hv.
  destruct (bounded_inv mx ex Hvx) as (_ & Hex & _ & _).
  destruct (bounded_inv mx' ex' Hvx') as (_ & Hex' & _ & _).
  split; [apply scaled_nonneg |].
  replace (ex - ec + 2045) with ((ex + 1074) + (971 - ec)) by lia.
  replace (ex' - ec + 2045) with ((ex' + 1074) + (971 - ec)) by lia.
  rewrite (Z.pow_add_r 2 (ex + 1074) (971 - ec)),
          (Z.pow_add_r 2 (ex' + 1074) (971 - ec)) by lia.
  rewrite !Z.mul_assoc.
  apply Z.mul_le_mono_nonneg_r; [apply Z.pow_nonneg; lia | exact Hv].
Qed.

Lemma SFdiv_nonneg (x c : spec_float) :
  valid_binary x = true -> nonneg x = true -> finite_pos c = true ->
  nonneg (SFdiv prec emax x c) = true.
Proof.
  intros Hvx Hx Hc.
  destruct c as [| | | [|] mc ec]; try discriminate. cbn [finite_pos] in Hc.
  destruct x as [sx | [|] | | [|] mx ex]; try discriminate; simpl in Hvx;
    rewrite ?SFdiv_finite by assumption; cbn [SFdiv xorb]; try reflexivity.
  destruct (bounded_inv mc ec Hc) as (_ & Hec & _ & _).
  destruct (bounded_inv mx ex Hvx) as (_ & Hex & _ & _).
  apply RndQ_nonneg; [apply scaled_nonneg | lia | apply SFdiv_low_target].
Qed.

(** *** Order facts used on grids *)

Lemma SFleb_trans_nonneg (x y z : spec_float) :
  nonneg x = true -> SFleb x y = true -> SFleb y z = true -> SFleb x z = true.
Proof.
  intros Hx Hxy Hyz.
  destruct x as [sx | [|] | | [|] mx ex]; try discriminate;
    destruct y as [sy | [|] | | [|] my ey]; try discriminate;
    destruct z as [sz | [|] | | [|] mz ez]; try discriminate; try reflexivity.
  apply SFleb_finite_inv in Hxy, Hyz. apply SFleb_finite. lia.
Qed.

(** Multiplying by a normal constant of at least one does not lower a
    non-negative float. *)
Lemma SFmul_ge_self (x c : spec_float) :
  valid_binary x = true -> nonneg x = true -> normal_pos c = true ->
  2 ^ 1074 <= val c ->
  SFleb x (SFmul prec emax x c) = true.
Proof.
  intros Hvx Hx Hc Hone.
  destruct c as [| | | [|] mc ec]; try discriminate.
  destruct x as [sx | [|] | | [|] mx ex]; try discriminate; simpl in Hvx;
    rewrite ?SFmul_finite by assumption; cbn [SFmul xorb]; try reflexivity.
  destruct (bounded_inv mx ex Hvx) as (Ht & Hex & _ & _).
  pose proof (val_pos mx ex ltac:(lia)) as Hpos.
  rewrite <- (Rnd_bounded mx ex Hvx) at 1.
  rewrite (Rnd_low mx ex (-2148)) by lia.
  apply RndZ_mono; [lia |].
  assert (Hval : Z.pos mx * 2 ^ (ex - -2148) = val (S754_finite false mx ex) * 2 ^ 1074).
  { unfold val. replace (ex - -2148) with (ex + 1074 + 1074) by lia.
    rewrite Z.pow_add_r by lia. ring. }
  rewrite Hval. split; [lia |].
  apply Z.mul_le_mono_nonneg_l; lia.
Qed.

Section FloatDivision.

Variable c : float.
Hypothesis c_finite_pos : finite_pos (Prim2SF c) = true.

Lemma div_nonneg (a : float) :
  (0 <=? a)%float = true -> (0 <=? a / c)%float = true.
Proof.
  intros Ha. apply leb_of_nonneg. rewrite div_spec.
  apply SFdiv_nonneg; [apply Prim2SF_valid | now apply nonneg_of_leb | exact c_finite_pos].
Qed.

Lemma div_mono (a a' : float) :
  (0 <=? a)%float = true -> (a <=? a')%float = true -> (a / c <=? a' / c)%float = true.
Proof.
  intros Ha Hle. rewrite leb_spec in Hle. rewrite leb_spec, !div_spec.
  pose proof (nonneg_of_leb a Ha) as Hn.
  apply SFdiv_mono; try apply Prim2SF_valid; try assumption.
  now apply (nonneg_above (Prim2SF a)).
Qed.

End FloatDivision.

Lemma leb_trans_nonneg (a b c : float) :
  (0 <=? a)%float = true -> (a <=? b)%float = true -> (b <=? c)%float = true ->
  (a <=? c)%float = true.
Proof.
  rewrite !leb_spec. intros Ha. change (Prim2SF 0) with (S754_zero false) in Ha.
  apply SFleb_trans_nonneg.
  now destruct (Prim2SF a) as [| [|] | | [|] ? ?].
Qed.

Lemma leb_nonneg_above (a b : float) :
  (0 <=? a)%float = true -> (a <=? b)%float = true -> (0 <=? b)%float = true.
Proof. intros Ha Hab. now apply (leb_trans_nonneg 0 a b). Qed.

Lemma mul_ge_self (a c : float) :
  normal_pos (Prim2SF c) = true -> (2 ^ 1074 <=? val (Prim2SF c)) = true ->
  (0 <=? a)%float = true -> (a <=? a * c)%float = true.
Proof.
  intros Hc Hone Ha. rewrite leb_spec, mul_spec.
  apply SFmul_ge_self; [apply Prim2SF_valid | now apply nonneg_of_leb | exact Hc |].
  now apply Z.leb_le.
Qed.

Lemma thousand_finite_pos : finite_pos (Prim2SF (Py.of_int 1000)) = true.
Proof. vm_compute. reflexivity. Qed.

Lemma kcf_constant_normal :
  normal_pos (Prim2SF Methane.CH4_KG_PER_KCF) = true /\
  (2 ^ 1074 <=? val (Prim2SF Methane.CH4_KG_PER_KCF)) = true.
Proof. split; vm_compute; reflexivity. Qed.

(** The cost function is non-negative on non-negative prices. *)
Lemma terraform_cost_nonneg_aux (co2 h2 : float) :
  (0 <=? co2)%float = true -> (0 <=? h2)%float = true ->
  (0 <=? Methane.terraform_cost co2 h2)%float = true.
Proof.
  intros Hco2 Hh2. destruct constants_normal as (Hc1 & Hc2 & Hc3).
  unfold Methane.terraform_cost.
  apply mul_nonneg; [exact Hc3 |]. apply add_nonneg; now apply mul_nonneg.
Qed.

(** The cost function is non-decreasing in both prices at once. *)
Lemma terraform_cost_mono_aux (co2 co2' h2 h2' : float) :
  (0 <=? co2)%float = true -> (0 <=? h2)%float = true ->
  (co2 <=? co2')%float = true -> (h2 <=? h2')%float = true ->
  (Methane.terraform_cost co2 h2 <=? Methane.terraform_cost co2' h2')%float = true.
Proof.
  intros Hco2 Hh2 Hle_co2 Hle_h2. destruct constants_normal as (Hc1 & Hc2 & Hc3).
  pose proof (leb_nonneg_above _ _ Hco2 Hle_co2) as Hco2'.
  unfold Methane.terraform_cost.
  apply mul_mono; [exact Hc3 | |].
  - apply add_nonneg; now apply mul_nonneg.
  - apply (leb_trans_nonneg _ (co2' * 2.74 + h2 * 0.251)%float).
    + apply add_nonneg; now apply mul_nonneg.
    + apply add_mono_l; try now apply mul_nonneg. now apply mul_mono.
    + apply add_mono_r; try now apply mul_nonneg. now apply mul_mono.
Qed.

Lemma cell_cost_nonneg (units : string) (xv yv : float) :
  (0 <=? xv)%float = true -> (0 <=? yv)%float = true ->
  (0 <=? cell_cost units xv yv)%float = true.
Proof.
  intros Hx Hy. unfold cell_cost.
  pose proof (terraform_cost_nonneg_aux _ _ (div_nonneg _ thousand_finite_pos xv Hx) Hy) as H.
  destruct (String.eqb units "kcf"); [| exact H].
  apply mul_nonneg; [apply kcf_constant_normal | exact H].
Qed.

Lemma cell_cost_mono (units : string) (xv xv' yv yv' : float) :
  (0 <=? xv)%float = true -> (0 <=? yv)%float = true ->
  (xv <=? xv')%float = true -> (yv <=? yv')%float = true ->
  (cell_cost units xv yv <=? cell_cost units xv' yv')%float = true.
Proof.
  intros Hx Hy Hxx Hyy. unfold cell_cost.
  pose proof (div_nonneg _ thousand_finite_pos xv Hx) as Hd.
  pose proof (div_mono _ thousand_finite_pos xv xv' Hx Hxx) as Hdm.
  pose proof (terraform_cost_mono_aux _ _ _ _ Hd Hy Hdm Hyy) as H.
  destruct (String.eqb units "kcf"); [| exact H].
  apply mul_mono; [apply kcf_constant_normal | | exact H].
  now apply terraform_cost_nonneg_aux.
Qed.

Lemma cell_cost_kcf_ge_kg (xv yv : float) :
  (0 <=? xv)%float = true -> (0 <=? yv)%float = true ->
  (cell_cost "kg" xv yv <=? cell_cost "kcf" xv yv)%float = true.
Proof.
  intros Hx Hy. unfold cell_cost; simpl.
  apply mul_ge_self; try apply kcf_constant_normal.
  apply terraform_cost_nonneg_aux; [| exact Hy].
  now apply (div_nonneg _ thousand_finite_pos).
Qed.

End Division.

(** ** Rounding error of the cost function *)

Section RoundingError.

Local Open Scope Z_scope.








Lemma near_refl (n : nat) (X : Z) : 0 <= X -> near n X X.
Proof.
  intros HX. unfold near. split; apply Z.mul_le_mono_nonneg_r; try assumption;
    apply Z.pow_le_mono_l; lia.
Qed.


Lemma pow_of_nat_add (b : Z) (n m : nat) :
  b ^ Z.of_nat (n + m) = b ^ Z.of_nat n * b ^ Z.of_nat m.
Proof. rewrite Nat2Z.inj_add, Z.pow_add_r; lia. Qed.

Lemma near_trans (n m : nat) (X Y W : Z) :
  0 <= Y -> 0 <= W -> near n X Y -> near m Y W -> near (n + m) X W.
Proof.
  unfold near. intros HY HW [H1 H2] [H3 H4].
  rewrite !pow_of_nat_add.
  assert (0 <= (2 ^ 53 - 1) ^ Z.of_nat n) by (apply Z.pow_nonneg; lia).
  assert (0 <= (2 ^ 53 + 1) ^ Z.of_nat n) by (apply Z.pow_nonneg; lia).
  assert (0 <= (2 ^ 53) ^ Z.of_nat m) by (apply Z.pow_nonneg; lia).
  set (a := (2 ^ 53 - 1) ^ Z.of_nat n) in *. set (a' := (2 ^ 53 - 1) ^ Z.of_nat m) in *.
  set (b := (2 ^ 53) ^ Z.of_nat n) in *. set (b' := (2 ^ 53) ^ Z.of_nat m) in *.
  set (c := (2 ^ 53 + 1) ^ Z.of_nat n) in *. set (c' := (2 ^ 53 + 1) ^ Z.of_nat m) in *.
  split.
  - apply Z.le_trans with (a * (b' * Y)).
    + replace (a * a' * W) with (a * (a' * W)) by ring.
      apply Z.mul_le_mono_nonneg_l; assumption.
    + replace (a * (b' * Y)) with (b' * (a * Y)) by ring.
      replace (b * b' * X) with (b' * (b * X)) by ring.
      apply Z.mul_le_mono_nonneg_l; assumption.
  - apply Z.le_trans with (b' * (c * Y)).
    + replace (b * b' * X) with (b' * (b * X)) by ring.
      apply Z.mul_le_mono_nonneg_l; assumption.
    + replace (b' * (c * Y)) with (c * (b' * Y)) by ring.
      replace (c * c' * W) with (c * (c' * W)) by ring.
      apply Z.mul_le_mono_nonneg_l; assumption.
Qed.




Lemma near_nonneg (n : nat) (X Y : Z) : 0 <= Y -> near n X Y -> 0 <= X.
Proof.
  unfold near. intros HY [H1 _].
  assert (0 < (2 ^ 53) ^ Z.of_nat n) by (apply Z.pow_pos_nonneg; lia).
  assert (0 <= (2 ^ 53 - 1) ^ Z.of_nat n * Y)
    by (apply Z.mul_nonneg_nonneg; [apply Z.pow_nonneg |]; lia).
  nia.
Qed.


Lemma near_weaken (n m : nat) (X Y : Z) : 0 <= Y -> near n X Y -> near (n + m) X Y.
Proof.
  intros HY H. eapply near_trans; [exact HY | exact HY | exact H | now apply near_refl].
Qed.







Section Mul.

Variable c : float.
Variable kc : Z.
Hypothesis c_normal : normal_pos (Prim2SF c) = true.
Hypothesis c_between : 2 ^ kc <= val (Prim2SF c) < 2 ^ (kc + 1).
Hypothesis kc_nonneg : 0 <= kc.


End Mul.














End RoundingError.

(** ** Monotonicity and linearity of the cost function *)


(** Each of the four laws fails on floats, and by one unit in the last
    place: the two sides are neighbouring floats. *)
Lemma terraform_cost_linearity_failures :
  (Methane.terraform_cost (0.1 + 0.2) 0
     =? next_up (Methane.terraform_cost 0.1 0 + Methane.terraform_cost 0.2 0))%float = true /\
  (Methane.terraform_cost 0 (3 + 4)
     =? next_up (Methane.terraform_cost 0 3 + Methane.terraform_cost 0 4))%float = true /\
  (Methane.terraform_cost (3 * 0.1) 0
     =? next_up (3 * Methane.terraform_cost 0.1 0))%float = true /\
  (next_up (Methane.terraform_cost 0 (5 * 1))
     =? 5 * Methane.terraform_cost 0 1)%float = true.
Proof. repeat split; vm_compute; reflexivity. Qed.




(** ** The grid routine with a recognised unit *)

Lemma lookup_flat_map_rows {A B C : Type} (g : A -> B -> C) (x : list B) (y : list A)
      (i j : nat) (yv : A) (xv : B) :
  y !! i = Some yv -> x !! j = Some xv ->
  flat_map (fun yv => map (g yv) x) y !! (i * length x + j)%nat = Some (g yv xv).
Proof.
  revert i. induction y as [| y0 ys IH]; intros i Hy Hx; [discriminate |].
  destruct i as [| i]; simpl in *.
  - injection Hy as ->. rewrite lookup_app_l by (rewrite length_map; now apply lookup_lt_Some in Hx).
    now rewrite list_lookup_fmap, Hx.
  - rewrite lookup_app_r by (rewrite length_map; lia).
    rewrite length_map.
    replace (length x + i * length x + j - length x)%nat with (i * length x + j)%nat by lia.
    now apply IH.
Qed.

Lemma length_flat_map_rows {A B C : Type} (g : A -> B -> C) (x : list B) (y : list A) :
  length (flat_map (fun yv => map (g yv) x) y) = (length y * length x)%nat.
Proof.
  induction y as [| y0 ys IH]; [reflexivity |]. simpl.
  now rewrite length_app, length_map, IH.
Qed.

Lemma labels_of_rows (units : string) (x y : list float) :
  omap (fun c => match c with text x y s => Some (x, y, s) | _ => None end)
       (flat_map (fun yv => map (label_call units yv) x) y) =
    flat_map (fun yv =>
                map (fun xv => (xv, yv, ("$" ++ Py.format_f 2 (cell_cost units xv yv))%string)) x) y.
Proof.
  induction y as [| yv ys IH]; [reflexivity |]. simpl.
  rewrite omap_app, IH. f_equal.
  clear. induction x as [| xv xs IHx]; [reflexivity |]. cbn. now f_equal.
Qed.

Lemma labels_of_graph_calls (units : string) (x y : list float) :
  omap (fun c => match c with text x y s => Some (x, y, s) | _ => None end)
       (graph_calls units x y) =
    flat_map (fun yv =>
                map (fun xv => (xv, yv, ("$" ++ Py.format_f 2 (cell_cost units xv yv))%string)) x) y.
Proof.
  unfold graph_calls. rewrite !omap_app, labels_of_rows. simpl. now rewrite app_nil_r.
Qed.

Lemma files_of_rows (units : string) (x y : list float) :
  omap (fun c => match c with savefig f _ => Some f | _ => None end)
       (flat_map (fun yv => map (label_call units yv) x) y) = [].
Proof.
  induction y as [| yv ys IH]; [reflexivity |]. simpl.
  rewrite omap_app, IH, app_nil_r.
  clear. induction x as [| xv xs IHx]; [reflexivity | exact IHx].
Qed.

Lemma files_of_graph_calls (units : string) (x y : list float) :
  omap (fun c => match c with savefig f _ => Some f | _ => None end)
       (graph_calls units x y) = [("terraform_cost_" ++ units ++ ".png")%string].
Proof.
  unfold graph_calls. rewrite !omap_app, files_of_rows. reflexivity.
Qed.

Lemma accepting_accepts (calls : list plot_call) : accepts accepting calls.
Proof. intros w c _. reflexivity. Qed.

(** X1. With the unit "kg" or "kcf" (and [CH4_KG_PER_KCF] bound for "kcf"),
    and a plotting library that returns from each call, [graph] stays within
    the bounds of its arrays for axes of any lengths, returns, and has made
    exactly the calls of [graph_calls] in that order: one mesh of the cost
    grid, the axis settings, one label per square, one [savefig] and one
    [show]; that is twelve calls and one label per square. *)
Theorem graph_makes_its_calls
        (lib : library) (x y : list float) (units : string) (w : world) :
  units = "kg" \/ units = "kcf" ->
  (units = "kcf" -> CH4_bound w) ->
  accepts lib (graph_calls units x y) ->
  exists evs : list event,
    Methane.graph lib x y units w = (Ret tt, w ++ evs) /\
    plot_calls evs = graph_calls units x y /\
    length (graph_calls units x y) = (12 + length y * length x)%nat.
Proof.
  intros Hu Hch4 Hacc.
  destruct (graph_run lib x y units w Hu Hch4 Hacc) as (evs & Hrun & Hcalls & _).
  exists evs. split; [exact Hrun | split; [exact Hcalls |]].
  unfold graph_calls. rewrite !length_app, length_flat_map_rows. simpl. lia.
Qed.

Lemma graph_makes_its_calls_witness :
  exists evs : list event,
    Methane.graph accepting [78; 250]%float [0.89; 1.7; 2.5]%float "kcf"
      [Assign "CH4_KG_PER_KCF" 19.17%float] =
      (Ret tt, [Assign "CH4_KG_PER_KCF" 19.17%float] ++ evs) /\
    plot_calls evs = graph_calls "kcf" [78; 250]%float [0.89; 1.7; 2.5]%float /\
    length (graph_calls "kcf" [78; 250]%float [0.89; 1.7; 2.5]%float) = (12 + 3 * 2)%nat.
Proof.
  apply (graph_makes_its_calls accepting [78; 250]%float [0.89; 1.7; 2.5]%float "kcf"
           [Assign "CH4_KG_PER_KCF" 19.17%float]).
  - right. reflexivity.
  - intros _. reflexivity.
  - intros w c _. reflexivity.
Defined.

(** X2. A run of [graph] that returns has saved exactly one image file,
    [terraform_cost_<units>.png], after the files saved before. *)
Theorem graph_saves_its_file
        (lib : library) (x y : list float) (units : string) (w : world) :
  units = "kg" \/ units = "kcf" ->
  (units = "kcf" -> CH4_bound w) ->
  accepts lib (graph_calls units x y) ->
  fst (Methane.graph lib x y units w) = Ret tt /\
  saved_files (snd (Methane.graph lib x y units w)) =
    saved_files w ++ [("terraform_cost_" ++ units ++ ".png")%string].
Proof.
  intros Hu Hch4 Hacc.
  destruct (graph_run lib x y units w Hu Hch4 Hacc) as (evs & Hrun & Hcalls & _).
  rewrite Hrun. cbn [fst snd]. split; [reflexivity |].
  now rewrite saved_files_app, (saved_files_plot_calls evs), Hcalls, files_of_graph_calls.
Qed.

Lemma graph_saves_its_file_witness :
  fst (Methane.graph accepting [78; 250]%float [0.89; 2.5]%float "kg" []) = Ret tt /\
  saved_files (snd (Methane.graph accepting [78; 250]%float [0.89; 2.5]%float "kg" [])) =
    saved_files [] ++ ["terraform_cost_kg.png"].
Proof.
  apply (graph_saves_its_file accepting [78; 250]%float [0.89; 2.5]%float "kg" []).
  - left. reflexivity.
  - discriminate.
  - intros w c _. reflexivity.
Defined.

(** X3. The label drawn on a square is the cost stored in the matrix for
    that square: in a run of [graph] that returns, one label is drawn per
    cell, row by row, and the label of cell [(i, j)] stands at
    [(x[j], y[i])] and reads "$" followed by [Z[i][j]] to two decimal
    places. *)
Theorem graph_labels_follow_the_grid
        (lib : library) (x y : list float) (units : string) (w : world) (i j : nat)
        (xv yv : float) :
  units = "kg" \/ units = "kcf" ->
  (units = "kcf" -> CH4_bound w) ->
  accepts lib (graph_calls units x y) ->
  x !! j = Some xv -> y !! i = Some yv ->
  exists (Z : ndarray) (c : float) (L : list (float * float * string)),
    Methane.graph_Z x y units w = (Ret Z, w) /\
    item Z i j = Some c /\
    labels_drawn (snd (Methane.graph lib x y units w)) = labels_drawn w ++ L /\
    length L = (length y * length x)%nat /\
    L !! (i * length x + j)%nat = Some (xv, yv, ("$" ++ Py.format_f 2 c)%string).
Proof.
  intros Hu Hch4 Hacc Hx Hy.
  destruct (graph_run lib x y units w Hu Hch4 Hacc) as (evs & Hrun & Hcalls & _).
  exists (cost_grid units x y), (cell_cost units xv yv), (labels_drawn evs).
  split; [apply graph_Z_run |]. split; [now apply item_cost_grid |].
  rewrite Hrun. cbn [snd]. split; [apply labels_drawn_app |].
  rewrite labels_drawn_plot_calls, Hcalls, labels_of_graph_calls. split.
  - apply length_flat_map_rows.
  - exact (lookup_flat_map_rows
             (fun yv xv => (xv, yv, ("$" ++ Py.format_f 2 (cell_cost units xv yv))%string))
             x y i j yv xv Hy Hx).
Qed.

Lemma graph_labels_follow_the_grid_witness :
  exists (Z : ndarray) (c : float) (L : list (float * float * string)),
    Methane.graph_Z [78; 121; 164]%float [0.89; 2.5]%float "kg" [] = (Ret Z, []) /\
    item Z 1 2 = Some c /\
    labels_drawn (snd (Methane.graph accepting [78; 121; 164]%float [0.89; 2.5]%float "kg" [])) =
      labels_drawn [] ++ L /\
    length L = (2 * 3)%nat /\
    L !! (1 * 3 + 2)%nat = Some (164%float, 2.5%float, ("$" ++ Py.format_f 2 c)%string).
Proof.
  apply (graph_labels_follow_the_grid accepting [78; 121; 164]%float [0.89; 2.5]%float "kg"
           [] 1 2 164%float 2.5%float).
  - left. reflexivity.
  - discriminate.
  - intros w c _. reflexivity.
  - reflexivity.
  - reflexivity.
Defined.

(** X4. The notebook's two calls, for any two axes, once the first cell has
    bound [CH4_KG_PER_KCF] and with a plotting library that returns from each
    call: both return, the "kg" plot is drawn before the "kcf" plot, and
    exactly the files [terraform_cost_kg.png] and [terraform_cost_kcf.png]
    are saved, in that order, after the files saved before. *)
Theorem plots_saves_both_files (lib : library) (x y : list float) (w : world) :
  CH4_bound w ->
  accepts lib (graph_calls "kg" x y) -> accepts lib (graph_calls "kcf" x y) ->
  exists evs : list event,
    Methane.plots lib x y w = (Ret tt, w ++ evs) /\
    plot_calls evs = graph_calls "kg" x y ++ graph_calls "kcf" x y /\
    saved_files (w ++ evs) =
      saved_files w ++ ["terraform_cost_kg.png"; "terraform_cost_kcf.png"].
Proof.
  intros Hch4 Hkg Hkcf.
  destruct (graph_run lib x y "kg" w (or_introl eq_refl) (fun _ => Hch4) Hkg)
    as (evs1 & Hrun1 & Hcalls1 & Hb1).
  assert (Hch4' : CH4_bound (w ++ evs1)).
  { unfold CH4_bound. now rewrite lookup_global_after. }
  destruct (graph_run lib x y "kcf" (w ++ evs1) (or_intror eq_refl) (fun _ => Hch4') Hkcf)
    as (evs2 & Hrun2 & Hcalls2 & Hb2).
  exists (evs1 ++ evs2). split; [| split].
  - unfold Methane.plots. rewrite (bind_run _ _ _ _ _ Hrun1), Hrun2.
    now rewrite app_assoc.
  - now rewrite plot_calls_app, Hcalls1, Hcalls2.
  - rewrite !saved_files_app, (saved_files_plot_calls evs1), (saved_files_plot_calls evs2).
    now rewrite Hcalls1, Hcalls2, !files_of_graph_calls.
Qed.

Lemma plots_saves_both_files_witness :
  exists evs : list event,
    Methane.plots accepting [78; 250]%float [0.89; 2.5]%float
      [Assign "CH4_KG_PER_KCF" 19.17%float] =
      (Ret tt, [Assign "CH4_KG_PER_KCF" 19.17%float] ++ evs) /\
    plot_calls evs =
      graph_calls "kg" [78; 250]%float [0.89; 2.5]%float ++
      graph_calls "kcf" [78; 250]%float [0.89; 2.5]%float /\
    saved_files ([Assign "CH4_KG_PER_KCF" 19.17%float] ++ evs) =
      saved_files [Assign "CH4_KG_PER_KCF" 19.17%float] ++
      ["terraform_cost_kg.png"; "terraform_cost_kcf.png"].
Proof.
  apply (plots_saves_both_files accepting [78; 250]%float [0.89; 2.5]%float
           [Assign "CH4_KG_PER_KCF" 19.17%float]).
  - reflexivity.
  - intros w c _. reflexivity.
  - intros w c _. reflexivity.
Defined.

(** X11. An error of the plotting library is not caught: when the library
    returns from [subplots] and raises on the mesh (as it does for an axis
    that is empty or holds a value that is not finite), [graph] raises that
    error after the grid has been computed; no label is drawn and no image
    file is saved. *)
Theorem graph_propagates_a_refused_mesh
        (lib : library) (x y : list float) (units : string) (w : world) (e : pyexn) :
  units = "kg" \/ units = "kcf" ->
  (units = "kcf" -> CH4_bound w) ->
  (forall w' : world, lib w' subplots = None) ->
  (forall w' : world,
      lib w' (pcolormesh (fst (np.meshgrid x y)) (snd (np.meshgrid x y))
                (cost_grid units x y) "YlOrRd") = Some e) ->
  exists evs : list event,
    Methane.graph lib x y units w = (Raise e, w ++ evs) /\
    plot_calls evs = [subplots] /\
    saved_files (w ++ evs) = saved_files w /\
    labels_drawn (w ++ evs) = labels_drawn w.
Proof.
  intros Hu Hch4 Hsub Hmesh. unfold Methane.graph.
  rewrite bool_decide_eq_true_2 by (rewrite !elem_of_cons; tauto).
  cbn [negb].
  destruct (graph_Z_traced_run units x y w Hch4) as (evsZ & HwZ & HrunZ).
  rewrite (bind_run _ _ _ _ _ HrunZ). cbv zeta. cbn [fst snd].
  rewrite (bind_run _ _ _ _ _ (plot_run lib subplots _ (Hsub _))).
  rewrite (bind_raise _ _ _ _ _ (plot_raises lib _ _ e (Hmesh _))).
  assert (Hcalls : plot_calls ((Work (np_meshgrid x y) :: Work (np_zeros_like "X") :: evsZ) ++
                               [Plot subplots]) = [subplots]).
  { rewrite plot_calls_app, plot_calls_only_work; [reflexivity |].
    repeat apply only_work_cons. exact HwZ. }
  eexists. split; [rewrite <- app_assoc; reflexivity | split; [exact Hcalls |]].
  rewrite saved_files_app, labels_drawn_app.
  rewrite (saved_files_plot_calls (_ ++ [Plot subplots])).
  rewrite (labels_drawn_plot_calls (_ ++ [Plot subplots])), Hcalls. simpl.
  now rewrite !app_nil_r.
Qed.

Lemma graph_propagates_a_refused_mesh_witness :
  exists evs : list event,
    Methane.graph
      (fun _ c => match c with
                  | pcolormesh _ _ _ _ => Some (ValueError "not finite")
                  | _ => None
                  end)
      [78; infinity]%float [0.89; 2.5]%float "kg" [] =
      (Raise (ValueError "not finite"), [] ++ evs) /\
    plot_calls evs = [subplots] /\
    saved_files ([] ++ evs) = saved_files [] /\
    labels_drawn ([] ++ evs) = labels_drawn [].
Proof.
  apply (graph_propagates_a_refused_mesh
           (fun _ c => match c with
                       | pcolormesh _ _ _ _ => Some (ValueError "not finite")
                       | _ => None
                       end)
           [78; infinity]%float [0.89; 2.5]%float "kg" [] (ValueError "not finite")).
  - left. reflexivity.
  - discriminate.
  - reflexivity.
  - reflexivity.
Defined.

(** ** The greenhouse cell's output *)


(** X12. The greenhouse cell as Python runs it, on the global names: from
    every world, whatever is bound there, it returns without an error, prints
    what the chain of definitions prints, and leaves the four results bound
    to the values of the chain. *)
Theorem cell_on_globals_agrees_with_cell (w : world) :
  exists (e : Greenhouse.env) (evs evs' : list event),
    Greenhouse.cell w = (Ret e, w ++ evs) /\
    Greenhouse.cell_on_globals w = (Ret tt, w ++ evs') /\
    printed evs' = printed evs /\
    lookup_global "heatingKwhPerDegreeHour" (w ++ evs') =
      Some (Greenhouse.heatingKwhPerDegreeHour e) /\
    lookup_global "coolingKwhPerDegreeHour" (w ++ evs') =
      Some (Greenhouse.coolingKwhPerDegreeHour e) /\
    lookup_global "heatingCostPerDegreeHour" (w ++ evs') =
      Some (Greenhouse.heatingCostPerDegreeHour e) /\
    lookup_global "coolingCostPerDegreeHour" (w ++ evs') =
      Some (Greenhouse.coolingCostPerDegreeHour e).
Proof.
  destruct (cell_run w) as (e & evs & Hw & H0).
  destruct (Greenhouse.cell_on_globals []) as [r evs'] eqn:H0'.
  pose proof (stateless_run _ _ _ stateless_cell_on_globals H0' w) as Hw'.
  exists e, evs, evs'.
  vm_compute in H0. injection H0 as <- <-.
  vm_compute in H0'. injection H0' as <- <-.
  split; [exact Hw | split; [exact Hw' |]].
  rewrite !lookup_global_app.
  repeat split; vm_compute; reflexivity.
Qed.

(** X13. The grid as a run computes it, step by step and reading
    [CH4_KG_PER_KCF] from the global names, is the grid of [graph_Z]: with
    the constant bound as the first cell binds it, the run fills the same
    matrix, and everything it adds to the world is numeric steps, the first
    of them the call of [meshgrid]. *)
Theorem graph_Z_traced_agrees_with_graph_Z
        (x y : list float) (units : string) (w : world) :
  (units = "kcf" -> CH4_bound w) ->
  exists (Z : ndarray) (evs : list event),
    Methane.graph_Z x y units w = (Ret Z, w) /\
    Methane.graph_Z_traced x y units w =
      (Ret (fst (np.meshgrid x y), snd (np.meshgrid x y), Z),
       w ++ Work (np_meshgrid x y) :: evs) /\
    only_work evs.
Proof.
  intros Hch4.
  destruct (graph_Z_traced_run units x y w Hch4) as (evs & Hw & Hrun).
  exists (cost_grid units x y), (Work (np_zeros_like "X") :: evs).
  split; [apply graph_Z_run | split; [exact Hrun |]].
  now apply only_work_cons.
Qed.

Lemma graph_Z_traced_agrees_with_graph_Z_witness :
  exists (Z : ndarray) (evs : list event),
    Methane.graph_Z [78; 250]%float [0.89; 2.5]%float "kcf"
      [Assign "CH4_KG_PER_KCF" 19.17%float] =
      (Ret Z, [Assign "CH4_KG_PER_KCF" 19.17%float]) /\
    Methane.graph_Z_traced [78; 250]%float [0.89; 2.5]%float "kcf"
      [Assign "CH4_KG_PER_KCF" 19.17%float] =
      (Ret (fst (np.meshgrid [78; 250]%float [0.89; 2.5]%float),
            snd (np.meshgrid [78; 250]%float [0.89; 2.5]%float), Z),
       [Assign "CH4_KG_PER_KCF" 19.17%float] ++
       Work (np_meshgrid [78; 250]%float [0.89; 2.5]%float) :: evs) /\
    only_work evs.
Proof.
  apply (graph_Z_traced_agrees_with_graph_Z [78; 250]%float [0.89; 2.5]%float "kcf"
           [Assign "CH4_KG_PER_KCF" 19.17%float]).
  intros _. reflexivity.
Defined.

(** ** Order and exceptional values of the cost function *)

Lemma SFeqb_refl (x : spec_float) : x <> S754_nan -> SFeqb x x = true.
Proof.
  intros Hx. destruct x as [s | s | | s m e].
  - now destruct s.
  - now destruct s.
  - congruence.
  - unfold SFeqb, SFcompare.
    change (Pos.compare_cont Eq m m) with (Pos.compare m m).
    destruct s; now rewrite Z.compare_refl, Pos.compare_refl.
Qed.

Lemma is_nan_Prim2SF (x : float) : is_nan x = true <-> Prim2SF x = S754_nan.
Proof.
  unfold is_nan. rewrite FloatAxioms.eqb_spec. split.
  - intros H. destruct (Prim2SF x) eqn:Hx; try reflexivity;
      rewrite SFeqb_refl in H by discriminate; discriminate.
  - intros ->. reflexivity.
Qed.

Lemma is_nan_of_leb (x : float) : (0 <=? x)%float = true -> is_nan x = false.
Proof.
  intros H. apply nonneg_of_leb in H.
  destruct (is_nan x) eqn:Hn; [| reflexivity].
  apply is_nan_Prim2SF in Hn. rewrite Hn in H. discriminate.
Qed.

Lemma SFmul_nan_l (y : spec_float) : SFmul prec emax S754_nan y = S754_nan.
Proof. reflexivity. Qed.

Lemma SFadd_nan_l (y : spec_float) : SFadd prec emax S754_nan y = S754_nan.
Proof. reflexivity. Qed.

Lemma SFadd_nan_r (x : spec_float) : SFadd prec emax x S754_nan = S754_nan.
Proof. now destruct x as [[|] | [|] | | ]. Qed.

(** X6. On non-negative prices the cost is non-negative, and so never NaN:
    it is zero, a positive finite float, or plus infinity on overflow. *)
Theorem terraform_cost_nonneg (co2_price h2_price : float) :
  (0 <=? co2_price)%float = true -> (0 <=? h2_price)%float = true ->
  (0 <=? Methane.terraform_cost co2_price h2_price)%float = true /\
  is_nan (Methane.terraform_cost co2_price h2_price) = false.
Proof.
  intros Hco2 Hh2.
  pose proof (terraform_cost_nonneg_aux co2_price h2_price Hco2 Hh2) as H.
  split; [exact H | now apply is_nan_of_leb].
Qed.

Lemma terraform_cost_nonneg_witness :
  (0 <=? Methane.terraform_cost 0.078 0.89)%float = true /\
  is_nan (Methane.terraform_cost 0.078 0.89) = false.
Proof. apply (terraform_cost_nonneg 0.078 0.89); reflexivity. Defined.

(** X7. The cost function validates nothing: a NaN price, in either
    argument, gives a NaN cost. *)
Theorem terraform_cost_of_nan (co2_price h2_price : float) :
  is_nan co2_price = true \/ is_nan h2_price = true ->
  is_nan (Methane.terraform_cost co2_price h2_price) = true.
Proof.
  intros H. apply is_nan_Prim2SF. unfold Methane.terraform_cost.
  rewrite mul_spec, add_spec, !mul_spec. unfold SF64mul, SF64add.
  destruct H as [H | H]; apply is_nan_Prim2SF in H; rewrite H.
  - reflexivity.
  - rewrite (SFmul_nan_l (Prim2SF 0.251)), SFadd_nan_r. reflexivity.
Qed.

Lemma terraform_cost_of_nan_witness :
  is_nan (Methane.terraform_cost nan 0.89) = true.
Proof. apply (terraform_cost_of_nan nan 0.89). left. reflexivity. Defined.

(** ** Order on the grid *)

(** X8. The heat map rises with both prices: for non-negative axis values,
    in either unit, a cell whose CO2 price and H2 price are both at least
    those of another cell holds a cost at least as high. *)
Theorem grid_is_monotone
        (x y : list float) (units : string) (w : world)
        (i j i' j' : nat) (xv xv' yv yv' : float) :
  x !! j = Some xv -> x !! j' = Some xv' ->
  y !! i = Some yv -> y !! i' = Some yv' ->
  (0 <=? xv)%float = true -> (0 <=? yv)%float = true ->
  (xv <=? xv')%float = true -> (yv <=? yv')%float = true ->
  exists (Z : ndarray) (c c' : float),
    Methane.graph_Z x y units w = (Ret Z, w) /\
    item Z i j = Some c /\ item Z i' j' = Some c' /\
    (c <=? c')%float = true.
Proof.
  intros Hj Hj' Hi Hi' Hx Hy Hxx Hyy.
  exists (cost_grid units x y), (cell_cost units xv yv), (cell_cost units xv' yv').
  split; [apply graph_Z_run |].
  split; [now apply item_cost_grid |].
  split; [now apply item_cost_grid |].
  now apply cell_cost_mono.
Qed.

Lemma grid_is_monotone_witness :
  exists (Z : ndarray) (c c' : float),
    Methane.graph_Z [78; 121; 164]%float [0.89; 2.5]%float "kcf" [] = (Ret Z, []) /\
    item Z 0 1 = Some c /\ item Z 1 2 = Some c' /\
    (c <=? c')%float = true.
Proof.
  apply (grid_is_monotone [78; 121; 164]%float [0.89; 2.5]%float "kcf" [] 0 1 1 2
           121%float 164%float 0.89%float 2.5%float); reflexivity.
Defined.

(** X9. For non-negative axis values every cell of the grid, in either
    unit, is non-negative and not NaN. *)
Theorem grid_cells_are_nonneg
        (x y : list float) (units : string) (w : world) (i j : nat) (xv yv : float) :
  x !! j = Some xv -> y !! i = Some yv ->
  (0 <=? xv)%float = true -> (0 <=? yv)%float = true ->
  exists (Z : ndarray) (c : float),
    Methane.graph_Z x y units w = (Ret Z, w) /\
    item Z i j = Some c /\
    (0 <=? c)%float = true /\ is_nan c = false.
Proof.
  intros Hj Hi Hx Hy.
  exists (cost_grid units x y), (cell_cost units xv yv).
  split; [apply graph_Z_run |].
  split; [now apply item_cost_grid |].
  pose proof (cell_cost_nonneg units xv yv Hx Hy) as H.
  split; [exact H | now apply is_nan_of_leb].
Qed.

Lemma grid_cells_are_nonneg_witness :
  exists (Z : ndarray) (c : float),
    Methane.graph_Z [78; 121; 164]%float [0.89; 2.5]%float "kg" [] = (Ret Z, []) /\
    item Z 1 2 = Some c /\
    (0 <=? c)%float = true /\ is_nan c = false.
Proof.
  apply (grid_cells_are_nonneg [78; 121; 164]%float [0.89; 2.5]%float "kg" [] 1 2
           164%float 2.5%float); reflexivity.
Defined.

(** X10. For non-negative axis values the "kcf" grid lies on or above the
    "kg" grid, cell by cell. *)
Theorem kcf_grid_is_above_kg_grid
        (x y : list float) (w : world) (i j : nat) (xv yv : float) :
  x !! j = Some xv -> y !! i = Some yv ->
  (0 <=? xv)%float = true -> (0 <=? yv)%float = true ->
  exists (Zkg Zkcf : ndarray) (ckg ckcf : float),
    Methane.graph_Z x y "kg" w = (Ret Zkg, w) /\
    Methane.graph_Z x y "kcf" w = (Ret Zkcf, w) /\
    item Zkg i j = Some ckg /\ item Zkcf i j = Some ckcf /\
    (ckg <=? ckcf)%float = true.
Proof.
  intros Hj Hi Hx Hy.
  exists (cost_grid "kg" x y), (cost_grid "kcf" x y),
    (cell_cost "kg" xv yv), (cell_cost "kcf" xv yv).
  repeat split; try apply graph_Z_run; try now apply item_cost_grid.
  now apply cell_cost_kcf_ge_kg.
Qed.

Lemma kcf_grid_is_above_kg_grid_witness :
  exists (Zkg Zkcf : ndarray) (ckg ckcf : float),
    Methane.graph_Z [78; 121]%float [0.89; 2.5]%float "kg" [] = (Ret Zkg, []) /\
    Methane.graph_Z [78; 121]%float [0.89; 2.5]%float "kcf" [] = (Ret Zkcf, []) /\
    item Zkg 1 0 = Some ckg /\ item Zkcf 1 0 = Some ckcf /\
    (ckg <=? ckcf)%float = true.
Proof.
  apply (kcf_grid_is_above_kg_grid [78; 121]%float [0.89; 2.5]%float [] 1 0
           78%float 2.5%float); reflexivity.
Defined.
